(** * Watchtower: the cache-to-store import engine and the full-text
      query layer, as a shallow embedding of [watchtower.py] and
      [web/web.py].

    The embedding follows the Python source function by function and
    keeps its names.  Python values are an inductive type, exceptions
    are an explicit result type, and the SQLite store that the code
    drives through [sqlite3]/[sqlite_utils] is a small executable model
    written out in the section on the store. *)

From Stdlib Require Import String Ascii List ZArith Bool Lia Arith.
From Stdlib Require Import Sorting.Sorted Sorting.Permutation.
From Stdlib Require Import Numbers.DecimalString.
Import ListNotations.

Set Warnings "-register-all".

Local Open Scope string_scope.
Local Open Scope list_scope.

(** ** Python values *)

(** What [json.load] with [Helpers.json_deserializer] hands to the
    import engine: JSON values, with date-looking strings turned into
    [datetime.date]/[datetime.datetime] objects (carried here by the ISO
    text the [sqlite3] adapter stores for them).  JSON numbers are
    modelled as integers. *)
Inductive PyVal : Type :=
| PNone
| PBool (b : bool)
| PInt (z : Z)
| PStr (s : string)
| PDate (iso : string)
| PDateTime (iso : string)
| PList (l : list PyVal)
| PDict (d : list (string * PyVal)).

(** A Python [dict] with string keys, in insertion order. *)
Definition PyDict := list (string * PyVal).

(** What an [assert] of the code can fail on. *)
Inductive Failed : Type :=
| ResponseEmpty
| ResponseNotDict
| TablesMissing
| TablesNotDict
| TableIsImports
| TableIsFts (table : string)
| PkNotString (table : string)
| TableNotDict (table : string)
| RowsMissing (table : string)
| RowsNotList (table : string)
| RowNotDict (table : string) (row : PyVal)
| TableNotFound (table : string)
| ColumnNotFound (column : string).

(** The exceptions the modelled code raises. *)
Inductive Exn : Type :=
| AssertionError (why : Failed)
| AttributeError
| IntegrityError
| OperationalError
| ValueError
| KeyError
| OverflowError.

Inductive res (A : Type) : Type :=
| Ok (a : A)
| Raise (e : Exn).
Arguments Ok {A} a.
Arguments Raise {A} e.

Definition bind {A B} (m : res A) (k : A -> res B) : res B :=
  match m with
  | Ok a => k a
  | Raise e => Raise e
  end.

Declare Scope res_scope.
Delimit Scope res_scope with res.
Notation "x <- m ;; k" := (bind m (fun x => k))
  (at level 61, m at next level, right associativity) : res_scope.
Notation "m ;;; k" := (bind m (fun _ => k))
  (at level 61, right associativity) : res_scope.

(** [assert c, why] *)
Definition assert (c : bool) (why : Failed) : res unit :=
  if c then Ok tt else Raise (AssertionError why).

(** Python truthiness. *)
Definition truthy (v : PyVal) : bool :=
  match v with
  | PNone => false
  | PBool b => b
  | PInt z => negb (Z.eqb z 0)
  | PStr s => negb (String.eqb s "")
  | PDate _ | PDateTime _ => true
  | PList l => match l with [] => false | _ => true end
  | PDict d => match d with [] => false | _ => true end
  end.

Definition is_dict (v : PyVal) : bool :=
  match v with PDict _ => true | _ => false end.
Definition is_list (v : PyVal) : bool :=
  match v with PList _ => true | _ => false end.
Definition is_str (v : PyVal) : bool :=
  match v with PStr _ => true | _ => false end.

Fixpoint assoc {V} (k : string) (d : list (string * V)) : option V :=
  match d with
  | [] => None
  | (k', v) :: d' => if String.eqb k k' then Some v else assoc k d'
  end.

(** [d.get(k)] on a dict: [None] when the key is absent. *)
Definition dict_get (d : PyDict) (k : string) : PyVal :=
  match assoc k d with Some v => v | None => PNone end.

(** [v.get(k)]: only a dict has the method. *)
Definition py_get (v : PyVal) (k : string) : res PyVal :=
  match v with
  | PDict d => Ok (dict_get d k)
  | _ => Raise AttributeError
  end.

(** [d[k] = v] / [d.update({k: v})]: an existing key keeps its place. *)
Fixpoint dict_set {V} (d : list (string * V)) (k : string) (v : V)
  : list (string * V) :=
  match d with
  | [] => [(k, v)]
  | (k', v') :: d' =>
      if String.eqb k k' then (k, v) :: d' else (k', v') :: dict_set d' k v
  end.

(** ** Strings *)

Definition nl : ascii := "010"%char.

Fixpoint no_newline (s : string) : bool :=
  match s with
  | EmptyString => true
  | String c s' => negb (Ascii.eqb c nl) && no_newline s'
  end.

Fixpoint ends_with (suffix s : string) : bool :=
  String.eqb s suffix ||
  match s with
  | EmptyString => false
  | String _ s' => ends_with suffix s'
  end.

(** [s] without its last character when that is a newline. *)
Fixpoint chop_newline (s : string) : option string :=
  match s with
  | EmptyString => None
  | String c EmptyString => if Ascii.eqb c nl then Some "" else None
  | String c s' =>
      match chop_newline s' with
      | Some r => Some (String c r)
      | None => None
      end
  end.

Module Regex.
(** [FTS_TABLE = '^.*(_fts|_fts_config|_fts_data|_fts_docsize|_fts_idx)$'] *)
Definition FTS_SUFFIXES : list string :=
  ["_fts"; "_fts_config"; "_fts_data"; "_fts_docsize"; "_fts_idx"].

(** [re.match(Regex.FTS_TABLE, table)] as a boolean: [.] does not
    cross a newline, and [$] also matches just before a final one. *)
Definition match_FTS_TABLE (table : string) : bool :=
  let hit c := no_newline c && existsb (fun suf => ends_with suf c) FTS_SUFFIXES in
  hit table ||
  match chop_newline table with
  | Some c => hit c
  | None => false
  end.
End Regex.

(** ** Response Validator: [Watchtower.validate_module_response] *)

Local Open Scope res_scope.

Fixpoint validate_rows (table : string) (rows : list PyVal) : res unit :=
  match rows with
  | [] => Ok tt
  | row :: rows' =>
      assert (is_dict row) (RowNotDict table row) ;;;
      validate_rows table rows'
  end.

(** The body of [for table in data.get('tables')], for one table. *)
Definition validate_table (tables : PyDict) (table : string) : res unit :=
  assert (negb (String.eqb table "imports")) TableIsImports ;;;
  assert (negb (Regex.match_FTS_TABLE table)) (TableIsFts table) ;;;
  pk <- py_get (dict_get tables table) "pk" ;;
  (if truthy pk then assert (is_str pk) (PkNotString table) else Ok tt) ;;;
  assert (is_dict (dict_get tables table)) (TableNotDict table) ;;;
  rows <- py_get (dict_get tables table) "rows" ;;
  assert (truthy rows) (RowsMissing table) ;;;
  assert (is_list rows) (RowsNotList table) ;;;
  match rows with
  | PList l => validate_rows table l
  | _ => Ok tt
  end.

Fixpoint validate_tables (tables : PyDict) (names : list string) : res unit :=
  match names with
  | [] => Ok tt
  | table :: names' =>
      validate_table tables table ;;;
      validate_tables tables names'
  end.

Definition validate_module_response (data : PyVal) : res unit :=
  assert (truthy data) ResponseEmpty ;;;
  assert (is_dict data) ResponseNotDict ;;;
  tables <- py_get data "tables" ;;
  assert (truthy tables) TablesMissing ;;;
  assert (is_dict tables) TablesNotDict ;;;
  match tables with
  | PDict t => validate_tables t (map fst t)
  | _ => Ok tt
  end.

(** ** Full-text query normalisation: [Db.normalize_fts_query] *)

(** Characters are [ascii], and the character classes are what [re]
    and [str] make of the code points below 128 ([\s]: codes 9-13,
    28-31 and 32; [\w]: letters, digits, [_]).  Python classifies the
    code points from 128 on by their Unicode properties (an accented
    letter is a word character, a no-break space is white space), which
    these functions do not: what is proved of queries is stated for
    strings of code points below 128 ([is_ascii]). *)
Definition is_space (c : ascii) : bool :=
  let n := nat_of_ascii c in
  (((9 <=? n) && (n <=? 13)) || ((28 <=? n) && (n <=? 32)))%nat.

Definition is_word (c : ascii) : bool :=
  let n := nat_of_ascii c in
  (((48 <=? n) && (n <=? 57)) || ((65 <=? n) && (n <=? 90))
   || ((97 <=? n) && (n <=? 122)) || (n =? 95))%nat.

Definition dquote : ascii := ascii_of_nat 34.
Definition squote : ascii := "'"%char.
Definition is_dquote (c : ascii) : bool := Ascii.eqb c dquote.

(** Offset of the first occurrence of [c] in [s]. *)
Fixpoint index_of (c : ascii) (s : string) : option nat :=
  match s with
  | EmptyString => None
  | String c' s' =>
      if Ascii.eqb c' c then Some 0
      else match index_of c s' with
           | Some n => Some (S n)
           | None => None
           end
  end.

Fixpoint take (n : nat) (s : string) : string :=
  match n, s with
  | S n', String c s' => String c (take n' s')
  | _, _ => EmptyString
  end.

(** [re.findall] of the quoted-substring pattern (a double quote, any
    run of other characters, a double quote), left to right; [skip] counts
    the characters still covered by the match found last. *)
Fixpoint findall_quoted (skip : nat) (s : string) : list string :=
  match s with
  | EmptyString => []
  | String c s' =>
      match skip with
      | S k => findall_quoted k s'
      | O =>
          if is_dquote c then
            match index_of dquote s' with
            | Some n => String c (take (S n) s') :: findall_quoted (S n) s'
            | None => findall_quoted 0 s'
            end
          else findall_quoted 0 s'
      end
  end.

(** [s.replace(c, '')] for a one-character [c]. *)
Fixpoint remove_char (c : ascii) (s : string) : string :=
  match s with
  | EmptyString => EmptyString
  | String c' s' =>
      if Ascii.eqb c' c then remove_char c s' else String c' (remove_char c s')
  end.

Fixpoint starts_with (p s : string) : bool :=
  match p, s with
  | EmptyString, _ => true
  | String a p', String b s' => Ascii.eqb a b && starts_with p' s'
  | String _ _, EmptyString => false
  end.

(** [s.replace(p, '')]: every occurrence of [p], leftmost first and
    without overlap, is dropped; an empty [p] changes nothing. *)
Fixpoint remove_all_from (p : string) (skip : nat) (s : string) : string :=
  match s with
  | EmptyString => EmptyString
  | String c s' =>
      match skip with
      | S k => remove_all_from p k s'
      | O =>
          if starts_with p s
          then remove_all_from p (String.length p - 1) s'
          else String c (remove_all_from p 0 s')
      end
  end.

Definition str_remove (p s : string) : string :=
  match p with
  | EmptyString => s
  | _ => remove_all_from p 0 s
  end.

(** [\b] between a character that is a word character or not ([prev])
    and the head of [s]. *)
Definition boundary (prev : bool) (s : string) : bool :=
  match s with
  | EmptyString => prev
  | String c _ => xorb prev (is_word c)
  end.

(** The greedy [[^\s]*\b]: the largest offset inside the run of
    non-space characters heading [s] at which [\b] holds. *)
Fixpoint last_boundary (prev : bool) (s : string) : option nat :=
  match s with
  | EmptyString => if prev then Some 0 else None
  | String c s' =>
      if is_space c then (if prev then Some 0 else None)
      else match last_boundary (is_word c) s' with
           | Some k => Some (S k)
           | None => if xorb prev (is_word c) then Some 0 else None
           end
  end.

(** [re.findall('\\b[^\\s]*\\b', s)], empty matches included. *)
Fixpoint findall_bounded (prev : bool) (skip : nat) (s : string) : list string :=
  match skip with
  | S k =>
      match s with
      | EmptyString => []
      | String c s' => findall_bounded (is_word c) k s'
      end
  | O =>
      let k := match last_boundary prev s with Some k => k | None => 0 end in
      match s with
      | EmptyString => if boundary prev s then [take k s] else []
      | String c s' =>
          if boundary prev s
          then take k s :: findall_bounded (is_word c) (k - 1) s'
          else findall_bounded (is_word c) 0 s'
      end
  end.

Definition nonempty (s : string) : bool := negb (String.eqb s "").

(** The chain of [.replace(.., '')] applied to every keyword. *)
Definition clean_keyword (k : string) : string :=
  remove_char ","%char
    (remove_char "013"%char
       (remove_char nl
          (remove_char " "%char
             (remove_char squote (remove_char dquote k))))).

(** [sep.join(l)] *)
Fixpoint join (sep : string) (l : list string) : string :=
  match l with
  | [] => ""
  | [x] => x
  | x :: l' => x ++ sep ++ join sep l'
  end.

Definition OR_SEP : string := String dquote (" OR " ++ String dquote "").

(** [f'"{s}"'] *)
Definition quoted (s : string) : string :=
  String dquote (s ++ String dquote "").

Definition phrases_of (query : string) : list string :=
  map (remove_char dquote) (findall_quoted 0 query).

Definition keywords_of (query : string) : list string :=
  map clean_keyword (filter nonempty (findall_bounded false 0 query)).

(** [phrases.count or keywords.count] is always true (bound methods),
    so the join is always taken. *)
Definition normalize_fts_query (query : string) : option string :=
  let phrases := phrases_of query in
  let query := fold_left (fun q p => str_remove p q) phrases query in
  let keywords := keywords_of query in
  let query := join OR_SEP (phrases ++ keywords) in
  if nonempty query then Some (quoted query) else None.

(** ** File-name helpers: [Helpers] *)

(** [s.split(sep)] for a one-character separator. *)
Fixpoint split_on (sep : ascii) (s : string) : list string :=
  match s with
  | EmptyString => [""]
  | String c s' =>
      if Ascii.eqb c sep then "" :: split_on sep s'
      else match split_on sep s' with
           | x :: l => String c x :: l
           | [] => [String c ""]
           end
  end.

(** [os.path.basename] *)
Definition basename (path : string) : string :=
  last (split_on "/"%char path) "".

Fixpoint all_dots (s : string) : bool :=
  match s with
  | EmptyString => true
  | String c s' => Ascii.eqb c "."%char && all_dots s'
  end.

(** [os.path.splitext(name)[0]]: the name up to its last dot, unless
    only dots come before it. *)
Definition splitext_root (name : string) : string :=
  let parts := split_on "."%char name in
  let root := join "." (removelast parts) in
  match parts with
  | [_] => name
  | _ => if all_dots root then name else root
  end.

Module Helpers.
Definition strip_filename (filename : string) : string :=
  splitext_root (basename filename).

Definition get_module_name_from_file (name : string) : string :=
  join "_" (removelast (split_on "_"%char (strip_filename name))).
End Helpers.

(** ** The store

    A model of the SQLite database behind [sqlite_utils.Database], as
    far as the import engine and the search engine use it.  Values are
    SQLite storage classes (integers, text; booleans are stored as 0/1,
    dates and nested values as text).  A store lists the tables that
    were created as tables, each with its rows in insertion order; the
    tables SQLite keeps for a full-text index ([t_fts], [t_fts_data],
    ...) are no entries of their own, they stand behind the field [fts]
    of the table they index. *)

Inductive Value : Type :=
| VNull
| VInt (z : Z)
| VText (s : string).

Inductive ColType : Type := INTEGER | TEXT | BOOLEAN | DATE | DATETIME.

Definition Row := list (string * Value).

Record Table : Type := mkTable {
  columns : list (string * ColType);
  pk : option string;
  indexes : list string;          (* first column of every index *)
  fts : option (list string);     (* columns of the [_fts] shadow table *)
  rows : list Row
}.

Definition Store := list (string * Table).

Definition value_eqb (a b : Value) : bool :=
  match a, b with
  | VNull, VNull => true
  | VInt x, VInt y => Z.eqb x y
  | VText x, VText y => String.eqb x y
  | _, _ => false
  end.

Definition row_get (r : Row) (c : string) : Value :=
  match assoc c r with Some v => v | None => VNull end.

Definition mem (k : string) (l : list string) : bool :=
  existsb (String.eqb k) l.

Definition column_names (t : Table) : list string := map fst (columns t).

Definition int_of_text (s : string) : option Z :=
  option_map Z.of_int (NilZero.int_of_string s).

Definition text_of_int (z : Z) : string :=
  NilZero.string_of_int (Z.to_int z).

(** Column affinity: numeric columns turn text that is a decimal
    integer (digits, with a minus sign or none) into that integer, text
    columns turn an integer into its decimal text.  SQLite converts
    more: text with a plus sign, with white space around it, with a
    fraction or an exponent is a number to it as well, and an integer
    beyond 64 bits becomes a real.  Where that matters the values are
    required to be ones this function gets right ([affinity_exact]). *)
Definition store_value (ty : ColType) (v : Value) : Value :=
  match ty, v with
  | TEXT, VInt z => VText (text_of_int z)
  | TEXT, _ => v
  | _, VText s => match int_of_text s with Some z => VInt z | None => v end
  | _, _ => v
  end.

(** The row id a table without explicit key value hands out next. *)
Definition next_rowid (k : string) (rs : list Row) : Z :=
  fold_left (fun m r => match row_get r k with VInt z => Z.max m z | _ => m end)
            rs 0%Z + 1.

Definition drop_key (k : string) (v : Value) (rs : list Row) : list Row :=
  filter (fun r => negb (value_eqb (row_get r k) v)) rs.

Definition with_rows (t : Table) (rs : list Row) : Table :=
  mkTable (columns t) (pk t) (indexes t) (fts t) rs.

(** One row of [INSERT OR REPLACE INTO t ...].  A row whose key is
    already there replaces the old row; a NULL key never collides, and
    gets the next row id when the key is an [INTEGER PRIMARY KEY]; text
    that is no integer in such a key is SQLite's datatype mismatch,
    which [sqlite3] raises as [IntegrityError].  The list of rows is in
    the order of insertion, a replacing row last; it does not stand for
    the order in which SQLite walks a table, in which a replaced row of
    an integer key keeps its place. *)
Definition insert_or_replace (t : Table) (r : Row) : res Table :=
  match pk t with
  | None => Ok (with_rows t (rows t ++ [r]))
  | Some k =>
      match assoc k (columns t), row_get r k with
      | Some INTEGER, VNull =>
          Ok (with_rows t (rows t ++ [dict_set r k (VInt (next_rowid k (rows t)))]))
      | Some INTEGER, VText _ => Raise IntegrityError
      | _, VNull => Ok (with_rows t (rows t ++ [r]))
      | _, v => Ok (with_rows t (drop_key k v (rows t) ++ [r]))
      end
  end.

Fixpoint insert_rows (t : Table) (rs : list Row) : res Table :=
  match rs with
  | [] => Ok t
  | r :: rs' => t' <- insert_or_replace t r ;; insert_rows t' rs'
  end.

(** *** [sqlite_utils.suggest_column_types] and table creation *)

Inductive PyType : Type :=
| TyNone | TyBool | TyInt | TyStr | TyDate | TyDateTime | TyJson.

Definition type_of (v : PyVal) : PyType :=
  match v with
  | PNone => TyNone
  | PBool _ => TyBool
  | PInt _ => TyInt
  | PStr _ => TyStr
  | PDate _ => TyDate
  | PDateTime _ => TyDateTime
  | PList _ | PDict _ => TyJson
  end.

Definition pytype_eqb (a b : PyType) : bool :=
  match a, b with
  | TyNone, TyNone | TyBool, TyBool | TyInt, TyInt | TyStr, TyStr
  | TyDate, TyDate | TyDateTime, TyDateTime | TyJson, TyJson => true
  | _, _ => false
  end.

(** [db.COLUMN_TYPE_MAPPING], with the entries [Watchtower.__init__]
    adds for [bool], [datetime.date] and [datetime.datetime]. *)
Definition COLUMN_TYPE_MAPPING (t : PyType) : ColType :=
  match t with
  | TyBool => BOOLEAN
  | TyInt => INTEGER
  | TyDate => DATE
  | TyDateTime => DATETIME
  | TyNone | TyStr | TyJson => TEXT
  end.

(** The column type for the Python types seen under one key: nulls are
    ignored next to other types, [int] absorbs [bool], any other mix is
    text. *)
Definition suggest_type (seen : list PyType) : ColType :=
  match filter (fun t => negb (pytype_eqb t TyNone)) seen with
  | [] => TEXT
  | t :: ts =>
      if forallb (pytype_eqb t) ts then COLUMN_TYPE_MAPPING t
      else if forallb (fun u => pytype_eqb u TyInt || pytype_eqb u TyBool) (t :: ts)
           then INTEGER
           else TEXT
  end.

Definition add_key (acc : list string) (k : string) : list string :=
  if mem k acc then acc else acc ++ [k].

(** Every key of the records, in order of first appearance. *)
Definition all_keys (records : list PyDict) : list string :=
  fold_left (fun acc r => fold_left add_key (map fst r) acc) records [].

Definition seen_types (k : string) (records : list PyDict) : list PyType :=
  flat_map (fun r => match assoc k r with
                     | Some v => [type_of v]
                     | None => []
                     end) records.

Definition suggest_column_types (records : list PyDict)
  : list (string * ColType) :=
  map (fun k => (k, suggest_type (seen_types k records))) (all_keys records).

Definition coltype_is_integer (ty : option ColType) : bool :=
  match ty with Some INTEGER => true | _ => false end.

(** [table.create(column_types, pk=pk)]: a key that is no column yet
    becomes an integer column in front; a key that is not the row id
    gets SQLite's automatic index. *)
Definition create_table (cols : list (string * ColType)) (key : option string)
  : Table :=
  match key with
  | None => mkTable cols None [] None []
  | Some k =>
      let cols' := if mem k (map fst cols) then cols else (k, INTEGER) :: cols in
      mkTable cols' (Some k)
              (if coltype_is_integer (assoc k cols') then [] else [k])
              None []
  end.

(** [table.enable_fts(columns, create_triggers=True)] *)
Definition enable_fts (t : Table) : Table :=
  mkTable (columns t) (pk t) (indexes t) (Some (column_names t)) (rows t).

(** [table.create_index([k])] for every [k] of [ks]. *)
Definition create_indexes (t : Table) (ks : list string) : Table :=
  mkTable (columns t) (pk t) (indexes t ++ ks) (fts t) (rows t).

(** [alter=True]: columns of the records that the table lacks are
    added, with the suggested type. *)
Definition add_missing_columns (t : Table) (records : list PyDict) : Table :=
  mkTable (columns t ++
           filter (fun c => negb (mem (fst c) (column_names t)))
                  (suggest_column_types records))
          (pk t) (indexes t) (fts t) (rows t).

(** [sqlite3] binds a Python [int] as a 64-bit integer, and raises
    [OverflowError] for one that does not fit. *)
Definition fits64 (z : Z) : bool :=
  ((- 2 ^ 63 <=? z) && (z <? 2 ^ 63))%Z.

(** Whether binding the values of a record raises. *)
Definition overflows (record : PyDict) : bool :=
  existsb (fun k => match dict_get record k with
                    | PInt z => negb (fits64 z)
                    | _ => false
                    end) (map fst record).

Section Store.

(** [json.dumps], which [sqlite_utils] applies to nested values. *)
Variable json_dumps : PyVal -> string.

(** What [sqlite3] binds for a Python value. *)
Definition adapt (v : PyVal) : Value :=
  match v with
  | PNone => VNull
  | PBool b => VInt (if b then 1 else 0)
  | PInt z => VInt z
  | PStr s => VText s
  | PDate iso | PDateTime iso => VText iso
  | PList _ | PDict _ => VText (json_dumps v)
  end.

(** The row stored for a record: a value for every column of the
    table, NULL where the record has no such key. *)
Definition to_row (t : Table) (record : PyDict) : Row :=
  map (fun c => (fst c, store_value (snd c) (adapt (dict_get record (fst c)))))
      (columns t).

(** [table.insert_all(records, pk=pk, alter=True, replace=True)] on
    an existing table, whose key is the one it was created with.  The
    rows go in as one statement inside one transaction: the missing
    columns are added, the values of all the rows are bound, which
    raises [OverflowError] for an integer beyond 64 bits, and then the
    rows are written.  When the statement raises, none of its rows
    stays, while the columns added before do.  [sqlite_utils] sends
    the records in batches of up to 100 rows, one statement each; this
    is the import of one batch, and nothing is stated here about the
    rows of earlier batches when a later one raises. *)
Definition insert_all (t : Table) (records : list PyDict) : Table * res unit :=
  let t1 := add_missing_columns t records in
  if existsb overflows records then (t1, Raise OverflowError)
  else
    match insert_rows t1 (map (to_row t1) records) with
    | Ok t2 => (t2, Ok tt)
    | Raise e => (t1, Raise e)
    end.

End Store.

(** ** Import engine: [Watchtower._import_file], [Watchtower._cache_import] *)

(** What [Helpers.print_and_log] is called with. *)
Inductive Msg : Type :=
| CreatedTable (table : string)
| AlreadyImported (file : string)
| UpdatingTable (table : string)
| InsertedRows (n : nat) (table : string) (import_id : Z)
| CacheReadFailed (filepath : string) (reason : option Failed)
| CacheImportFailed (filepath : string) (table : string)
| ImportingFile (file : string)
| CommittingChanges
| ImportComplete
| LockTimeout (target : string) (timeout : nat).

(** A cache file as the import reads it: its path, the SHA-1 of its
    bytes, and the decoded payload ([None] when [json.load] raises
    [JSONDecodeError]). *)
Record CacheFile : Type := mkCacheFile {
  filepath : string;
  sha1 : string;
  data : option PyVal
}.

(** [v.get(k)] where validation has made sure [v] is a dict. *)
Definition get (v : PyVal) (k : string) : PyVal :=
  match v with
  | PDict d => dict_get d k
  | _ => PNone
  end.

Definition as_rows (v : PyVal) : list PyDict :=
  match v with
  | PList l => flat_map (fun x => match x with PDict d => [d] | _ => [] end) l
  | _ => []
  end.

(** The [pk] of a table of the response: a non-empty string or none. *)
Definition declared_pk (spec : PyVal) : option string :=
  match get spec "pk" with
  | PStr s => if String.eqb s "" then None else Some s
  | _ => None
  end.

Definition imports_table_name : string := "imports".

Definition sha1_eqb (h : string) (r : Row) : bool :=
  value_eqb (row_get r "sha1") (VText h).

(** [imports_table.rows_where('sha1 = ?', [sha1])] *)
Definition rows_where_sha1 (db : Store) (h : string) : list Row :=
  match assoc imports_table_name db with
  | Some t => filter (sha1_eqb h) (rows t)
  | None => []
  end.

Definition unindexed (t : Table) : list string :=
  filter (fun c => negb (mem c (indexes t))) (column_names t).

Section ImportEngine.

Variable json_dumps : PyVal -> string.

Definition import_row (now : string) (f : CacheFile) : PyDict :=
  [("module", PStr (Helpers.get_module_name_from_file (filepath f)));
   ("file", PStr (filepath f));
   ("sha1", PStr (sha1 f));
   ("timestamp", PDateTime now)].

(** [if not imports_table.exists(): ...] *)
Definition ensure_imports_table (db : Store) (row : PyDict)
  : Store * list Msg :=
  match assoc imports_table_name db with
  | Some _ => (db, [])
  | None =>
      let t := create_table (suggest_column_types [row]) (Some "id") in
      let t := create_indexes t (map fst row) in
      (dict_set db imports_table_name (enable_fts t),
       [CreatedTable imports_table_name])
  end.

(** [imports_table.insert(import_row, alter=True)] and
    [imports_table.last_pk].  On the table [ensure_imports_table]
    creates, the row, which has no [id], gets the next row id; no row
    is replaced and the insert cannot fail. *)
Definition insert_import_row (db : Store) (row : PyDict) : Store * Z :=
  match assoc imports_table_name db with
  | Some t =>
      (dict_set db imports_table_name (fst (insert_all json_dumps t [row])),
       next_rowid "id" (rows t))
  | None => (db, 0%Z)
  end.

(** The body of [for table_name in data.get('tables')].  The foreign
    key added on creation is not recorded: SQLite does not enforce it
    unless asked to, and the code never asks. *)
Definition import_table (db : Store) (import_id : Z) (tables : PyVal)
           (table_name : string) : Store * list Msg * res unit :=
  let spec := get tables table_name in
  let rows := map (fun r => dict_set r "import_id" (PInt import_id))
                  (as_rows (get spec "rows")) in
  let key := declared_pk spec in
  let '(table, created) :=
    match assoc table_name db with
    | Some t => (t, [])
    | None => (enable_fts (create_table (suggest_column_types rows) key),
               [CreatedTable table_name])
    end in
  match insert_all json_dumps table rows with
  | (t, Ok _) =>
      (dict_set db table_name (create_indexes t (unindexed t)),
       created ++ [UpdatingTable table_name;
                   InsertedRows (List.length rows) table_name import_id],
       Ok tt)
  | (t, Raise e) =>
      (dict_set db table_name t,
       created ++ [UpdatingTable table_name], Raise e)
  end.

(** The loop over the tables; on an exception, the table it was
    raised in. *)
Fixpoint import_tables (db : Store) (import_id : Z) (tables : PyVal)
         (names : list string) : Store * list Msg * option (string * Exn) :=
  match names with
  | [] => (db, [], None)
  | table_name :: names' =>
      match import_table db import_id tables table_name with
      | (db1, log1, Raise e) => (db1, log1, Some (table_name, e))
      | (db1, log1, Ok _) =>
          let '(db2, log2, r) := import_tables db1 import_id tables names' in
          (db2, log1 ++ log2, r)
      end
  end.

Definition keys (v : PyVal) : list string :=
  match v with
  | PDict d => map fst d
  | _ => []
  end.

Definition import_file (db_conn : Store) (now : string) (f : CacheFile)
           (force : bool) : Store * list Msg * res unit :=
  match data f with
  | None => (db_conn, [CacheReadFailed (filepath f) None], Ok tt)
  | Some data =>
      match validate_module_response data with
      | Raise (AssertionError why) =>
          (db_conn, [CacheReadFailed (filepath f) (Some why)], Ok tt)
      | Raise e => (db_conn, [], Raise e)
      | Ok _ =>
          let row := import_row now f in
          let '(db1, log1) := ensure_imports_table db_conn row in
          if negb (Nat.eqb (List.length (rows_where_sha1 db1 (sha1 f))) 0)
             && negb force
          then (db1, log1 ++ [AlreadyImported (basename (filepath f))], Ok tt)
          else
            let '(db2, import_id) := insert_import_row db1 row in
            match import_tables db2 import_id (get data "tables")
                                (keys (get data "tables")) with
            | (db3, log3, None) => (db3, log1 ++ log3, Ok tt)
            | (db3, log3, Some (table_name, IntegrityError)) =>
                (db3, log1 ++ log3 ++
                      [CacheImportFailed (filepath f) table_name], Ok tt)
            | (db3, log3, Some (_, e)) => (db3, log1 ++ log3, Raise e)
            end
      end
  end.

(** *** The batch *)

Record Args : Type := mkArgs {
  database : option string;
  files : list CacheFile;
  force : bool
}.

(** The lock marker of the target: free, or held by another process
    that lets go after some time, or never. *)
Inductive Lock : Type :=
| Free
| Held (release_after : option nat).

(** [db_lock.acquire(timeout=...)]: [false] stands for [Timeout]. *)
Definition acquire (l : Lock) (timeout : nat) : bool :=
  match l with
  | Free => true
  | Held (Some n) => Nat.leb n timeout
  | Held None => false
  end.

(** [self.lock_timeout = 60] *)
Definition lock_timeout : nat := 60.

Inductive Exit : Type := NoDatabaseSpecified | NoCacheFilesFound.

Inductive Ending : Type :=
| Returned
| Exited (why : Exit)
| Raised (e : Exn).

(** [for f in files: ... self._import_file(temp_db_conn, f, args.force)];
    [clock i] is the time read for the [i]-th file. *)
Fixpoint import_files (temp : Store) (clock : nat -> string) (i : nat)
         (fs : list CacheFile) (force : bool) : Store * list Msg * res unit :=
  match fs with
  | [] => (temp, [], Ok tt)
  | f :: fs' =>
      match import_file temp (clock i) f force with
      | (temp1, log1, Raise e) =>
          (temp1, ImportingFile (basename (filepath f)) :: log1, Raise e)
      | (temp1, log1, Ok _) =>
          let '(temp2, log2, r) := import_files temp1 clock (S i) fs' force in
          (temp2, ImportingFile (basename (filepath f)) :: log1 ++ log2, r)
      end
  end.

(** [_cache_import]: the durable store at [args.database] goes in, the
    durable store afterwards comes out, with the log and the way the
    call ended.  The work is done on a copy, which replaces the
    durable store only when the loop gets to its end. *)
Definition cache_import (durable : Store) (lock : Lock)
           (clock : nat -> string) (args : Args)
  : Store * list Msg * Ending :=
  match database args with
  | None => (durable, [], Exited NoDatabaseSpecified)
  | Some target_db =>
      match files args with
      | [] => (durable, [], Exited NoCacheFilesFound)
      | _ =>
          let temp := durable in
          if acquire lock lock_timeout then
            match import_files temp clock 0 (files args) (force args) with
            | (temp', log, Ok _) =>
                (temp', log ++ [CommittingChanges; ImportComplete], Returned)
            | (_, log, Raise e) => (durable, log, Raised e)
            end
          else (durable, [LockTimeout target_db lock_timeout], Returned)
      end
  end.

End ImportEngine.

(** ** Search engine: [Db.search_table] *)

Inductive SortDir : Type := ASC | DESC.

(** The two statements [search_table] builds, by their clauses.  The
    code pastes the names of table and columns into the text of the
    statement, unquoted; here they are looked up as names, which is
    what SQLite does with them when they are plain identifiers and no
    keywords ([plain_identifier]). *)
Record Select : Type := mkSelect {
  sel_columns : list string;
  sel_from : string;
  sel_match : option string;      (* the bound MATCH parameter *)
  sel_order : Z;
  sel_direction : SortDir;
  sel_limit : option Z;
  sel_offset : option Z
}.

(** SQLite's order of values: NULL, then integers, then text by its
    bytes. *)
Definition value_leb (a b : Value) : bool :=
  match a, b with
  | VNull, _ => true
  | _, VNull => false
  | VInt x, VInt y => Z.leb x y
  | VInt _, VText _ => true
  | VText _, VInt _ => false
  | VText x, VText y => String.leb x y
  end.

Definition dir_leb (d : SortDir) (a b : Value) : bool :=
  match d with
  | ASC => value_leb a b
  | DESC => value_leb b a
  end.

Section Sorting.
Variable A : Type.
Variable leb : A -> A -> bool.

Fixpoint insert_sorted (x : A) (l : list A) : list A :=
  match l with
  | [] => [x]
  | y :: l' => if leb x y then x :: l else y :: insert_sorted x l'
  end.

(** Insertion sort; elements with equal keys keep their order.  This
    is one of the orders [ORDER BY] may give: SQLite leaves the order
    of rows with equal keys open.  Where the rows have different keys
    there is one sorted order, and it is this one. *)
Definition sort_by (l : list A) : list A :=
  fold_right insert_sorted [] l.
End Sorting.
Arguments insert_sorted {A} leb x l.
Arguments sort_by {A} leb l.

(** [ORDER BY n dir] on rows, [n] counted from 1 in [cols]. *)
Definition order_key (cols : list string) (n : Z) (r : Row) : Value :=
  row_get r (nth (Z.to_nat (n - 1)) cols "").

Definition order_rows (cols : list string) (n : Z) (d : SortDir)
           (rs : list Row) : list Row :=
  sort_by (fun a b => dir_leb d (order_key cols n a) (order_key cols n b)) rs.

(** [LIMIT]/[OFFSET]: a negative limit is no limit, a negative offset
    is none. *)
Definition page (limit offset : option Z) (rs : list Row) : list Row :=
  let rs := match offset with
            | Some m => skipn (Z.to_nat m) rs
            | None => rs
            end in
  match limit with
  | Some n => if (n <? 0)%Z then rs else firstn (Z.to_nat n) rs
  | None => rs
  end.

(** [dict(row)] for a result row over the selected columns. *)
Definition project (cols : list string) (r : Row) : Row :=
  fold_left (fun d c => dict_set d c (row_get r c)) cols [].

Definition in_range (n : Z) (cols : list string) : bool :=
  ((1 <=? n) && (n <=? Z.of_nat (List.length cols)))%Z.

Definition lower_char (c : ascii) : ascii :=
  let n := nat_of_ascii c in
  if ((65 <=? n) && (n <=? 90))%nat then ascii_of_nat (n + 32) else c.

(** [s.lower()] *)
Fixpoint lower (s : string) : string :=
  match s with
  | EmptyString => EmptyString
  | String c s' => String (lower_char c) (lower s')
  end.

Section SearchEngine.

(** The full-text extension: for a table with its shadow table and a
    MATCH expression, the rows that match, or [None] when the
    extension rejects the expression or has no shadow table. *)
Variable fts_match : string -> Table -> string -> option (Row -> bool).

Definition rows_matching (db : Store) (table : string) (m : option string)
  : res (list Row) :=
  match assoc table db with
  | None => Raise OperationalError
  | Some t =>
      match m with
      | None => Ok (rows t)
      | Some e =>
          match fts_match table t e with
          | Some p => Ok (filter p (rows t))
          | None => Raise OperationalError
          end
      end
  end.

(** [SELECT COUNT( * ) ... WHERE rowid IN (... MATCH ?)] *)
Definition execute_count (db : Store) (table : string) (m : string)
  : res nat :=
  rs <- rows_matching db table (Some m) ;; Ok (List.length rs).

(** [SELECT cols FROM t [WHERE ... MATCH ?] ORDER BY n dir [LIMIT l]
    [OFFSET o]].  SQLite has no [OFFSET] without [LIMIT], and wants
    the order index within the selected columns. *)
Definition execute_select (db : Store) (q : Select) : res (list Row) :=
  match sel_limit q, sel_offset q with
  | None, Some _ => Raise OperationalError
  | _, _ =>
      rs <- rows_matching db (sel_from q) (sel_match q) ;;
      match assoc (sel_from q) db with
      | None => Raise OperationalError
      | Some t =>
          if negb (forallb (fun c => mem c (column_names t)) (sel_columns q))
          then Raise OperationalError
          else if negb (in_range (sel_order q) (sel_columns q))
          then Raise OperationalError
          else Ok (map (project (sel_columns q))
                       (page (sel_limit q) (sel_offset q)
                             (order_rows (sel_columns q) (sel_order q)
                                         (sel_direction q) rs)))
      end
  end.

(** [self.db[table].exists()], for the tables that are entries of
    the store.  SQLite also has the tables of the full-text indexes,
    which are no entries here: a search in one of those is not
    modelled. *)
Definition table_exists (db : Store) (table : string) : bool :=
  match assoc table db with Some _ => true | None => false end.

Definition column_exists (db : Store) (table column : string) : bool :=
  match assoc table db with
  | Some t => mem column (column_names t)
  | None => false
  end.

Definition get_table_columns (db : Store) (table : string) : list string :=
  match assoc table db with
  | Some t => column_names t
  | None => []
  end.

Definition get_table_count (db : Store) (table : string) : nat :=
  match assoc table db with
  | Some t => List.length (rows t)
  | None => 0
  end.

Fixpoint assert_columns (db : Store) (table : string) (cols : list string)
  : res unit :=
  match cols with
  | [] => Ok tt
  | column :: cols' =>
      assert (column_exists db table column) (ColumnNotFound column) ;;;
      assert_columns db table cols'
  end.

(** [direction.lower() in ['desc', 'descending']] *)
Definition parse_direction (direction : PyVal) : res SortDir :=
  match direction with
  | PStr s =>
      if String.eqb (lower s) "desc" || String.eqb (lower s) "descending"
      then Ok DESC else Ok ASC
  | _ => Raise AttributeError
  end.

Definition clause (n : Z) : option Z :=
  if Z.eqb n 0 then None else Some n.

Definition match_expression (cols : list string) (q : string) : string :=
  "{" ++ join " " cols ++ "}: " ++ q.

Definition search_table (db : Store) (table : string)
           (columns : option (list string)) (query : option string)
           (order : Z) (direction : PyVal) (limit offset : Z)
  : res (nat * nat * list Row) :=
  assert (table_exists db table) (TableNotFound table) ;;;
  cols <- match columns with
          | Some (c :: cs) =>
              assert_columns db table (c :: cs) ;;; Ok (c :: cs)
          | _ => Ok (get_table_columns db table)
          end ;;
  dir <- parse_direction direction ;;
  let limit_sql := clause limit in
  let offset_sql := clause offset in
  let total_count := get_table_count db table in
  let query := match query with
               | Some q => if nonempty q then normalize_fts_query q else None
               | None => None
               end in
  let match_ := option_map (match_expression cols) query in
  filtered_count <- match match_ with
                    | Some m => execute_count db table m
                    | None => Ok total_count
                    end ;;
  rs <- execute_select db (mkSelect cols table match_ order dir
                                    limit_sql offset_sql) ;;
  Ok (total_count, filtered_count, rs).

End SearchEngine.

(** ** Web layer: [web.py] *)

Fixpoint lstrip (s : string) : string :=
  match s with
  | EmptyString => EmptyString
  | String c s' => if is_space c then lstrip s' else s
  end.

Fixpoint rstrip (s : string) : string :=
  match s with
  | EmptyString => EmptyString
  | String c s' =>
      match rstrip s' with
      | EmptyString => if is_space c then EmptyString else String c EmptyString
      | r => String c r
      end
  end.

(** [s.strip()], for the white space among the code points below
    128. *)
Definition strip (s : string) : string := lstrip (rstrip s).

Definition digit_of (c : ascii) : option Z :=
  let n := nat_of_ascii c in
  if ((48 <=? n) && (n <=? 57))%nat then Some (Z.of_nat (n - 48)) else None.

(** The digits of an integer literal, where single underscores may sit
    between digits; [acc] is the value so far, [after_digit] tells
    whether the character before was a digit. *)
Fixpoint int_digits (acc : Z) (after_digit : bool) (s : string) : option Z :=
  match s with
  | EmptyString => if after_digit then Some acc else None
  | String c s' =>
      match digit_of c with
      | Some d => int_digits (10 * acc + d) true s'
      | None =>
          if Ascii.eqb c "_"%char && after_digit
          then match s' with
               | EmptyString => None
               | _ => int_digits acc false s'
               end
          else None
      end
  end.

(** [int(s)] for a string: [None] stands for [ValueError]. *)
Definition py_int (s : string) : option Z :=
  match strip s with
  | String "-"%char s' => option_map Z.opp (int_digits 0 false s')
  | String "+"%char s' => int_digits 0 false s'
  | s' => int_digits 0 false s'
  end.

Definition int_or_raise (s : string) : res Z :=
  match py_int s with
  | Some z => Ok z
  | None => Raise ValueError
  end.

Module Web.

(** [request.values], and [request.values.get(k, None)]. *)
Definition Request := list (string * string).

Definition values_get (req : Request) (k : string) : option string :=
  assoc k req.

(** [Helpers.empty_to_none] *)
Definition empty_to_none (v : option string) : option string :=
  match v with
  | Some s => if nonempty s then Some s else None
  | None => None
  end.

Inductive Error : Type :=
| DatabaseNotFound (db_param : string)
| MustSpecifyDatabase
| NoTableSpecified
| TableDoesNotExist (table : string)
| FetchError.

(** The JSON object of [DataTables.get_response]. *)
Record Response : Type := mkResponse {
  draw : Z;
  recordsTotal : nat;
  recordsFiltered : nat;
  data : list Row;
  error : option Error
}.

Record DataTables : Type := mkDataTables {
  dt_length : Z;
  dt_start : Z;
  dt_draw : Z;
  dt_order_col_index : Z;
  dt_direction : string
}.

(** [DataTables.__init__] *)
Definition new_DataTables (req : Request) : res DataTables :=
  d <- match values_get req "draw" with
       | Some s => int_or_raise s
       | None => Ok 1%Z
       end ;;
  o <- match values_get req "order[0][column]" with
       | Some s => int_or_raise s
       | None => Ok 0%Z
       end ;;
  Ok (mkDataTables 10 0 d (o + 1)
        (match values_get req "order[0][dir]" with
         | Some "desc" => "DESC"
         | _ => "ASC"
         end)).

Definition get_response (dt : DataTables) (total_count filtered_count : nat)
           (rows : list Row) (err : option Error) : Response :=
  match err with
  | None => mkResponse (dt_draw dt) total_count filtered_count rows None
  | Some e => mkResponse (dt_draw dt) 0 0 [] (Some e)
  end.

(** What the handler finds around it: the database files by stripped
    name, and the sections of [web.conf]. *)
Record Env : Type := mkEnv {
  all_dbs : list (string * Store);
  config : list (string * list (string * string))
}.

Section Handlers.

Variable fts_match : string -> Table -> string -> option (Row -> bool).

Definition normalize_columnstring (db : Store) (table columnstring : string)
  : string :=
  if nonempty (strip columnstring)
  then join "," (map strip (split_on ","%char columnstring))
  else join "," (get_table_columns db table).

(** [DataTables.get_table_config(database, [table])[table]]: a
    table the section does not list is a [KeyError]. *)
Definition get_table_config (env : Env) (section_key : string) (db : Store)
           (table : string) : res string :=
  match assoc section_key (config env) with
  | None => Ok (join "," (get_table_columns db table))
  | Some tableconfig =>
      match assoc table
              (fold_left (fun d kv =>
                  if String.eqb (fst kv) table
                  then dict_set d (fst kv)
                         (normalize_columnstring db (fst kv) (snd kv))
                  else d) tableconfig []) with
      | Some columnstring => Ok columnstring
      | None => Raise KeyError
      end
  end.

Definition int_param (req : Request) (k : string) (default : Z) : res Z :=
  match empty_to_none (values_get req k) with
  | Some s => int_or_raise s
  | None => Ok default
  end.

Definition global_search (env : Env) (req : Request) : res Response :=
  dt <- new_DataTables req ;;
  match empty_to_none (values_get req "database") with
  | None => Ok (get_response dt 0 0 [] (Some MustSpecifyDatabase))
  | Some db_param =>
      match assoc (Helpers.strip_filename db_param) (all_dbs env) with
      | None => Ok (get_response dt 0 0 [] (Some (DatabaseNotFound db_param)))
      | Some db =>
          match empty_to_none (values_get req "table") with
          | None => Ok (get_response dt 0 0 [] (Some NoTableSpecified))
          | Some table =>
              if negb (table_exists db table)
              then Ok (get_response dt 0 0 []
                                    (Some (TableDoesNotExist table)))
              else
                columnstring <- get_table_config env
                                  (Helpers.strip_filename db_param) db table ;;
                let columns := split_on ","%char columnstring in
                let query := empty_to_none (values_get req "query") in
                order <- int_param req "order" (dt_order_col_index dt) ;;
                direction <- match empty_to_none (values_get req "direction") with
                             | Some s => z <- int_or_raise s ;; Ok (PInt z)
                             | None => Ok (PStr (dt_direction dt))
                             end ;;
                limit <- int_param req "length" (dt_length dt) ;;
                offset <- int_param req "start" (dt_start dt) ;;
                match search_table fts_match db table (Some columns) query
                                   order direction limit offset with
                | Ok (total_count, filtered_count, rows) =>
                    Ok (get_response dt total_count filtered_count rows None)
                | Raise _ => Ok (get_response dt 0 0 [] (Some FetchError))
                end
          end
      end
  end.

End Handlers.

End Web.

(** ** Definitions used to state the properties *)

(** The text of the [AssertionError]s; [repr] prints a row. *)
Definition message (repr : PyVal -> string) (why : Failed) : string :=
  let tbl (t : string) : string :=
    ("data.get('tables').get('" ++ t ++ "')")%string in
  (match why with
  | ResponseEmpty => "Response data is empty."
  | ResponseNotDict => "Response data is not a dict."
  | TablesMissing => "data.get('tables') does not exist."
  | TablesNotDict => "data.get('tables') is not a dict."
  | TableIsImports => tbl "imports" ++ " is not allowed."
  | TableIsFts t =>
      tbl t ++ " is not allowed because it conflicts with FTS tables."
  | PkNotString t => tbl t ++ ".get('pk') is not a string."
  | TableNotDict t => tbl t ++ " is not a dict."
  | RowsMissing t => tbl t ++ ".get('rows') is empty or does not exist."
  | RowsNotList t => tbl t ++ ".get('rows') is not a list."
  | RowNotDict t row =>
      tbl t ++ ".get('rows') contains an item that is not a dict: " ++ repr row
  | TableNotFound t => "Table " ++ t ++ " not found."
  | ColumnNotFound c => "Column " ++ c ++ " not found."
  end)%string.

Definition names (msg t : string) : Prop :=
  exists pre post, msg = (pre ++ t ++ post)%string.

(** The table set of a store with the row count of every table. *)
Definition snapshot (db : Store) : list (string * nat) :=
  map (fun e => (fst e, List.length (rows (snd e)))) db.

(** *** The validator as the specification words it

    Value present and a record; [tables] present, non-empty and a
    record of records; then for every table: the name is not reserved,
    [rows] is present, non-empty and a sequence of flat records, and
    only then [pk], if present, is a string. *)

Definition is_scalar (v : PyVal) : bool :=
  match v with
  | PList _ | PDict _ => false
  | _ => true
  end.

Definition is_flat_record (v : PyVal) : bool :=
  match v with
  | PDict d => forallb (fun kv => is_scalar (snd kv)) d
  | _ => false
  end.

Fixpoint specified_rows (table : string) (rows : list PyVal) : res unit :=
  match rows with
  | [] => Ok tt
  | row :: rows' =>
      assert (is_flat_record row) (RowNotDict table row) ;;;
      specified_rows table rows'
  end.

Definition specified_table (tables : PyDict) (table : string) : res unit :=
  let spec := dict_get tables table in
  assert (negb (String.eqb table "imports")) TableIsImports ;;;
  assert (negb (Regex.match_FTS_TABLE table)) (TableIsFts table) ;;;
  assert (truthy (get spec "rows")) (RowsMissing table) ;;;
  assert (is_list (get spec "rows")) (RowsNotList table) ;;;
  match get spec "rows" with
  | PList l => specified_rows table l
  | _ => Ok tt
  end ;;;
  match get spec "pk" with
  | PNone => Ok tt
  | v => assert (is_str v) (PkNotString table)
  end.

Fixpoint specified_tables (tables : PyDict) (l : list string) : res unit :=
  match l with
  | [] => Ok tt
  | table :: l' =>
      specified_table tables table ;;; specified_tables tables l'
  end.

Fixpoint all_records (tables : PyDict) (l : list string) : res unit :=
  match l with
  | [] => Ok tt
  | table :: l' =>
      assert (is_dict (dict_get tables table)) (TableNotDict table) ;;;
      all_records tables l'
  end.

Definition validate_as_specified (data : PyVal) : res unit :=
  assert (truthy data) ResponseEmpty ;;;
  assert (is_dict data) ResponseNotDict ;;;
  assert (truthy (get data "tables")) TablesMissing ;;;
  assert (is_dict (get data "tables")) TablesNotDict ;;;
  match get data "tables" with
  | PDict t =>
      all_records t (map fst t) ;;; specified_tables t (map fst t)
  | _ => Ok tt
  end.

(** *** Query normalisation as the specification words it

    Quoted substrings are phrases; what is left is cut into keywords at
    whitespace and punctuation, that is, into its runs of word
    characters. *)

(** [s] with every quoted substring blanked out. *)
Fixpoint unquoted (skip : nat) (s : string) : string :=
  match s with
  | EmptyString => EmptyString
  | String c s' =>
      match skip with
      | S k => unquoted k s'
      | O =>
          if is_dquote c then
            match index_of dquote s' with
            | Some n => String " "%char (unquoted (S n) s')
            | None => String c (unquoted 0 s')
            end
          else String c (unquoted 0 s')
      end
  end.

(** The maximal runs of characters satisfying [keep]; [cur] is the run
    being read, in reverse. *)
Fixpoint runs_of (keep : ascii -> bool) (cur : string) (s : string)
  : list string :=
  match s with
  | EmptyString => [cur]
  | String c s' =>
      if keep c then runs_of keep (cur ++ String c "") s'
      else cur :: runs_of keep "" s'
  end.

Definition word_runs (s : string) : list string :=
  filter nonempty (runs_of is_word "" s).

Definition normalize_as_specified (query : string) : option string :=
  let phrases := phrases_of query in
  let keywords := word_runs (unquoted 0 query) in
  match phrases ++ keywords with
  | [] => None
  | l => Some (quoted (join OR_SEP l))
  end.

(** The pieces the code cuts the remainder into: the runs between
    whitespace, each cut back to its first and last word character. *)
Fixpoint drop_nonword (s : string) : string :=
  match s with
  | EmptyString => EmptyString
  | String c s' => if is_word c then s else drop_nonword s'
  end.

Fixpoint drop_nonword_end (s : string) : string :=
  match s with
  | EmptyString => EmptyString
  | String c s' =>
      match drop_nonword_end s' with
      | EmptyString => if is_word c then String c EmptyString else EmptyString
      | r => String c r
      end
  end.

Definition trim_word (s : string) : string :=
  drop_nonword_end (drop_nonword s).

Definition not_space (c : ascii) : bool := negb (is_space c).
Definition not_dquote (c : ascii) : bool := negb (is_dquote c).

Definition space_runs (s : string) : list string :=
  runs_of not_space "" s.

(** The reserved table as [import_file] creates it: keyed by an integer
    [id], with [sha1] a text column. *)
Definition imports_ok (db : Store) : Prop :=
  match assoc imports_table_name db with
  | None => True
  | Some t =>
      pk t = Some "id" /\
      assoc "id" (columns t) = Some INTEGER /\
      assoc "sha1" (columns t) = Some TEXT
  end.

(** The messages written while the tables of one file are imported. *)
Definition table_msg (m : Msg) : Prop :=
  match m with
  | CreatedTable _ | UpdatingTable _ | InsertedRows _ _ _ => True
  | _ => False
  end.

Definition is_lock_timeout (m : Msg) : Prop :=
  match m with
  | LockTimeout _ _ => True
  | _ => False
  end.





(** The columns a search works on: the requested ones, or all columns
    of the table when none are requested. *)
Definition effective_columns (t : Table) (columns : option (list string))
  : list string :=
  match columns with
  | Some (c :: cs) => c :: cs
  | _ => column_names t
  end.

(** The query as [search_table] hands it to the full-text extension. *)
Definition effective_query (query : option string) : option string :=
  match query with
  | Some q => if nonempty q then normalize_fts_query q else None
  | None => None
  end.


Fixpoint all_chars (p : ascii -> bool) (s : string) : bool :=
  match s with
  | EmptyString => true
  | String c s' => p c && all_chars p s'
  end.

(** How a string ends, as far as runs are concerned: at its end, or at
    a whitespace character. *)
Definition run_end (rest : string) : Prop :=
  rest = "" \/ exists c rest', rest = String c rest' /\ is_space c = true.


(** *** The inputs the properties of store and search are stated for *)

(** A string of code points below 128. *)
Definition is_ascii (s : string) : bool :=
  all_chars (fun c => (nat_of_ascii c <? 128)%nat) s.

Definition is_digit (c : ascii) : bool :=
  let n := nat_of_ascii c in ((48 <=? n) && (n <=? 57))%nat.

(** The keywords of SQLite, in lower case. *)
Definition SQL_KEYWORDS : list string :=
  ["abort"; "action"; "add"; "after"; "all"; "alter"; "always"; "analyze";
   "and"; "as"; "asc"; "attach"; "autoincrement"; "before"; "begin";
   "between"; "by"; "cascade"; "case"; "cast"; "check"; "collate"; "column";
   "commit"; "conflict"; "constraint"; "create"; "cross"; "current";
   "current_date"; "current_time"; "current_timestamp"; "database";
   "default"; "deferrable"; "deferred"; "delete"; "desc"; "detach";
   "distinct"; "do"; "drop"; "each"; "else"; "end"; "escape"; "except";
   "exclude"; "exclusive"; "exists"; "explain"; "fail"; "false"; "filter";
   "first"; "following"; "for"; "foreign"; "from"; "full"; "generated";
   "glob"; "group"; "groups"; "having"; "if"; "ignore"; "immediate"; "in";
   "index"; "indexed"; "initially"; "inner"; "insert"; "instead";
   "intersect"; "into"; "is"; "isnull"; "join"; "key"; "last"; "left";
   "like"; "limit"; "match"; "materialized"; "natural"; "no"; "not";
   "nothing"; "notnull"; "null"; "nulls"; "of"; "offset"; "on"; "or";
   "order"; "others"; "outer"; "over"; "partition"; "plan"; "pragma";
   "preceding"; "primary"; "query"; "raise"; "range"; "recursive";
   "references"; "regexp"; "reindex"; "release"; "rename"; "replace";
   "restrict"; "returning"; "right"; "rollback"; "row"; "rows"; "savepoint";
   "select"; "set"; "table"; "temp"; "temporary"; "then"; "ties"; "to";
   "transaction"; "trigger"; "true"; "unbounded"; "union"; "unique";
   "update"; "using"; "vacuum"; "values"; "view"; "virtual"; "when";
   "where"; "window"; "with"; "within"; "without"].

(** A name that stands for itself when it is pasted into a statement:
    letters, digits and underscores, no digit in front, no keyword. *)
Definition plain_identifier (s : string) : bool :=
  match s with
  | EmptyString => false
  | String c s' => is_word c && negb (is_digit c) && all_chars is_word s'
  end && negb (mem (lower s) SQL_KEYWORDS).









(** ** The rest of [Helpers] *)

(** [s] holds no [c]. *)
Definition free_of (c : ascii) (s : string) : bool :=
  all_chars (fun x => negb (Ascii.eqb x c)) s.

(** [Helpers.remove_duplicates]: [list(dict.fromkeys(lst))], the first
    occurrence of every value, in order. *)
Definition remove_duplicates (lst : list string) : list string :=
  fold_left add_key lst [].

(** [Helpers.get_timestamp_from_file] *)
Definition get_timestamp_from_file (name : string) : string :=
  last (split_on "_"%char (Helpers.strip_filename name)) "".

(** [Helpers.generate_timestamp_filename]; [now] is the text of the
    [time.time()] the call reads. *)
Definition generate_timestamp_filename (now directory name ext : string)
  : string :=
  directory ++ "/" ++ name ++ "_" ++ now ++ "." ++ ext.

(** [Helpers.list_visible_files], over the names [os.listdir] gives. *)
Definition list_visible_files (listing : list string) : list string :=
  filter (fun f => negb (starts_with "." f)) listing.

(** [Helpers.sort_files_by_ostime]: [files.sort(key=os.path.getmtime)],
    a stable sort, when the list is not empty. *)
Definition sort_files_by_ostime (getmtime : string -> Z) (files : list string)
  : list string :=
  match files with
  | [] => files
  | _ => sort_by (fun a b => (getmtime a <=? getmtime b)%Z) files
  end.

(** [l[-1]]: [None] stands for [IndexError]. *)
Definition last_item (l : list string) : option string :=
  match l with
  | [] => None
  | _ => Some (last l "")
  end.

(** ** Paths and arguments: [Watchtower] *)

(** The keys of the [default] section that the modelled code reads, and
    the names of the other sections, which are the modules. *)
Record Config : Type := mkConfig {
  cache_dir : string;
  database_dir : string;
  cache_ext : string;
  database_ext : string;
  sections : list string
}.

(** [Watchtower.get_database_directory] *)
Definition get_database_directory (config : Config) : string :=
  database_dir config ++ "/".

(** [Watchtower.get_database_filepath] *)
Definition get_database_filepath (config : Config) (filename : string)
  : string :=
  database_dir config ++ "/" ++ Helpers.strip_filename filename
               ++ "." ++ database_ext config.

(** [Watchtower._get_all_modules] *)
Definition get_all_modules (config : Config) : list string := sections config.

(** [Regex.ARG_NAME = '^[a-z0-9_]*$'] *)
Definition is_arg_char (c : ascii) : bool :=
  let n := nat_of_ascii c in
  (((97 <=? n) && (n <=? 122)) || ((48 <=? n) && (n <=? 57)) || (n =? 95))%nat.

(** [re.match(Regex.ARG_NAME, name)]: [$] also matches just before a
    final newline. *)
Definition match_ARG_NAME (name : string) : bool :=
  all_chars is_arg_char name ||
  match chop_newline name with
  | Some c => all_chars is_arg_char c
  | None => false
  end.

(** [argparse.Namespace] with the attributes the commands read. *)
Record Namespace : Type := mkNamespace {
  ns_name : option string;
  ns_database : option string;
  ns_modules : option (list string);
  ns_files : option (list string);
  ns_force : bool
}.

(** What [exit] is called with. *)
Inductive SystemExit : Type :=
| InvalidName
| DatabaseFileNotFound (path : string)
| ModuleNotFound (module : string)
| CacheFileNotFound (path : string)
| DatabaseAlreadyExists (path : string).

Inductive cli (A : Type) : Type :=
| Continue (a : A)
| Stop (why : SystemExit).
Arguments Continue {A} a.
Arguments Stop {A} why.

Definition cli_bind {A B} (m : cli A) (k : A -> cli B) : cli B :=
  match m with
  | Continue a => k a
  | Stop why => Stop why
  end.

(** Truthiness of an optional string and of an optional list. *)
Definition given (v : option string) : option string :=
  match v with
  | Some s => if nonempty s then Some s else None
  | None => None
  end.

Definition given_list (v : option (list string)) : option (list string) :=
  match v with
  | Some (x :: l) => Some (x :: l)
  | _ => None
  end.

Section FileSystem.

(** [os.listdir], [os.path.getmtime] and [os.path.exists]. *)
Variable listdir : string -> list string.
Variable getmtime : string -> Z.
Variable path_exists : string -> bool.

(** [Watchtower.get_all_database_files] *)
Definition get_all_database_files (config : Config) : list string :=
  map (fun d => (database_dir config ++ "/" ++ d)%string)
      (list_visible_files (listdir (database_dir config))).

(** [Watchtower.get_most_recent_database] *)
Definition get_most_recent_database (config : Config) : option string :=
  last_item (sort_files_by_ostime getmtime (get_all_database_files config)).

(** [Watchtower._get_all_cache_files] *)
Definition get_all_cache_files (config : Config) (match_ : string)
  : list string :=
  map (fun f => (cache_dir config ++ "/" ++ f)%string)
      (filter (fun file => starts_with match_ (basename file))
              (list_visible_files (listdir (cache_dir config)))).

(** The loops of [_validate_and_normalize_args]: every module must be
    a section of the configuration; every file is looked up by its
    base name in the cache directory. *)
Fixpoint check_modules (config : Config) (modules : list string)
  : cli unit :=
  match modules with
  | [] => Continue tt
  | module :: modules' =>
      if mem module (get_all_modules config)
      then check_modules config modules'
      else Stop (ModuleNotFound module)
  end.

Fixpoint normalize_files (config : Config) (files : list string)
  : cli (list string) :=
  match files with
  | [] => Continue []
  | file :: files' =>
      let path := (cache_dir config ++ "/" ++ basename file)%string in
      if path_exists path
      then cli_bind (normalize_files config files')
                    (fun l => Continue (path :: l))
      else Stop (CacheFileNotFound path)
  end.

(** [Watchtower._validate_and_normalize_args], for a [Namespace]. *)
Definition validate_and_normalize_args (config : Config) (args : Namespace)
  : cli Namespace :=
  cli_bind (match given (ns_name args) with
            | Some name =>
                if match_ARG_NAME name then Continue tt else Stop InvalidName
            | None => Continue tt
            end) (fun _ =>
  cli_bind (match given (ns_database args) with
            | Some database =>
                let path := get_database_filepath config database in
                if path_exists path then Continue (Some path)
                else Stop (DatabaseFileNotFound path)
            | None => Continue (ns_database args)
            end) (fun database =>
  cli_bind (match given_list (ns_modules args) with
            | Some modules =>
                cli_bind (check_modules config modules)
                         (fun _ => Continue (Some (remove_duplicates modules)))
            | None => Continue (ns_modules args)
            end) (fun modules =>
  cli_bind (match given_list (ns_files args) with
            | Some files =>
                cli_bind (normalize_files config files)
                         (fun l => Continue (Some (remove_duplicates l)))
            | None => Continue (ns_files args)
            end) (fun files =>
  Continue (mkNamespace (ns_name args) database modules files
                        (ns_force args)))))).

End FileSystem.

(** ** Running modules: [Watchtower._run] *)

(** What [klass().run(args.args)] does: raise, or return a value. *)
Inductive RunOutcome : Type :=
| RunRaised
| RunReturned (output : PyVal).

(** What [import_module(module)] does: raise [ModuleNotFoundError]
    (the module file being there or not), raise [InvalidImplementation],
    raise something else, or give a module with its module classes by
    name. *)
Inductive Loaded : Type :=
| ModuleNotFoundError (file_exists : bool)
| InvalidImplementation
| ImportFailed (e : Exn)
| ModuleClasses (classes : list (string * RunOutcome)).

Inductive RunMsg : Type :=
| InvalidModuleName (module : string)
| ModuleNamedTest
| RunningModule (module : string)
| RunFailed (class module : string)
| SavedCacheFile (file : string)
| ExecutionComplete
| CacheWriteFailed (class module temp_path : string)
| NoDataReturned (class module : string)
| ModuleFileMissing (module : string)
| ModuleImportError (module : string)
| InterfaceNotImplemented (module : string)
| WriteLockTimeout (filepath : string).

(** The files written, by path, with their text. *)
Definition Files := list (string * string).

(** How far the run has read the clock and the temporary names, and
    the files it has written. *)
Record RunState : Type := mkRunState {
  time_reads : nat;
  temp_names : nat;
  written : Files
}.

Section Run.

(** [json.dumps(output, default=Helpers.json_serializer)], [None]
    standing for [TypeError]; [str(output)]; the lock marker of a
    path; the text of the [n]-th [time.time()]; the [n]-th path
    [tempfile.mkstemp()] gives. *)
Variable dumps : PyVal -> option string.
Variable py_str : PyVal -> string.
Variable lock_of : string -> Lock.
Variable time : nat -> string.
Variable mkstemp : nat -> string.
Variable import_module : string -> Loaded.

(** [Watchtower._write_file] *)
Definition write_file (files : Files) (filepath data : string)
  : Files * list RunMsg :=
  if acquire (lock_of filepath) lock_timeout
  then (dict_set files filepath data, [])
  else (files, [WriteLockTimeout filepath]).

(** The handler of [AssertionError] and [TypeError] in [_run]. *)
Definition not_saved (st : RunState) (module class : string) (output : PyVal)
  : RunState * list RunMsg :=
  if truthy output
  then
    let temp_path := mkstemp (temp_names st) in
    let '(files, log) := write_file (written st) temp_path (py_str output) in
    (mkRunState (time_reads st) (S (temp_names st)) files,
     log ++ [CacheWriteFailed class module temp_path])
  else (st, [NoDataReturned class module]).

(** The body of the loop over the classes of a module. *)
Definition run_class (config : Config) (st : RunState) (module : string)
           (entry : string * RunOutcome) : RunState * list RunMsg * res unit :=
  let class := fst entry in
  match snd entry with
  | RunRaised => (st, [RunFailed class module], Ok tt)
  | RunReturned output =>
      match validate_module_response output with
      | Ok _ =>
          let filepath :=
            generate_timestamp_filename (time (time_reads st))
              (cache_dir config) module (cache_ext config) in
          let st1 := mkRunState (S (time_reads st)) (temp_names st)
                                (written st) in
          match dumps output with
          | Some text =>
              let '(files, log) := write_file (written st1) filepath text in
              (mkRunState (time_reads st1) (temp_names st1) files,
               log ++ [SavedCacheFile (basename filepath); ExecutionComplete],
               Ok tt)
          | None =>
              let '(st2, log) := not_saved st1 module class output in
              (st2, log, Ok tt)
          end
      | Raise (AssertionError _) =>
          let '(st1, log) := not_saved st module class output in
          (st1, log, Ok tt)
      | Raise e => (st, [], Raise e)
      end
  end.

Fixpoint run_classes (config : Config) (st : RunState) (module : string)
         (classes : list (string * RunOutcome))
  : RunState * list RunMsg * res unit :=
  match classes with
  | [] => (st, [], Ok tt)
  | entry :: classes' =>
      match run_class config st module entry with
      | (st1, log1, Raise e) => (st1, log1, Raise e)
      | (st1, log1, Ok _) =>
          let '(st2, log2, r) := run_classes config st1 module classes' in
          (st2, log1 ++ log2, r)
      end
  end.

(** The body of the loop over the modules. *)
Definition run_module (config : Config) (st : RunState) (module : string)
  : RunState * list RunMsg * res unit :=
  if negb (match_ARG_NAME module) then (st, [InvalidModuleName module], Ok tt)
  else if String.eqb module "test" then (st, [ModuleNamedTest], Ok tt)
  else
    match import_module module with
    | ModuleClasses classes =>
        let '(st1, log, r) := run_classes config st module classes in
        (st1, RunningModule module :: log, r)
    | ModuleNotFoundError file_exists =>
        (st, [RunningModule module;
              if file_exists then ModuleImportError module
              else ModuleFileMissing module], Ok tt)
    | InvalidImplementation =>
        (st, [RunningModule module; InterfaceNotImplemented module], Ok tt)
    | ImportFailed e => (st, [RunningModule module], Raise e)
    end.

Fixpoint run_modules (config : Config) (st : RunState)
         (modules : list string) : RunState * list RunMsg * res unit :=
  match modules with
  | [] => (st, [], Ok tt)
  | module :: modules' =>
      match run_module config st module with
      | (st1, log1, Raise e) => (st1, log1, Raise e)
      | (st1, log1, Ok _) =>
          let '(st2, log2, r) := run_modules config st1 modules' in
          (st2, log1 ++ log2, r)
      end
  end.

(** [Watchtower._run] *)
Definition run (config : Config) (st : RunState) (args : Namespace)
  : RunState * list RunMsg * res unit :=
  run_modules config st
              (match given_list (ns_modules args) with
               | Some modules => modules
               | None => get_all_modules config
               end).

(** Why a file is among the written ones: it is the cache file of an
    output that validated, named after a module that was run, or the
    temporary file of an output that was not saved. *)
Definition saved_by_run (config : Config) (modules : list string)
           (path text : string) : Prop :=
  (exists module classes class output n,
      In module modules /\ match_ARG_NAME module = true /\ module <> "test" /\
      import_module module = ModuleClasses classes /\
      In (class, RunReturned output) classes /\
      validate_module_response output = Ok tt /\
      dumps output = Some text /\
      path = generate_timestamp_filename (time n) (cache_dir config) module
                                         (cache_ext config)) \/
  (exists output n,
      truthy output = true /\ path = mkstemp n /\ text = py_str output).

(** What one class can add to the files. *)
Definition saved_by_class (config : Config) (module : string)
           (entry : string * RunOutcome) (path text : string) : Prop :=
  exists output,
    snd entry = RunReturned output /\
    ((validate_module_response output = Ok tt /\ dumps output = Some text /\
      exists n, path = generate_timestamp_filename (time n) (cache_dir config)
                                                   module (cache_ext config)) \/
     (truthy output = true /\
      exists n, path = mkstemp n /\ text = py_str output)).

End Run.

(** ** Creating a database: [Watchtower._db_create] *)

(** The database files, by path, with the store each one holds. *)
Definition Disk := list (string * Store).

Definition remove_file (path : string) (disk : Disk) : Disk :=
  filter (fun e => negb (String.eqb (fst e) path)) disk.

Inductive CliMsg : Type :=
| DatabaseCreated (file : string).

(** The files afterwards, what was printed, and the [exit] if any. *)
Definition db_create (config : Config) (disk : Disk) (args : Namespace)
  : Disk * list CliMsg * option SystemExit :=
  let db_name := match given (ns_name args) with
                 | Some name => name
                 | None => "watchtower"
                 end in
  let db := (database_dir config ++ "/" ++ db_name ++ "."
                               ++ database_ext config)%string in
  match assoc db disk with
  | Some _ =>
      if ns_force args
      then (remove_file db disk ++ [(db, [])], [DatabaseCreated (basename db)], None)
      else (disk, [], Some (DatabaseAlreadyExists db))
  | None => (disk ++ [(db, [])], [DatabaseCreated (basename db)], None)
  end.

(** ** Table names: [Db.get_tables] *)

(** [Db.not_fts_table] *)
Definition not_fts_table (table : string) : bool :=
  if Regex.match_FTS_TABLE table then false else true.

(** The tables SQLite keeps for the full-text index of [table]. *)
Definition shadow_tables (table : string) : list string :=
  map (fun suffix => (table ++ suffix)%string)
      ["_fts"; "_fts_data"; "_fts_idx"; "_fts_docsize"; "_fts_config"].

(** [db.table_names()]: every table, followed by the tables of its
    full-text index when it has one. *)
Definition table_names (db : Store) : list string :=
  flat_map (fun e => fst e :: match fts (snd e) with
                              | Some _ => shadow_tables (fst e)
                              | None => []
                              end) db.

Definition get_tables (db : Store) (filter_fts : bool) : list string :=
  if filter_fts then filter not_fts_table (table_names db) else table_names db.

(** ** The other pages of [web.py] *)

Module WebPages.

Inductive JsonError : Type :=
| NoDatabaseSpecified
| DatabaseNotFound (db_param : string).

Inductive Download : Type :=
| Json (error : JsonError)
| SendFromDirectory (directory filename : string).

(** [database_download] *)
Definition database_download (config : Config) (req : Web.Request)
  : Download :=
  match given (Web.values_get req "database") with
  | None => Json NoDatabaseSpecified
  | Some db_param =>
      if nonempty (get_database_filepath config db_param)
      then SendFromDirectory (get_database_directory config)
                             (basename (get_database_filepath config db_param))
      else Json (DatabaseNotFound db_param)
  end.

Inductive Abort : Type :=
| AbortDatabaseNotFound (db_param : string)
| AbortNoDatabasesFound.

Inductive Rendered : Type :=
| Abort500 (why : Abort)
| RaisedValueError
| RenderTemplate (databases : list string).

(** [l.pop(l.index(x))] *)
Fixpoint remove_first (x : string) (l : list string) : list string :=
  match l with
  | [] => []
  | y :: l' => if String.eqb y x then l' else y :: remove_first x l'
  end.

Section Pages.

Variable listdir : string -> list string.
Variable getmtime : string -> Z.

(** The database a page works on: the one asked for, or the one
    modified last. *)
Definition chosen_database (config : Config) (req : Web.Request)
  : option string :=
  match Web.empty_to_none (Web.values_get req "database") with
  | Some db_param => Some (get_database_filepath config db_param)
  | None =>
      match get_all_database_files listdir config with
      | [] => None
      | all_dbs => last_item (sort_files_by_ostime getmtime all_dbs)
      end
  end.

(** [render_custom_template], as far as the [databases] argument
    of the template. *)
Definition render_custom_template (config : Config) (req : Web.Request)
  : Rendered :=
  let db_param := Web.empty_to_none (Web.values_get req "database") in
  let all_dbs := get_all_database_files listdir config in
  let missing := match db_param with
                 | Some p => Abort500 (AbortDatabaseNotFound p)
                 | None => Abort500 AbortNoDatabasesFound
                 end in
  match chosen_database config req with
  | None => missing
  | Some db_filepath =>
      if negb (nonempty db_filepath) || negb (mem db_filepath all_dbs)
      then missing
      else
        let databases := map Helpers.strip_filename all_dbs in
        let chosen := Helpers.strip_filename db_filepath in
        if mem chosen databases
        then RenderTemplate (chosen :: remove_first chosen databases)
        else RaisedValueError
  end.

End Pages.

End WebPages.

(** ** Definitions used to state the further properties *)

(** A table entry of a response that the validator lets pass: a dict
    whose [pk] is falsy or a string and whose [rows] is a non-empty
    list of dicts, under a name that is not reserved. *)
Definition acceptable_table (tables : PyDict) (name : string) : bool :=
  negb (String.eqb name "imports") &&
  negb (Regex.match_FTS_TABLE name) &&
  match dict_get tables name with
  | PDict sp =>
      (negb (truthy (dict_get sp "pk")) || is_str (dict_get sp "pk")) &&
      match dict_get sp "rows" with
      | PList (row :: rows) => forallb is_dict (row :: rows)
      | _ => false
      end
  | _ => false
  end.

(** No table that is an entry of the store carries a name of the
    full-text pattern; the tables of the full-text indexes, which are
    no entries, are the ones that do. *)
Definition plain_names (db : Store) : Prop :=
  forall n, In n (map fst db) -> Regex.match_FTS_TABLE n = false.

(** The Import Records of a store. *)
Definition import_records (db : Store) : list Row :=
  match assoc imports_table_name db with
  | Some t => rows t
  | None => []
  end.

(** Whether every requested column is a column of the table. *)
Definition columns_exist (db : Store) (table : string)
           (columns : option (list string)) : bool :=
  match columns with
  | Some cs => forallb (column_exists db table) cs
  | None => true
  end.

(** The columns [search_table] selects: the requested ones, or those of
    the table when none are requested. *)
Definition selected_columns (db : Store) (table : string)
           (columns : option (list string)) : list string :=
  match columns with
  | Some (c :: cs) => c :: cs
  | _ => get_table_columns db table
  end.

(** ** Inputs used in the examples *)

Definition good_row : PyVal := PDict [("mac", PStr "6F:30"); ("ip", PStr "10.0.0.1")].

Definition response_with_imports : PyVal :=
  PDict [("tables",
          PDict [("devices", PDict [("rows", PList [good_row]); ("pk", PStr "mac")]);
                 ("imports", PDict [("rows", PList [good_row])])])].

Definition file_with_imports : CacheFile :=
  mkCacheFile "/cache/sample_1590173358.81.json" "9b1c" (Some response_with_imports).

Definition no_json (v : PyVal) : string := "".

Definition pk_before_rows : PyVal :=
  PDict [("tables", PDict [("t", PDict [("pk", PInt 5); ("rows", PList [])])])].

Definition nested_row : PyVal :=
  PDict [("tables",
          PDict [("t", PDict [("rows",
                               PList [PDict [("a", PDict [("b", PInt 1)])]])])])].

Definition devices_v1 : PyVal :=
  PDict [("tables",
          PDict [("devices",
                  PDict [("rows", PList [PDict [("id", PInt 1);
                                               ("hostname", PStr "linux-server-1")]]);
                         ("pk", PStr "id")])])].

Definition devices_bad : PyVal :=
  PDict [("tables",
          PDict [("devices",
                  PDict [("rows", PList [PDict [("id", PStr "abc");
                                               ("hostname", PStr "linux-server-2")]]);
                         ("pk", PStr "id")])])].

Definition services_v1 : PyVal :=
  PDict [("tables",
          PDict [("services",
                  PDict [("rows", PList [PDict [("ip", PStr "10.0.0.1");
                                               ("port", PInt 22)]])])])].

Definition file_a : CacheFile :=
  mkCacheFile "/cache/devices_1590173358.81.json" "a94a8fe5" (Some devices_v1).

Definition file_bad : CacheFile :=
  mkCacheFile "/cache/devices_1590173360.02.json" "5baa61e4" (Some devices_bad).

Definition file_c : CacheFile :=
  mkCacheFile "/cache/services_1590173361.47.json" "7c4a8d09" (Some services_v1).

(** A response with a port number beyond 64 bits. *)
Definition services_big : PyVal :=
  PDict [("tables",
          PDict [("services",
                  PDict [("rows", PList [PDict [("ip", PStr "10.0.0.2");
                                               ("port", PInt (2 ^ 63))]])])])].

Definition file_big : CacheFile :=
  mkCacheFile "/cache/services_1590173362.11.json" "3da54155" (Some services_big).

Definition clock0 (i : nat) : string := "2020-05-22 18:49:18".

(** The store after [file_a] was imported into an empty database. *)
Definition store_a : Store :=
  Eval vm_compute in
    fst (fst (import_file no_json [] (clock0 0) file_a false)).



Definition devices_table_a : Table :=
  Eval vm_compute in
    match assoc "devices" store_a with
    | Some t => t
    | None => create_table [] None
    end.

(** *** [modules/sample.py] *)

Definition hex_digit (n : nat) : ascii :=
  nth n (list_ascii_of_string "0123456789abcdef") "0"%char.

(** [hex(i)[2:]], padded to two digits. *)
Definition hexstr (i : nat) : string :=
  String (hex_digit (i / 16)) (String (hex_digit (i mod 16)) "").

Definition str_of_nat (i : nat) : string := text_of_int (Z.of_nat i).

Definition get_devices : list PyVal :=
  Eval vm_compute in
  map (fun i => PDict [("mac", PStr ("6F:30:7D:44:12:" ++ hexstr i));
                       ("hostname", PStr ("linux-server-" ++ str_of_nat i));
                       ("ip", PStr ("10.0.0." ++ str_of_nat i))])
      (seq 1 50).

Definition banner (port : Z) : PyVal :=
  match assoc (text_of_int port)
              [("21", PStr "ProFTPD 1.3.6d Server");
               ("22", PStr "SSH-2.0-OpenSSH_8.2");
               ("443", PStr "Apache/2.4.43");
               ("3306", PStr "MySQL 8.0.20")] with
  | Some b => b
  | None => PNone
  end.

Definition get_services : list PyVal :=
  Eval vm_compute in
  flat_map (fun i =>
              map (fun j => PDict [("ip", PStr ("10.0.0." ++ str_of_nat i));
                                   ("port", PInt j);
                                   ("protocol", PStr "tcp");
                                   ("banner", banner j)])
                  [21; 22; 443; 3306]%Z)
           (seq 1 50).

Definition sample_response : PyVal :=
  PDict [("tables",
          PDict [("devices", PDict [("rows", PList get_devices);
                                    ("pk", PStr "mac")]);
                 ("services", PDict [("rows", PList get_services)])])].

Definition sample_file : CacheFile :=
  mkCacheFile "/cache/sample_1590173358.8195605.json" "2fd4e1c6"
              (Some sample_response).

(** The store after the sample module's cache file was imported. *)
Definition sample_store : Store :=
  Eval vm_compute in
    fst (fst (import_file no_json [] (clock0 0) sample_file false)).

Definition devices_table : Table :=
  Eval vm_compute in
    match assoc "devices" sample_store with
    | Some t => t
    | None => create_table [] None
    end.


Fixpoint is_infix (p s : string) : bool :=
  starts_with p s ||
  match s with
  | EmptyString => false
  | String _ s' => is_infix p s'
  end.

(** A stand-in for the full-text extension: a row matches when one of
    its text cells occurs in the MATCH expression. *)
Definition example_fts (table : string) (t : Table) (e : string)
  : option (Row -> bool) :=
  Some (fun r => existsb (fun kv => match snd kv with
                                    | VText s => is_infix s e
                                    | _ => false
                                    end) r).

Definition web_env : Web.Env :=
  Web.mkEnv [("watchtower", sample_store)] [].

Definition bad_order_request : Web.Request :=
  [("database", "watchtower"); ("table", "devices"); ("order", "abc")].

Definition missing_table_request : Web.Request :=
  [("database", "watchtower"); ("table", "hosts")].

Definition out_of_range_request : Web.Request :=
  [("database", "watchtower"); ("table", "devices"); ("order", "9")].

(** A [web.conf] that shows a column the table does not have. *)
Definition web_env_missing_column : Web.Env :=
  Web.mkEnv [("watchtower", sample_store)]
            [("watchtower", [("devices", "mac, owner")])].

Definition devices_request : Web.Request :=
  [("database", "watchtower"); ("table", "devices")].

(** ** Inputs used in the examples of the further properties *)

Definition example_config : Config :=
  mkConfig "/opt/watchtower/cache" "/opt/watchtower/databases" "json" "db"
           ["sample"; "port_scan"].

Definition example_listdir (path : string) : list string :=
  if String.eqb path "/opt/watchtower/cache"
  then ["sample_1590173358.81.json"; ".DS_Store";
        "port_scan_1590173360.02.json"; "sample_extra_1590173361.47.json"]
  else if String.eqb path "/opt/watchtower/databases"
  then ["watchtower.db"; ".hidden.db"; "lab.db"]
  else [].

Definition example_getmtime (path : string) : Z :=
  if String.eqb path "/opt/watchtower/databases/watchtower.db" then 1590173400
  else if String.eqb path "/opt/watchtower/databases/lab.db" then 1590173300
  else 0.

Definition example_exists (path : string) : bool :=
  mem path ["/opt/watchtower/databases/lab.db";
            "/opt/watchtower/cache/sample_1590173358.81.json";
            "/opt/watchtower/cache/port_scan_1590173360.02.json"].

Definition example_args : Namespace :=
  mkNamespace None (Some "lab.db") (Some ["sample"; "port_scan"; "sample"])
              (Some ["sample_1590173358.81.json";
                     "/tmp/sample_1590173358.81.json"])
              false.

Definition example_args_normalized : Namespace :=
  mkNamespace None (Some "/opt/watchtower/databases/lab.db")
              (Some ["sample"; "port_scan"])
              (Some ["/opt/watchtower/cache/sample_1590173358.81.json"])
              false.

Definition example_disk : Disk :=
  [("/opt/watchtower/databases/watchtower.db", store_a);
   ("/opt/watchtower/databases/lab.db", [])].

(** A response whose table entry is a list. *)
Definition table_as_list : PyVal :=
  PDict [("tables", PDict [("devices", PList [good_row])])].


Definition direction_request : Web.Request :=
  [("database", "watchtower"); ("table", "devices"); ("direction", "1")].

(** A configuration that lists the columns of [devices] only. *)
Definition web_env_devices_only : Web.Env :=
  Web.mkEnv [("watchtower", sample_store)]
            [("watchtower", [("devices", " mac , ip ")])].

Definition services_request : Web.Request :=
  [("database", "watchtower"); ("table", "services")].

(** A run of the module [sample], whose one class returns [devices_v1]. *)
Definition example_dumps (v : PyVal) : option string := Some "{...}".
Definition example_str (v : PyVal) : string := "{...}".
Definition example_lock (path : string) : Lock := Free.
Definition example_time (n : nat) : string := "1590173358.81".
Definition example_mkstemp (n : nat) : string := "/tmp/tmpk3w9x1".
Definition example_import (module : string) : Loaded :=
  if String.eqb module "sample"
  then ModuleClasses [("Sample", RunReturned devices_v1)]
  else ModuleNotFoundError false.


(** * Properties *)

(** ** Association lists *)

Lemma assoc_dict_set_same {V} (d : list (string * V)) k v :
  assoc k (dict_set d k v) = Some v.
Proof.
  induction d as [|[k' v'] d IH]; simpl.
  - now rewrite String.eqb_refl.
  - destruct (String.eqb k k') eqn:E; simpl.
    + now rewrite String.eqb_refl.
    + now rewrite E.
Qed.

Lemma assoc_dict_set_other {V} (d : list (string * V)) k k' v :
  k <> k' -> assoc k' (dict_set d k v) = assoc k' d.
Proof.
  intros Hne. induction d as [|[k0 v0] d IH]; simpl.
  - destruct (String.eqb k' k) eqn:E; [|reflexivity].
    apply String.eqb_eq in E. congruence.
  - destruct (String.eqb k k0) eqn:E; simpl.
    + apply String.eqb_eq in E. subst k0.
      destruct (String.eqb k' k) eqn:E'; [|reflexivity].
      apply String.eqb_eq in E'. congruence.
    + now rewrite IH.
Qed.

Lemma mem_In k l : mem k l = true <-> In k l.
Proof.
  unfold mem. rewrite existsb_exists. split.
  - intros (x & Hx & E). apply String.eqb_eq in E. now subst.
  - intros H. exists k. split; [assumption|apply String.eqb_refl].
Qed.

(** ** The validator *)

(** The loop stops at the first table that fails. *)
Lemma validate_tables_first_failure tables before name after e :
  (forall b, In b before -> validate_table tables b = Ok tt) ->
  validate_table tables name = Raise e ->
  validate_tables tables (before ++ name :: after) = Raise e.
Proof.
  intros Hb Hn. induction before as [|b before IH]; simpl.
  - now rewrite Hn.
  - rewrite (Hb b (or_introl eq_refl)). simpl. apply IH.
    intros b' Hb'. apply Hb. now right.
Qed.

Lemma validate_tables_ok tables l :
  validate_tables tables l = Ok tt <->
  forall t, In t l -> validate_table tables t = Ok tt.
Proof.
  induction l as [|t l IH]; simpl.
  - split; [tauto|reflexivity].
  - destruct (validate_table tables t) as [[]|e] eqn:E; simpl.
    + rewrite IH. split.
      * intros H t' [<-|H']; auto.
      * intros H t' H'. apply H. now right.
    + split; [discriminate|].
      intros H. specialize (H t (or_introl eq_refl)). congruence.
Qed.

Lemma validate_rows_first_failure table ok row rest :
  forallb is_dict ok = true -> is_dict row = false ->
  validate_rows table (ok ++ row :: rest)
  = Raise (AssertionError (RowNotDict table row)).
Proof.
  intros Hok Hrow. induction ok as [|r ok IH]; simpl in *.
  - now rewrite Hrow.
  - apply andb_prop in Hok as [-> Hok]. simpl. auto.
Qed.

Lemma validate_rows_ok table l :
  forallb is_dict l = true -> validate_rows table l = Ok tt.
Proof.
  induction l as [|r l IH]; simpl; [reflexivity|].
  intros H. apply andb_prop in H as [-> H]. simpl. auto.
Qed.

(** A table named [imports] stops the validator, whatever else the
    response holds. *)
Lemma validate_tables_imports tables l :
  In "imports" l -> validate_tables tables l <> Ok tt.
Proof.
  intros Hin H. rewrite validate_tables_ok in H.
  specialize (H _ Hin). discriminate.
Qed.

Lemma validate_imports_rejected dd t :
  dict_get dd "tables" = PDict t -> In "imports" (map fst t) ->
  validate_module_response (PDict dd) <> Ok tt.
Proof.
  intros Ht Hin. unfold validate_module_response. simpl. rewrite Ht.
  destruct dd as [|kv dd]; simpl; [discriminate|].
  destruct t as [|e t]; simpl; [discriminate|].
  apply (validate_tables_imports (e :: t) (map fst (e :: t))). exact Hin.
Qed.

(** What [import_file] does with a response the validator stops. *)
Lemma import_file_invalid json_dumps db now f force d :
  data f = Some d -> validate_module_response d <> Ok tt ->
  fst (fst (import_file json_dumps db now f force)) = db.
Proof.
  intros Hd Hv. unfold import_file. rewrite Hd.
  destruct (validate_module_response d) as [[]|e]; [congruence|].
  destruct e; reflexivity.
Qed.

Lemma append_assoc (a b c : string) :
  ((a ++ b) ++ c = a ++ b ++ c)%string.
Proof. induction a as [|x a IH]; simpl; [reflexivity|now rewrite IH]. Qed.

Lemma names_tbl (t rest : string) :
  names (("data.get('tables').get('" ++ t ++ "')") ++ rest)%string t.
Proof.
  exists "data.get('tables').get('", ("')" ++ rest)%string.
  now rewrite !append_assoc.
Qed.

Lemma validate_rows_names repr table l why :
  validate_rows table l = Raise (AssertionError why) ->
  names (message repr why) table.
Proof.
  induction l as [|r l IH]; simpl; [discriminate|].
  destruct (is_dict r); simpl; [exact IH|].
  intros [= <-]. apply names_tbl.
Qed.

Lemma validate_table_names repr tables t why :
  validate_table tables t = Raise (AssertionError why) ->
  names (message repr why) t.
Proof.
  unfold validate_table.
  destruct (String.eqb t "imports") eqn:E1; simpl.
  { apply String.eqb_eq in E1. subst t. intros [= <-]. apply names_tbl. }
  destruct (Regex.match_FTS_TABLE t) eqn:E2; simpl.
  { intros [= <-]. apply names_tbl. }
  destruct (dict_get tables t) as [| | | | | | |sp]; simpl; try discriminate.
  assert (Hrows : (assert (truthy (dict_get sp "rows")) (RowsMissing t) ;;;
                   assert (is_list (dict_get sp "rows")) (RowsNotList t) ;;;
                   match dict_get sp "rows" with
                   | PList l => validate_rows t l
                   | _ => Ok tt
                   end)%res = Raise (AssertionError why) ->
                  names (message repr why) t).
  { destruct (truthy (dict_get sp "rows")); simpl.
    2:{ intros [= <-]. apply names_tbl. }
    destruct (dict_get sp "rows") as [| | | | | |l|]; simpl;
      try (intros [= <-]; apply names_tbl).
    apply validate_rows_names. }
  destruct (truthy (dict_get sp "pk")); simpl; [|exact Hrows].
  destruct (is_str (dict_get sp "pk")); simpl; [exact Hrows|].
  intros [= <-]. apply names_tbl.
Qed.

Lemma validate_module_response_unfold d :
  validate_module_response d =
  if negb (truthy d) then Raise (AssertionError ResponseEmpty)
  else match d with
       | PDict dd =>
           if negb (truthy (dict_get dd "tables"))
           then Raise (AssertionError TablesMissing)
           else match dict_get dd "tables" with
                | PDict t => validate_tables t (map fst t)
                | _ => Raise (AssertionError TablesNotDict)
                end
       | _ => Raise (AssertionError ResponseNotDict)
       end.
Proof.
  unfold validate_module_response.
  destruct (truthy d) eqn:Ed; simpl; [|reflexivity].
  destruct d; simpl; try reflexivity.
  destruct (truthy (dict_get d "tables")) eqn:Et; simpl; [|reflexivity].
  destruct (dict_get d "tables"); reflexivity.
Qed.

Lemma validate_table_unfold tables name sp :
  dict_get tables name = PDict sp ->
  validate_table tables name =
  if String.eqb name "imports" then Raise (AssertionError TableIsImports)
  else if Regex.match_FTS_TABLE name
  then Raise (AssertionError (TableIsFts name))
  else if truthy (dict_get sp "pk") && negb (is_str (dict_get sp "pk"))
  then Raise (AssertionError (PkNotString name))
  else if negb (truthy (dict_get sp "rows"))
  then Raise (AssertionError (RowsMissing name))
  else match dict_get sp "rows" with
       | PList l => validate_rows name l
       | _ => Raise (AssertionError (RowsNotList name))
       end.
Proof.
  intros Hsp. unfold validate_table. rewrite Hsp.
  destruct (String.eqb name "imports"); simpl; [reflexivity|].
  destruct (Regex.match_FTS_TABLE name); simpl; [reflexivity|].
  destruct (truthy (dict_get sp "pk")); simpl.
  - destruct (is_str (dict_get sp "pk")); simpl; [|reflexivity].
    destruct (truthy (dict_get sp "rows")); simpl; [|reflexivity].
    destruct (dict_get sp "rows"); reflexivity.
  - destruct (truthy (dict_get sp "rows")); simpl; [|reflexivity].
    destruct (dict_get sp "rows"); reflexivity.
Qed.

(** C7 (amended).  The validator checks, in this order and stopping at
    the first failure: the response is truthy; it is a dict; [tables]
    is truthy; [tables] is a dict; then for every table, in the order of
    the dict: the name is not [imports]; the name does not match the
    full-text shadow-table pattern; [pk], if truthy, is a string (before
    anything is asked of [rows]); [rows] is truthy; [rows] is a list;
    every row is a dict (the values of a row are not looked at).  The
    message of a failure found in a table contains the name of that
    table.  A response with a table named [imports] never passes, and
    [import_file] returns the store it was given for such a file. *)
Theorem validate_module_response_order :
  (forall d,
      validate_module_response d =
      if negb (truthy d) then Raise (AssertionError ResponseEmpty)
      else match d with
           | PDict dd =>
               if negb (truthy (dict_get dd "tables"))
               then Raise (AssertionError TablesMissing)
               else match dict_get dd "tables" with
                    | PDict t => validate_tables t (map fst t)
                    | _ => Raise (AssertionError TablesNotDict)
                    end
           | _ => Raise (AssertionError ResponseNotDict)
           end) /\
  (forall tables before name after e,
      (forall b, In b before -> validate_table tables b = Ok tt) ->
      validate_table tables name = Raise e ->
      validate_tables tables (before ++ name :: after) = Raise e) /\
  (forall tables l,
      (forall t, In t l -> validate_table tables t = Ok tt) ->
      validate_tables tables l = Ok tt) /\
  (forall tables name sp,
      dict_get tables name = PDict sp ->
      validate_table tables name =
      if String.eqb name "imports" then Raise (AssertionError TableIsImports)
      else if Regex.match_FTS_TABLE name
      then Raise (AssertionError (TableIsFts name))
      else if truthy (dict_get sp "pk") && negb (is_str (dict_get sp "pk"))
      then Raise (AssertionError (PkNotString name))
      else if negb (truthy (dict_get sp "rows"))
      then Raise (AssertionError (RowsMissing name))
      else match dict_get sp "rows" with
           | PList l => validate_rows name l
           | _ => Raise (AssertionError (RowsNotList name))
           end) /\
  (forall name ok row rest,
      forallb is_dict ok = true -> is_dict row = false ->
      validate_rows name (ok ++ row :: rest)
      = Raise (AssertionError (RowNotDict name row))) /\
  (forall name l, forallb is_dict l = true -> validate_rows name l = Ok tt) /\
  (forall repr tables name why,
      validate_table tables name = Raise (AssertionError why) ->
      names (message repr why) name) /\
  (forall json_dumps db now f force dd t,
      data f = Some (PDict dd) ->
      dict_get dd "tables" = PDict t ->
      In "imports" (map fst t) ->
      validate_module_response (PDict dd) <> Ok tt /\
      fst (fst (import_file json_dumps db now f force)) = db).
Proof.
  split; [exact validate_module_response_unfold|].
  split; [exact validate_tables_first_failure|].
  split; [intros tables l H; now apply validate_tables_ok|].
  split; [exact validate_table_unfold|].
  split; [exact validate_rows_first_failure|].
  split; [exact validate_rows_ok|].
  split; [exact validate_table_names|].
  intros jd db now f force dd t Hd Ht Hin.
  pose proof (validate_imports_rejected dd t Ht Hin) as Hv.
  split; [exact Hv|].
  now apply import_file_invalid with (d := PDict dd).
Qed.

(** The checks, run on small responses. *)
Lemma validate_module_response_order_witness :
  validate_tables
    [("devices", PDict [("rows", PList [good_row]); ("pk", PStr "mac")]);
     ("imports", PDict [("rows", PList [good_row])])]
    (["devices"] ++ "imports" :: [])
  = Raise (AssertionError TableIsImports) /\
  validate_tables [("t", PDict [("rows", PList [good_row])])] ["t"] = Ok tt /\
  validate_table [("t", PDict [("pk", PInt 5); ("rows", PList [])])] "t"
  = Raise (AssertionError (PkNotString "t")) /\
  validate_rows "t" ([good_row] ++ PInt 3 :: [good_row])
  = Raise (AssertionError (RowNotDict "t" (PInt 3))) /\
  validate_rows "t" [good_row; good_row] = Ok tt /\
  names (message no_json (PkNotString "t")) "t" /\
  (validate_module_response response_with_imports <> Ok tt /\
   fst (fst (import_file no_json [] "2020-05-22 18:49:18" file_with_imports false))
   = []).
Proof.
  destruct validate_module_response_order
    as (_ & Hfirst & Hall & Htable & Hrow & Hrows & Hname & Himports).
  split.
  { apply Hfirst.
    - intros b [<-|[]]. reflexivity.
    - reflexivity. }
  split.
  { apply Hall. intros t [<-|[]]. reflexivity. }
  split.
  { rewrite (Htable _ "t" [("pk", PInt 5); ("rows", PList [])]); reflexivity. }
  split.
  { apply Hrow; reflexivity. }
  split.
  { apply Hrows. reflexivity. }
  split.
  { apply (Hname no_json [("t", PDict [("pk", PInt 5); ("rows", PList [])])]).
    reflexivity. }
  apply (Himports no_json [] "2020-05-22 18:49:18" file_with_imports false
                  [("tables",
                    PDict [("devices", PDict [("rows", PList [good_row]);
                                              ("pk", PStr "mac")]);
                           ("imports", PDict [("rows", PList [good_row])])])]
                  [("devices", PDict [("rows", PList [good_row]); ("pk", PStr "mac")]);
                   ("imports", PDict [("rows", PList [good_row])])]).
  - vm_compute; reflexivity.
  - vm_compute; reflexivity.
  - simpl. auto.
Defined.

(** C7, as stated, fails: with a [pk] that is no string next to empty
    [rows], the order of the claim reports the rows and the code reports
    the key; and a row that is not flat passes the code. *)
Lemma validate_order_counterexample :
  validate_as_specified pk_before_rows = Raise (AssertionError (RowsMissing "t")) /\
  validate_module_response pk_before_rows
  = Raise (AssertionError (PkNotString "t")) /\
  validate_as_specified nested_row <> Ok tt /\
  validate_module_response nested_row = Ok tt.
Proof.
  repeat split; try reflexivity. discriminate.
Qed.

(** ** The import engine *)

Lemma assoc_app_l {V} (d d' : list (string * V)) k v :
  assoc k d = Some v -> assoc k (d ++ d') = Some v.
Proof.
  induction d as [|[k' v'] d IH]; simpl; [discriminate|].
  destruct (String.eqb k k'); auto.
Qed.

Lemma insert_or_replace_raises t r e :
  insert_or_replace t r = Raise e -> e = IntegrityError.
Proof.
  unfold insert_or_replace.
  destruct (pk t) as [k|]; [|discriminate].
  destruct (assoc k (columns t)) as [[]|]; destruct (row_get r k);
    try discriminate; now intros [= <-].
Qed.

Lemma insert_rows_raises rs : forall t e,
  insert_rows t rs = Raise e -> e = IntegrityError.
Proof.
  induction rs as [|r rs IH]; simpl; intros t e; [discriminate|].
  destruct (insert_or_replace t r) as [t'|e'] eqn:E; simpl.
  - apply IH.
  - intros [= <-]. eapply insert_or_replace_raises; eauto.
Qed.

Section ImportFacts.

Variable json_dumps : PyVal -> string.

Lemma insert_all_raises t records t' e :
  insert_all json_dumps t records = (t', Raise e) ->
  e = IntegrityError \/ e = OverflowError.
Proof.
  unfold insert_all.
  destruct (existsb overflows records); [intros [= _ <-]; now right|].
  destruct (insert_rows _ _) as [t2|e'] eqn:E; [discriminate|].
  intros [= _ <-]. left. eapply insert_rows_raises; eauto.
Qed.

Lemma import_table_spec db import_id tables table_name :
  exists t log r,
    import_table json_dumps db import_id tables table_name
    = (dict_set db table_name t, log, r) /\
    Forall table_msg log /\
    (forall e, r = Raise e -> e = IntegrityError \/ e = OverflowError).
Proof.
  unfold import_table.
  destruct (assoc table_name db) as [t0|];
    (destruct (insert_all json_dumps _ _) as [t [[]|e]] eqn:E;
     [ eexists _, _, _; split; [reflexivity|]; split;
       [ repeat constructor | discriminate ]
     | eexists _, _, _; split; [reflexivity|]; split;
       [ repeat constructor
       | intros e' [= <-]; eapply insert_all_raises; eauto ] ]).
Qed.

Lemma import_table_other db import_id tables table_name k :
  table_name <> k ->
  assoc k (fst (fst (import_table json_dumps db import_id tables table_name)))
  = assoc k db.
Proof.
  intros Hne.
  destruct (import_table_spec db import_id tables table_name)
    as (t & log & r & -> & _). simpl.
  now apply assoc_dict_set_other.
Qed.

Lemma import_tables_spec tables import_id names : forall db,
  let out := import_tables json_dumps db import_id tables names in
  Forall table_msg (snd (fst out)) /\
  (forall tn e, snd out = Some (tn, e) ->
                e = IntegrityError \/ e = OverflowError) /\
  (forall k, ~ In k names -> assoc k (fst (fst out)) = assoc k db).
Proof.
  induction names as [|n names IH]; intros db; simpl.
  - repeat split; [constructor|discriminate].
  - pose proof (import_table_spec db import_id tables n)
      as (t & log & r & E & Hlog & Hr).
    pose proof (import_table_other db import_id tables n) as Hother.
    rewrite E in *. simpl in Hother.
    destruct r as [[]|e].
    + specialize (IH (dict_set db n t)).
      destruct (import_tables json_dumps (dict_set db n t) import_id tables names)
        as [[db2 log2] r2]. simpl in *.
      destruct IH as (IH1 & IH2 & IH3).
      split; [apply Forall_app; auto|].
      split; [exact IH2|].
      intros k Hk. rewrite IH3 by tauto. apply Hother. tauto.
    + simpl. split; [assumption|].
      split.
      * intros tn e' [= _ <-]. now apply Hr.
      * intros k Hk. apply Hother. tauto.
Qed.

Lemma validate_raises d e :
  validate_module_response d = Raise e ->
  e = AttributeError \/ exists why, e = AssertionError why.
Proof.
  assert (Hrows : forall t l, validate_rows t l = Raise e ->
                              exists why, e = AssertionError why).
  { intros t l. induction l as [|r l IH]; simpl; [discriminate|].
    destruct (is_dict r); simpl; [exact IH|]. intros [= <-]. eauto. }
  assert (Htable : forall tables t, validate_table tables t = Raise e ->
            e = AttributeError \/ exists why, e = AssertionError why).
  { intros tables t. unfold validate_table.
    destruct (String.eqb t "imports"); simpl; [intros [= <-]; eauto|].
    destruct (Regex.match_FTS_TABLE t); simpl; [intros [= <-]; eauto|].
    destruct (dict_get tables t) as [| | | | | | |sp]; simpl;
      try (intros [= <-]; now left).
    assert (Hr : (assert (truthy (dict_get sp "rows")) (RowsMissing t) ;;;
                 assert (is_list (dict_get sp "rows")) (RowsNotList t) ;;;
                 match dict_get sp "rows" with
                 | PList l => validate_rows t l
                 | _ => Ok tt
                 end)%res = Raise e ->
                 e = AttributeError \/ exists why, e = AssertionError why).
    { destruct (truthy (dict_get sp "rows")); simpl; [|intros [= <-]; eauto].
      destruct (dict_get sp "rows"); simpl;
        try (intros [= <-]; eauto); try discriminate.
      intros H. right. eapply Hrows; eauto. }
    destruct (truthy (dict_get sp "pk")); simpl; [|exact Hr].
    destruct (is_str (dict_get sp "pk")); simpl; [exact Hr|].
    intros [= <-]; eauto. }
  rewrite validate_module_response_unfold.
  destruct (truthy d); simpl; [|intros [= <-]; eauto].
  destruct d; try (intros [= <-]; eauto).
  destruct (truthy (dict_get d "tables")); simpl; [|intros [= <-]; eauto].
  destruct (dict_get d "tables") as [| | | | | | |t];
    try (intros [= <-]; eauto).
  generalize (map fst t) as l.
  induction l as [|n l IH]; simpl; [discriminate|].
  destruct (validate_table t n) as [[]|e'] eqn:E; simpl; [exact IH|].
  intros [= <-]. eapply Htable; eauto.
Qed.

End ImportFacts.

Section ImportRecord.

Variable json_dumps : PyVal -> string.

Lemma row_get_to_row t record c ty :
  assoc c (columns t) = Some ty ->
  row_get (to_row json_dumps t record) c
  = store_value ty (adapt json_dumps (dict_get record c)).
Proof.
  unfold row_get, to_row. induction (columns t) as [|[c' ty'] l IH]; simpl.
  - discriminate.
  - destruct (String.eqb c c') eqn:E.
    + apply String.eqb_eq in E. subst c'. now intros [= ->].
    + exact IH.
Qed.

(** The import record goes in as a new row, under the next id. *)
Lemma insert_import_row_spec db now f t :
  assoc imports_table_name db = Some t ->
  pk t = Some "id" ->
  assoc "id" (columns t) = Some INTEGER ->
  assoc "sha1" (columns t) = Some TEXT ->
  exists t' record,
    insert_import_row json_dumps db (import_row now f)
    = (dict_set db imports_table_name t', next_rowid "id" (rows t)) /\
    rows t' = rows t ++ [record] /\
    row_get record "sha1" = VText (sha1 f) /\
    pk t' = Some "id" /\
    assoc "id" (columns t') = Some INTEGER /\
    assoc "sha1" (columns t') = Some TEXT.
Proof.
  intros Ht Hpk Hid Hsha.
  unfold insert_import_row. rewrite Ht.
  unfold insert_all.
  change (existsb overflows [import_row now f]) with false. cbv iota.
  set (t1 := add_missing_columns t [import_row now f]).
  assert (Hid1 : assoc "id" (columns t1) = Some INTEGER)
    by (apply assoc_app_l; exact Hid).
  assert (Hsha1 : assoc "sha1" (columns t1) = Some TEXT)
    by (apply assoc_app_l; exact Hsha).
  simpl map. simpl insert_rows. unfold insert_or_replace.
  replace (pk t1) with (Some "id") by (symmetry; exact Hpk).
  rewrite Hid1.
  rewrite (row_get_to_row t1 _ "id" INTEGER Hid1).
  simpl.
  eexists _, _. split; [reflexivity|]. simpl.
  split; [reflexivity|].
  split.
  { unfold row_get. rewrite assoc_dict_set_other by discriminate.
    fold (row_get (to_row json_dumps t1 (import_row now f)) "sha1").
    rewrite (row_get_to_row t1 _ "sha1" TEXT Hsha1). reflexivity. }
  auto.
Qed.

Lemma ensure_imports_table_spec db now f :
  imports_ok db ->
  rows_where_sha1 db (sha1 f) = [] ->
  let db1 := fst (ensure_imports_table db (import_row now f)) in
  exists t,
    assoc imports_table_name db1 = Some t /\
    pk t = Some "id" /\
    assoc "id" (columns t) = Some INTEGER /\
    assoc "sha1" (columns t) = Some TEXT /\
    filter (sha1_eqb (sha1 f)) (rows t) = [] /\
    (forall k, k <> imports_table_name -> assoc k db1 = assoc k db).
Proof.
  unfold imports_ok, ensure_imports_table, rows_where_sha1.
  destruct (assoc imports_table_name db) as [t|] eqn:E; simpl.
  - intros (H1 & H2 & H3) Hrows. exists t. rewrite E. repeat split; auto.
  - intros _ _. eexists. rewrite assoc_dict_set_same.
    split; [reflexivity|]. repeat split.
    intros k Hk. apply assoc_dict_set_other. congruence.
Qed.

Lemma validated_keys d :
  validate_module_response d = Ok tt ->
  ~ In imports_table_name (keys (get d "tables")).
Proof.
  intros Hv Hin. destruct d as [| | | | | | |dd]; simpl in Hin; try tauto.
  destruct (dict_get dd "tables") as [| | | | | | |t] eqn:Et;
    simpl in Hin; try tauto.
  now apply (validate_imports_rejected dd t Et Hin).
Qed.

(** The import of a file that validates ends without an exception,
    or with the [OverflowError] of an integer beyond 64 bits. *)
Lemma import_file_returns db now f force d :
  data f = Some d -> validate_module_response d = Ok tt ->
  snd (import_file json_dumps db now f force) = Ok tt \/
  snd (import_file json_dumps db now f force) = Raise OverflowError.
Proof.
  intros Hd Hv. unfold import_file. rewrite Hd, Hv.
  destruct (ensure_imports_table db (import_row now f)) as [db1 log1].
  destruct (_ && _); [now left|].
  destruct (insert_import_row json_dumps db1 (import_row now f)) as [db2 id].
  pose proof (import_tables_spec json_dumps (get d "tables") id
                (keys (get d "tables")) db2) as (_ & Hr & _).
  destruct (import_tables json_dumps db2 id (get d "tables") (keys (get d "tables")))
    as [[db3 log3] [[tn e]|]]; [|now left].
  simpl in Hr. destruct (Hr tn e eq_refl) as [-> | ->]; simpl; auto.
Qed.

(** The first import of a file leaves exactly one record with its
    hash, whether or not a table of the file trips a constraint. *)
Lemma import_file_records db now f force d :
  data f = Some d -> validate_module_response d = Ok tt ->
  imports_ok db ->
  rows_where_sha1 db (sha1 f) = [] ->
  let db' := fst (fst (import_file json_dumps db now f force)) in
  List.length (rows_where_sha1 db' (sha1 f)) = 1 /\ imports_ok db'.
Proof.
  intros Hd Hv Hok Hnone.
  pose proof (ensure_imports_table_spec db now f Hok Hnone)
    as (t & Ht & Hpk & Hid & Hsha & Hfil & _).
  unfold import_file. rewrite Hd, Hv.
  destruct (ensure_imports_table db (import_row now f)) as [db1 log1].
  simpl in Ht.
  assert (Hn : rows_where_sha1 db1 (sha1 f) = []).
  { unfold rows_where_sha1. now rewrite Ht. }
  rewrite Hn. simpl.
  destruct (insert_import_row_spec db1 now f t Ht Hpk Hid Hsha)
    as (t' & record & -> & Hrows & Hrec & Hpk' & Hid' & Hsha').
  pose proof (import_tables_spec json_dumps (get d "tables")
                (next_rowid "id" (rows t)) (keys (get d "tables"))
                (dict_set db1 imports_table_name t')) as (_ & _ & Hkeep).
  specialize (Hkeep imports_table_name (validated_keys d Hv)).
  rewrite assoc_dict_set_same in Hkeep.
  assert (Hgoal : forall db3,
             assoc imports_table_name db3 = Some t' ->
             List.length (rows_where_sha1 db3 (sha1 f)) = 1 /\ imports_ok db3).
  { intros db3 H3. unfold rows_where_sha1, imports_ok. rewrite H3.
    split; [|auto].
    rewrite Hrows, filter_app, Hfil. simpl.
    unfold sha1_eqb. rewrite Hrec. simpl. now rewrite String.eqb_refl. }
  destruct (import_tables json_dumps _ _ _ _) as [[db3 log3] [[tn e]|]];
    simpl in Hkeep.
  - destruct e; simpl; now apply Hgoal.
  - simpl. now apply Hgoal.
Qed.

(** With a record of the same hash in the store and no [force], the
    file is skipped and the store is the one given. *)
Lemma import_file_skips db now f d :
  data f = Some d -> validate_module_response d = Ok tt ->
  rows_where_sha1 db (sha1 f) <> [] ->
  import_file json_dumps db now f false
  = (db, [AlreadyImported (basename (filepath f))], Ok tt).
Proof.
  intros Hd Hv Hsome. unfold import_file. rewrite Hd, Hv.
  unfold ensure_imports_table.
  destruct (assoc imports_table_name db) as [t|] eqn:E.
  - destruct (rows_where_sha1 db (sha1 f)); [congruence|]. reflexivity.
  - unfold rows_where_sha1 in Hsome. rewrite E in Hsome. congruence.
Qed.

End ImportRecord.

(** C2.  Importing a cache file a second time without [force] changes
    nothing: the first import of the file (one that validates, into a
    store that holds no record of its content hash) leaves one Import
    Record with that hash, however the import of its tables ends; the
    second import finds the record, reports the file as already
    imported and returns the store as it was, so the record count
    stays 1 and every table keeps its rows. *)
Theorem import_twice_is_noop :
  forall json_dumps (db : Store) (now1 now2 : string) (f : CacheFile) (d : PyVal),
    data f = Some d ->
    validate_module_response d = Ok tt ->
    imports_ok db ->
    rows_where_sha1 db (sha1 f) = [] ->
    let first := import_file json_dumps db now1 f false in
    let db1 := fst (fst first) in
    let second := import_file json_dumps db1 now2 f false in
    List.length (rows_where_sha1 db1 (sha1 f)) = 1 /\
    second = (db1, [AlreadyImported (basename (filepath f))], Ok tt) /\
    List.length (rows_where_sha1 (fst (fst second)) (sha1 f)) = 1 /\
    snapshot (fst (fst second)) = snapshot db1.
Proof.
  intros jd db now1 now2 f d Hd Hv Hok Hnone first db1 second.
  pose proof (import_file_records jd db now1 f false d Hd Hv Hok Hnone)
    as [Hone _].
  fold first in Hone. fold db1 in Hone.
  assert (Hskip : second
                  = (db1, [AlreadyImported (basename (filepath f))], Ok tt)).
  { apply import_file_skips with (d := d); auto.
    intros Hnil. rewrite Hnil in Hone. discriminate. }
  split; [exact Hone|].
  split; [exact Hskip|].
  rewrite Hskip. split; [exact Hone|reflexivity].
Qed.

Section Batch.

Variable json_dumps : PyVal -> string.

Lemma table_msg_not_timeout m : table_msg m -> ~ is_lock_timeout m.
Proof. destruct m; simpl; tauto. Qed.

(** An exception that leaves [import_file] is the validator's
    [AttributeError], raised before anything is touched, or the
    [OverflowError] of the store; a constraint violation never leaves
    it, and a file whose import raises is not reported as failed. *)
Lemma import_file_raise db now f force e :
  snd (import_file json_dumps db now f force) = Raise e ->
  (e = AttributeError \/ e = OverflowError) /\
  (forall p t, ~ In (CacheImportFailed p t)
                    (snd (fst (import_file json_dumps db now f force)))).
Proof.
  unfold import_file.
  destruct (data f) as [d|]; [|discriminate].
  destruct (validate_module_response d) as [[]|e'] eqn:Hv.
  - assert (H1 : forall p t,
               ~ In (CacheImportFailed p t)
                    (snd (ensure_imports_table db (import_row now f)))).
    { intros p t. unfold ensure_imports_table.
      destruct (assoc imports_table_name db); simpl; [tauto|].
      intros [H|[]]; discriminate. }
    destruct (ensure_imports_table db (import_row now f)) as [db1 log1].
    simpl in H1.
    destruct (_ && _); [discriminate|].
    destruct (insert_import_row json_dumps db1 (import_row now f)) as [db2 id].
    pose proof (import_tables_spec json_dumps (get d "tables") id
                  (keys (get d "tables")) db2) as (Hl & Hr & _).
    destruct (import_tables json_dumps db2 id (get d "tables")
                            (keys (get d "tables")))
      as [[db3 log3] [[tn e0]|]]; [|discriminate].
    simpl in Hr, Hl.
    destruct (Hr tn e0 eq_refl) as [-> | ->]; simpl; [discriminate|].
    intros [= <-]. split; [now right|].
    intros p t Hin. apply in_app_or in Hin as [Hin|Hin].
    + exact (H1 p t Hin).
    + rewrite Forall_forall in Hl. exact (Hl _ Hin).
  - destruct (validate_raises d e' Hv) as [->|[why ->]]; simpl.
    + intros [= <-]. split; [now left|]. intros p t [].
    + discriminate.
Qed.

Lemma import_file_log db now f force :
  Forall (fun m => ~ is_lock_timeout m)
         (snd (fst (import_file json_dumps db now f force))).
Proof.
  unfold import_file.
  destruct (data f) as [d|]; [|repeat constructor; simpl; tauto].
  destruct (validate_module_response d) as [[]|e'].
  2:{ destruct e'; repeat constructor; simpl; tauto. }
  assert (H1 : Forall (fun m => ~ is_lock_timeout m)
                      (snd (ensure_imports_table db (import_row now f)))).
  { unfold ensure_imports_table.
    destruct (assoc imports_table_name db); repeat constructor; simpl; tauto. }
  destruct (ensure_imports_table db (import_row now f)) as [db1 log1].
  simpl in H1.
  destruct (_ && _).
  { simpl. apply Forall_app. split; [assumption|].
    repeat constructor; simpl; tauto. }
  destruct (insert_import_row json_dumps db1 (import_row now f)) as [db2 id].
  pose proof (import_tables_spec json_dumps (get d "tables") id
                (keys (get d "tables")) db2) as (Hl & _ & _).
  destruct (import_tables json_dumps db2 id (get d "tables")
                          (keys (get d "tables")))
    as [[db3 log3] r]. simpl in Hl.
  assert (H3 : Forall (fun m => ~ is_lock_timeout m) log3).
  { eapply Forall_impl; [|exact Hl]. apply table_msg_not_timeout. }
  destruct r as [[tn []]|]; simpl;
    repeat (apply Forall_app; split); auto;
    repeat constructor; simpl; tauto.
Qed.

Lemma import_files_log clock force fs : forall db i,
  Forall (fun m => ~ is_lock_timeout m)
         (snd (fst (import_files json_dumps db clock i fs force))).
Proof.
  induction fs as [|f fs IH]; intros db i; simpl; [constructor|].
  pose proof (import_file_log db (clock i) f force) as Hf.
  destruct (import_file json_dumps db (clock i) f force) as [[db1 log1] [[]|e]];
    simpl in *.
  - specialize (IH db1 (S i)).
    destruct (import_files json_dumps db1 clock (S i) fs force)
      as [[db2 log2] r]. simpl in *.
    constructor; [simpl; tauto|]. apply Forall_app. auto.
  - constructor; [simpl; tauto|assumption].
Qed.

(** The loop hands on an exception only as [import_file] raised it. *)
Lemma import_files_raise clock force fs : forall db i e,
  snd (import_files json_dumps db clock i fs force) = Raise e ->
  e = AttributeError \/ e = OverflowError.
Proof.
  induction fs as [|f fs IH]; intros db i e; simpl; [discriminate|].
  pose proof (import_file_raise db (clock i) f force) as Hf.
  destruct (import_file json_dumps db (clock i) f force) as [[db1 log1] [[]|e']];
    simpl in *.
  - specialize (IH db1 (S i) e).
    destruct (import_files json_dumps db1 clock (S i) fs force)
      as [[db2 log2] r]. simpl in *. exact IH.
  - intros [= <-]. now destruct (Hf e' eq_refl).
Qed.

End Batch.

(** C1 (amended).  A constraint violation stops the import of the file
    it occurs in and nothing else: it never leaves [import_file] as an
    exception; the file is reported as failed and the loop goes on with
    the files after it, starting from the staged copy as that file left
    it; and with the lock held, the staged copy replaces the durable
    store when the loop ends.  The durable store is kept as it was when
    an exception does escape an import, whichever it is: the
    [AttributeError] of the validator and the [OverflowError] of an
    integer beyond 64 bits do, a constraint violation does not. *)
Theorem constraint_violation_skips_one_file :
  forall json_dumps (durable : Store) (lock : Lock) (clock : nat -> string)
         (target : string) (fs : list CacheFile) (force : bool),
    fs <> [] ->
    acquire lock lock_timeout = true ->
    (forall db now f,
        snd (import_file json_dumps db now f force) <> Raise IntegrityError) /\
    (forall db i f fs' t,
        In (CacheImportFailed (filepath f) t)
           (snd (fst (import_file json_dumps db (clock i) f force))) ->
        let temp1 := fst (fst (import_file json_dumps db (clock i) f force)) in
        let rest := import_files json_dumps temp1 clock (S i) fs' force in
        let all := import_files json_dumps db clock i (f :: fs') force in
        snd (import_file json_dumps db (clock i) f force) = Ok tt /\
        fst (fst all) = fst (fst rest) /\ snd all = snd rest) /\
    (forall temp log,
        import_files json_dumps durable clock 0 fs force = (temp, log, Ok tt) ->
        cache_import json_dumps durable lock clock (mkArgs (Some target) fs force)
        = (temp, log ++ [CommittingChanges; ImportComplete], Returned)) /\
    (forall temp log e,
        import_files json_dumps durable clock 0 fs force = (temp, log, Raise e) ->
        e <> IntegrityError /\
        cache_import json_dumps durable lock clock (mkArgs (Some target) fs force)
        = (durable, log, Raised e)).
Proof.
  intros jd durable lock clock target fs force Hfs Hlock.
  split.
  { intros db now f H. apply import_file_raise in H as [[H|H] _];
      discriminate. }
  split.
  { intros db i f fs' t Hin temp1 rest all.
    assert (Hok : snd (import_file jd db (clock i) f force) = Ok tt).
    { destruct (snd (import_file jd db (clock i) f force)) as [[]|e] eqn:E;
        [reflexivity|].
      apply import_file_raise in E as [_ E]. destruct (E _ _ Hin). }
    split; [exact Hok|].
    subst all rest temp1. simpl.
    destruct (import_file jd db (clock i) f force) as [[db1 log1] r].
    simpl in Hok. subst r. simpl.
    destruct (import_files jd db1 clock (S i) fs' force) as [[db2 log2] r2].
    auto. }
  split.
  { intros temp log H. unfold cache_import. simpl.
    destruct fs as [|f fs]; [congruence|].
    rewrite Hlock, H. reflexivity. }
  intros temp log e H.
  split.
  { destruct (import_files_raise jd clock force fs durable 0 e) as [-> | ->];
      [now rewrite H|discriminate|discriminate]. }
  unfold cache_import. simpl.
  destruct fs as [|f fs]; [congruence|].
  rewrite Hlock, H. reflexivity.
Qed.

(** C6.  When the write lock on the target is not acquired within the
    timeout of 60, the import reports exactly the lock-timeout message
    and returns the durable store it found; no run in which the lock was
    acquired ever reports that message. *)
Theorem lock_timeout_leaves_store :
  forall json_dumps (durable : Store) (lock : Lock) (clock : nat -> string)
         (target : string) (fs : list CacheFile) (force : bool),
    fs <> [] ->
    acquire lock lock_timeout = false ->
    lock_timeout = 60 /\
    cache_import json_dumps durable lock clock (mkArgs (Some target) fs force)
    = (durable, [LockTimeout target 60], Returned) /\
    (forall lock' durable' clock' args' out log ending,
        cache_import json_dumps durable' lock' clock' args' = (out, log, ending) ->
        Exists is_lock_timeout log ->
        acquire lock' lock_timeout = false /\ out = durable').
Proof.
  intros jd durable lock clock target fs frc Hfs Hlock.
  split; [reflexivity|].
  split.
  { unfold cache_import. simpl. destruct fs as [|f fs]; [congruence|].
    now rewrite Hlock. }
  intros lock' durable' clock' args' out log ending.
  unfold cache_import.
  destruct (database args') as [tdb|].
  2:{ intros [= <- <- <-] H. inversion H. }
  destruct (files args') as [|f' fs'] eqn:Ef.
  { intros [= <- <- <-] H. inversion H. }
  destruct (acquire lock' lock_timeout).
  2:{ intros [= <- <- <-] _. auto. }
  pose proof (import_files_log jd clock' (force args') (f' :: fs') durable' 0)
    as Hlog.
  destruct (import_files jd durable' clock' 0 (f' :: fs') (force args'))
    as [[temp log0] [[]|e]]; simpl in Hlog.
  - intros [= <- <- <-] H. exfalso.
    apply Exists_app in H as [H|H].
    + rewrite Forall_forall in Hlog. apply Exists_exists in H as (m & Hm & Hm').
      exact (Hlog m Hm Hm').
    + inversion H as [? ? H1|? ? H1]; subst; [exact H1|].
      inversion H1 as [? ? H2|? ? H2]; subst; [exact H2|inversion H2].
  - intros [= <- <- <-] H. exfalso.
    rewrite Forall_forall in Hlog. apply Exists_exists in H as (m & Hm & Hm').
    exact (Hlog m Hm Hm').
Qed.

(** A batch whose first file trips a constraint is committed; a batch
    whose second file holds an integer beyond 64 bits ends with
    [OverflowError] and leaves the durable store as it was. *)
Lemma constraint_violation_skips_one_file_witness :
  cache_import no_json store_a Free clock0
               (mkArgs (Some "/db/watchtower.db") [file_bad; file_c] false)
  = (fst (fst (import_files no_json store_a clock0 0 [file_bad; file_c] false)),
     snd (fst (import_files no_json store_a clock0 0 [file_bad; file_c] false))
     ++ [CommittingChanges; ImportComplete],
     Returned) /\
  cache_import no_json store_a Free clock0
               (mkArgs (Some "/db/watchtower.db") [file_c; file_big] false)
  = (store_a,
     snd (fst (import_files no_json store_a clock0 0 [file_c; file_big] false)),
     Raised OverflowError).
Proof.
  split.
  - destruct (constraint_violation_skips_one_file
                no_json store_a Free clock0 "/db/watchtower.db"
                [file_bad; file_c] false) as (_ & _ & Hcommit & _).
    + discriminate.
    + vm_compute; reflexivity.
    + apply Hcommit. vm_compute. reflexivity.
  - destruct (constraint_violation_skips_one_file
                no_json store_a Free clock0 "/db/watchtower.db"
                [file_c; file_big] false) as (_ & _ & _ & Hraise).
    + discriminate.
    + vm_compute; reflexivity.
    + assert (Hr : snd (import_files no_json store_a clock0 0
                                     [file_c; file_big] false)
                   = Raise OverflowError) by (vm_compute; reflexivity).
      destruct (import_files no_json store_a clock0 0 [file_c; file_big] false)
        as [[temp log] r] eqn:E.
      simpl in Hr. subst r. simpl.
      now destruct (Hraise temp log OverflowError eq_refl).
Defined.

(** C1, as stated, fails: [file_bad] trips a constraint of [devices]
    (text in an integer key), yet the batch is not aborted; the durable
    store gains the Import Records of both files and the table of the
    second. *)
Lemma batch_not_atomic_counterexample :
  let out := cache_import no_json store_a Free clock0
               (mkArgs (Some "/db/watchtower.db") [file_bad; file_c] false) in
  In (CacheImportFailed (filepath file_bad) "devices") (snd (fst out)) /\
  snd out = Returned /\
  snapshot store_a = [("imports", 1); ("devices", 1)] /\
  snapshot (fst (fst out)) = [("imports", 3); ("devices", 1); ("services", 1)].
Proof.
  vm_compute. repeat split; auto 10.
Qed.

(** One cache file, imported twice into an empty store. *)
Lemma import_twice_is_noop_witness :
  let first := import_file no_json [] "2020-05-22 18:49:18" file_a false in
  let db1 := fst (fst first) in
  let second := import_file no_json db1 "2020-05-23 07:00:00" file_a false in
  List.length (rows_where_sha1 db1 (sha1 file_a)) = 1 /\
  second = (db1, [AlreadyImported (basename (filepath file_a))], Ok tt) /\
  List.length (rows_where_sha1 (fst (fst second)) (sha1 file_a)) = 1 /\
  snapshot (fst (fst second)) = snapshot db1.
Proof.
  apply (import_twice_is_noop no_json [] "2020-05-22 18:49:18"
                              "2020-05-23 07:00:00" file_a devices_v1).
  - vm_compute; reflexivity.
  - vm_compute; reflexivity.
  - exact I.
  - vm_compute; reflexivity.
Defined.

(** The lock of the store is held by a process that never lets go. *)
Lemma lock_timeout_leaves_store_witness :
  lock_timeout = 60 /\
  cache_import no_json store_a (Held None) clock0
               (mkArgs (Some "/db/watchtower.db") [file_c] false)
  = (store_a, [LockTimeout "/db/watchtower.db" 60], Returned).
Proof.
  destruct (lock_timeout_leaves_store no_json store_a (Held None) clock0
              "/db/watchtower.db" [file_c] false) as (H60 & Hbusy & _).
  - discriminate.
  - vm_compute; reflexivity.
  - exact (conj H60 Hbusy).
Defined.

(** ** Upsert and append *)

















Lemma next_rowid_above k rs : forall r z,
  In r rs -> row_get r k = VInt z -> (z < next_rowid k rs)%Z.
Proof.
  unfold next_rowid.
  assert (H : forall rs m r z,
             In r rs -> row_get r k = VInt z ->
             (z <= fold_left (fun m r => match row_get r k with
                                         | VInt z => Z.max m z
                                         | _ => m
                                         end) rs m)%Z /\
             (m <= fold_left (fun m r => match row_get r k with
                                         | VInt z => Z.max m z
                                         | _ => m
                                         end) rs m)%Z).
  { clear. induction rs as [|x rs IH]; intros m r z Hin Hz; [destruct Hin|].
    simpl. destruct Hin as [->|Hin].
    - rewrite Hz.
      assert (Hm : forall m0, (m0 <= fold_left
                 (fun m r => match row_get r k with
                             | VInt z => Z.max m z
                             | _ => m
                             end) rs m0)%Z).
      { clear. induction rs as [|y rs IH]; intros m0; simpl; [lia|].
        destruct (row_get y k); try apply IH.
        specialize (IH (Z.max m0 z)). lia. }
      pose proof (Hm (Z.max m z)). lia.
    - destruct (IH (match row_get x k with
                    | VInt z0 => Z.max m z0
                    | _ => m
                    end) r z Hin Hz) as [H1 H2].
      split; [exact H1|]. destruct (row_get x k); lia. }
  intros r z Hin Hz. destruct (H rs 0%Z r z Hin Hz). lia.
Qed.


Lemma row_get_dict_set (r : Row) k v : row_get (dict_set r k v) k = v.
Proof. unfold row_get. now rewrite assoc_dict_set_same. Qed.








(** ** The search engine *)



Section SortFacts.
Variable A : Type.
Variable leb : A -> A -> bool.
Hypothesis leb_total : forall a b, leb a b = true \/ leb b a = true.

Lemma insert_sorted_perm x l : Permutation (x :: l) (insert_sorted leb x l).
Proof.
  induction l as [|y l IH]; simpl; [constructor; constructor|].
  destruct (leb x y); [apply Permutation_refl|].
  eapply perm_trans; [apply perm_swap|]. now constructor.
Qed.

Lemma sort_by_perm l : Permutation l (sort_by leb l).
Proof.
  induction l as [|x l IH]; simpl; [constructor|].
  eapply perm_trans; [|apply insert_sorted_perm]. now constructor.
Qed.

Lemma insert_sorted_sorted x l :
  Sorted (fun a b => leb a b = true) l ->
  Sorted (fun a b => leb a b = true) (insert_sorted leb x l).
Proof.
  induction l as [|y l IH]; simpl; intros Hs.
  - repeat constructor.
  - destruct (leb x y) eqn:E.
    + constructor; [assumption|]. now constructor.
    + apply Sorted_inv in Hs as [Hs Hhd].
      constructor; [auto|].
      destruct l as [|z l]; simpl.
      * constructor. destruct (leb_total x y); congruence.
      * destruct (leb x z).
        -- constructor. destruct (leb_total x y); congruence.
        -- constructor. now apply HdRel_inv in Hhd.
Qed.

Lemma sort_by_sorted l : Sorted (fun a b => leb a b = true) (sort_by leb l).
Proof.
  induction l as [|x l IH]; simpl; [constructor|].
  now apply insert_sorted_sorted.
Qed.

Lemma sort_by_length l : List.length (sort_by leb l) = List.length l.
Proof. symmetry. apply Permutation_length, sort_by_perm. Qed.


End SortFacts.






Section SearchFacts.

Variable fts_match : string -> Table -> string -> option (Row -> bool).

Lemma assert_columns_ok db table t cols :
  assoc table db = Some t ->
  forallb (fun c => mem c (column_names t)) cols = true ->
  assert_columns db table cols = Ok tt.
Proof.
  intros Ht. induction cols as [|c cols IH]; simpl; [reflexivity|].
  intros H. apply andb_prop in H as [Hc H].
  unfold column_exists. rewrite Ht, Hc. simpl. auto.
Qed.


(** What a search returns when its statement is one SQLite accepts. *)
Lemma search_table_returns db table t columns query order direction dir
      limit offset rs :
  let cols := effective_columns t columns in
  assoc table db = Some t ->
  forallb (fun c => mem c (column_names t)) cols = true ->
  parse_direction direction = Ok dir ->
  in_range order cols = true ->
  (limit = 0%Z -> offset = 0%Z) ->
  rows_matching fts_match db table
    (option_map (match_expression cols) (effective_query query)) = Ok rs ->
  search_table fts_match db table columns query order direction limit offset
  = Ok (List.length (rows t), List.length rs,
        map (project cols)
            (page (clause limit) (clause offset)
                  (order_rows cols order dir rs))).
Proof.
  intros cols Ht Hcols Hdir Hrange Hpage Hrs.
  assert (Hsel : execute_select fts_match db
                   (mkSelect cols table
                      (option_map (match_expression cols) (effective_query query))
                      order dir (clause limit) (clause offset))
                 = Ok (map (project cols)
                           (page (clause limit) (clause offset)
                                 (order_rows cols order dir rs)))).
  { unfold execute_select. cbn [sel_limit sel_offset sel_from sel_match
                                 sel_columns sel_order sel_direction].
    rewrite Hrs. cbn [bind]. rewrite Ht, Hcols, Hrange. cbn [negb].
    unfold clause. destruct (Z.eqb limit 0) eqn:El; [|reflexivity].
    apply Z.eqb_eq in El. rewrite (Hpage El). reflexivity. }
  assert (Hcount : match option_map (match_expression cols)
                                    (effective_query query) with
                   | Some m => execute_count fts_match db table m
                   | None => Ok (get_table_count db table)
                   end = Ok (List.length rs)).
  { unfold execute_count, get_table_count.
    destruct (effective_query query) as [nq|]; cbn [option_map] in *.
    - now rewrite Hrs.
    - unfold rows_matching in Hrs. rewrite Ht in *. now injection Hrs as <-. }
  assert (Hc : match columns with
               | Some (c :: cs) =>
                   (assert_columns db table (c :: cs) ;;; Ok (c :: cs))%res
               | _ => Ok (get_table_columns db table)
               end = Ok cols).
  { subst cols. unfold effective_columns in *. unfold get_table_columns.
    rewrite Ht.
    destruct columns as [[|c cs]|]; try reflexivity.
    now rewrite (assert_columns_ok db table t (c :: cs) Ht Hcols). }
  unfold search_table.
  replace (table_exists db table) with true
    by (unfold table_exists; now rewrite Ht).
  cbn [assert bind]. rewrite Hc. cbn [bind]. rewrite Hdir. cbn [bind].
  fold (effective_query query). rewrite Hcount. cbn [bind].
  rewrite Hsel. cbn [bind].
  unfold get_table_count. now rewrite Ht.
Qed.

End SearchFacts.













(** Limit 0 where it works.  With limit 0 and offset 0 the statement
    carries no LIMIT and no OFFSET clause and every row that passes the
    filter is returned; with offset 0 and a limit other than 0 there is
    no OFFSET clause and the rows are cut by the limit alone. *)
Lemma limit_zero_is_unlimited :
  forall (fts_match : string -> Table -> string -> option (Row -> bool))
         (db : Store) (table : string) (t : Table)
         (columns : option (list string)) (query : option string) (order : Z)
         (direction : PyVal) (dir : SortDir) (limit : Z) (selected : list Row),
    let cols := effective_columns t columns in
    assoc table db = Some t ->
    forallb (fun c => mem c (column_names t)) cols = true ->
    parse_direction direction = Ok dir ->
    in_range order cols = true ->
    rows_matching fts_match db table
      (option_map (match_expression cols) (effective_query query))
    = Ok selected ->
    clause 0 = None /\
    search_table fts_match db table columns query order direction limit 0
    = Ok (List.length (rows t), List.length selected,
          map (project cols)
              (if Z.eqb limit 0 then order_rows cols order dir selected
               else page (Some limit) None
                         (order_rows cols order dir selected))) /\
    (limit = 0%Z ->
     exists returned,
       search_table fts_match db table columns query order direction 0 0
       = Ok (List.length (rows t), List.length selected, returned) /\
       List.length returned = List.length selected).
Proof.
  intros fts db table t columns query order direction dir limit selected cols
         Ht Hcols Hdir Hrange Hsel.
  split; [reflexivity|].
  assert (H : search_table fts db table columns query order direction limit 0
              = Ok (List.length (rows t), List.length selected,
                    map (project cols)
                        (if Z.eqb limit 0
                         then order_rows cols order dir selected
                         else page (Some limit) None
                                   (order_rows cols order dir selected)))).
  { rewrite (search_table_returns fts db table t columns query order direction
               dir limit 0 selected Ht Hcols Hdir Hrange (fun _ => eq_refl) Hsel).
    fold cols. unfold clause. simpl.
    destruct (Z.eqb limit 0); reflexivity. }
  split; [exact H|].
  intros ->. eexists. split; [exact H|].
  simpl. rewrite length_map. unfold order_rows. apply sort_by_length.
Qed.

(** Limit 0 and offset 0: the one matching device comes back. *)
Lemma limit_zero_is_unlimited_witness :
  search_table example_fts sample_store "devices" (Some ["ip"])
               (Some (quoted "10.0.0.5")) 1 (PStr "ASC") 0 0
  = Ok (50, 1, [[("ip", VText "10.0.0.5")]]).
Proof.
  destruct (limit_zero_is_unlimited example_fts sample_store "devices"
              devices_table (Some ["ip"]) (Some (quoted "10.0.0.5")) 1
              (PStr "ASC") ASC 0
              (filter (fun r => existsb (fun kv => match snd kv with
                                            | VText s =>
                                                is_infix s
                                                  (match_expression ["ip"]
                                                     (quoted "10.0.0.5"))
                                            | _ => false
                                            end) r) (rows devices_table)))
    as (_ & H & _).
  - vm_compute; reflexivity.
  - vm_compute; reflexivity.
  - vm_compute; reflexivity.
  - vm_compute; reflexivity.
  - vm_compute; reflexivity.
  - rewrite H. vm_compute. reflexivity.
Defined.

(** C10, at a call the code answers with an exception.  Limit 0 is
    meant as no limit, and with offset 0 it is; with limit 0 and an
    offset other than 0 the statement is left with an OFFSET clause and
    no LIMIT clause, which SQLite rejects: on the 50 devices of the
    sample store, limit 0 and offset 1 return no row at all, for every
    full-text extension and whether or not there is a query. *)
Theorem limit_zero_with_offset_raises :
  forall (fts_match : string -> Table -> string -> option (Row -> bool)),
    get_table_count sample_store "devices" = 50 /\
    search_table fts_match sample_store "devices" None None 1 (PStr "ASC") 0 1
    = Raise OperationalError /\
    search_table example_fts sample_store "devices" None
                 (Some (quoted "10.0.0.5")) 1 (PStr "ASC") 0 1
    = Raise OperationalError.
Proof.
  intros fts. repeat split; vm_compute; reflexivity.
Qed.

(** ** The web layer *)

Section WebFacts.

Variable fts_match : string -> Table -> string -> option (Row -> bool).

(** Whatever [search_table] raises is answered with the zero-count
    response that carries an error. *)
Lemma get_response_error dt total filtered rows e :
  let r := Web.get_response dt total filtered rows (Some e) in
  Web.recordsTotal r = 0 /\ Web.recordsFiltered r = 0 /\
  Web.data r = [] /\ Web.error r = Some e.
Proof. repeat split. Qed.

(** A table that does not exist is answered that way. *)
Lemma global_search_missing_table env req dt db_param db table :
  Web.new_DataTables req = Ok dt ->
  Web.empty_to_none (Web.values_get req "database") = Some db_param ->
  assoc (Helpers.strip_filename db_param) (Web.all_dbs env) = Some db ->
  Web.empty_to_none (Web.values_get req "table") = Some table ->
  table_exists db table = false ->
  Web.global_search fts_match env req
  = Ok (Web.mkResponse (Web.dt_draw dt) 0 0 []
                       (Some (Web.TableDoesNotExist table))).
Proof.
  intros Hdt Hdb Hlookup Htable Hex.
  unfold Web.global_search. rewrite Hdt. simpl.
  rewrite Hdb, Hlookup, Htable, Hex. reflexivity.
Qed.

End WebFacts.

(** C8, at a request the code answers with an exception.  For a request
    that names an existing database and table and carries an [order]
    that is no integer literal, [int(order)] raises [ValueError] before
    the [try] around [search_table] is entered: the handler ends with
    that exception and builds no response. *)
Theorem malformed_order_raises :
  forall (fts_match : string -> Table -> string -> option (Row -> bool))
         (env : Web.Env) (req : Web.Request) (dt : Web.DataTables)
         (db_param : string) (db : Store) (table columnstring order : string),
    Web.new_DataTables req = Ok dt ->
    Web.empty_to_none (Web.values_get req "database") = Some db_param ->
    assoc (Helpers.strip_filename db_param) (Web.all_dbs env) = Some db ->
    Web.empty_to_none (Web.values_get req "table") = Some table ->
    table_exists db table = true ->
    Web.get_table_config env (Helpers.strip_filename db_param) db table
    = Ok columnstring ->
    Web.empty_to_none (Web.values_get req "order") = Some order ->
    py_int order = None ->
    Web.global_search fts_match env req = Raise ValueError.
Proof.
  intros fts env req dt db_param db table columnstring order
         Hdt Hdb Hlookup Htable Hex Hcfg Horder Hint.
  unfold Web.global_search. rewrite Hdt. simpl.
  rewrite Hdb, Hlookup, Htable, Hex. simpl. rewrite Hcfg. simpl.
  unfold Web.int_param at 1. rewrite Horder.
  unfold int_or_raise. rewrite Hint. reflexivity.
Qed.

(** The request [order=abc] for the devices of the sample store. *)
Lemma malformed_order_raises_witness :
  Web.global_search example_fts web_env bad_order_request = Raise ValueError.
Proof.
  apply (malformed_order_raises example_fts web_env bad_order_request
           (Web.mkDataTables 10 0 1 1 "ASC") "watchtower" sample_store
           "devices" "mac,hostname,ip,import_id" "abc").
  - vm_compute; reflexivity.
  - vm_compute; reflexivity.
  - vm_compute; reflexivity.
  - vm_compute; reflexivity.
  - vm_compute; reflexivity.
  - vm_compute; reflexivity.
  - vm_compute; reflexivity.
  - vm_compute; reflexivity.
Defined.

(** The failures the handler does answer: a table that is missing, a
    column that is missing, and an order index outside the columns. *)
Example global_search_answers_failures :
  Web.global_search example_fts web_env missing_table_request
  = Ok (Web.mkResponse 1 0 0 [] (Some (Web.TableDoesNotExist "hosts"))) /\
  Web.global_search example_fts web_env_missing_column devices_request
  = Ok (Web.mkResponse 1 0 0 [] (Some Web.FetchError)) /\
  Web.global_search example_fts web_env out_of_range_request
  = Ok (Web.mkResponse 1 0 0 [] (Some Web.FetchError)).
Proof.
  repeat split; vm_compute; reflexivity.
Qed.

(** ** Query normalisation *)

Lemma append_nil_r (s : string) : (s ++ "")%string = s.
Proof. induction s as [|c s IH]; simpl; [reflexivity|now rewrite IH]. Qed.

Lemma length_append (a b : string) :
  String.length (a ++ b) = String.length a + String.length b.
Proof. induction a as [|c a IH]; simpl; [reflexivity|now rewrite IH]. Qed.

Lemma take_append (a b : string) : take (String.length a) (a ++ b) = a.
Proof. induction a as [|c a IH]; simpl; [now destruct b|now rewrite IH]. Qed.

Lemma space_not_word c : is_space c = true -> is_word c = false.
Proof.
  unfold is_space, is_word. generalize (nat_of_ascii c). intros n H.
  apply orb_prop in H as [H|H]; apply andb_prop in H as [H1 H2];
    apply Nat.leb_le in H1, H2;
    repeat (apply orb_false_intro);
    try (apply andb_false_intro1; apply Nat.leb_gt; lia);
    try (apply Nat.eqb_neq; lia).
Qed.

(** The greedy match inside one run: it reaches the last word
    character of the run, if there is one. *)
Lemma last_boundary_run r : forall prev rest,
  all_chars not_space r = true -> run_end rest ->
  last_boundary prev (r ++ rest)
  = match drop_nonword_end r with
    | EmptyString => if prev then Some 0 else None
    | m => Some (String.length m)
    end.
Proof.
  induction r as [|c r IH]; intros prev rest Hr Hrest; simpl.
  - destruct Hrest as [->|(c & rest' & -> & Hc)]; simpl; [reflexivity|].
    now rewrite Hc.
  - simpl in Hr. apply andb_prop in Hr as [Hc Hr].
    unfold not_space in Hc. apply negb_true_iff in Hc. rewrite Hc.
    rewrite (IH (is_word c) rest Hr Hrest).
    destruct (drop_nonword_end r) as [|c' m]; simpl.
    + destruct (is_word c); simpl; [reflexivity|].
      now rewrite xorb_false_r.
    + reflexivity.
Qed.

Lemma drop_nonword_end_prefix r :
  exists x, r = (drop_nonword_end r ++ x)%string /\
            all_chars (fun c => negb (is_word c)) x = true.
Proof.
  induction r as [|c r (x & IH & Hx)]; simpl.
  - exists "". auto.
  - destruct (drop_nonword_end r) as [|c' m] eqn:E.
    + destruct (is_word c) eqn:Ec.
      * exists x. simpl in IH. simpl. split; [congruence|assumption].
      * exists (String c x). simpl in IH. simpl. rewrite Ec. simpl.
        split; [congruence|assumption].
    + exists x. simpl. simpl in IH. split; [congruence|assumption].
Qed.

Lemma drop_nonword_end_last r c m :
  drop_nonword_end r = String c m ->
  exists m' w, String c m = (m' ++ String w "")%string /\ is_word w = true.
Proof.
  revert c m. induction r as [|a r IH]; simpl; intros c m; [discriminate|].
  destruct (drop_nonword_end r) as [|c' m0] eqn:E.
  - destruct (is_word a) eqn:Ea; [|discriminate].
    intros [= <- <-]. exists "", a. auto.
  - intros [= <- <-].
    destruct (IH c' m0 eq_refl) as (m' & w & -> & Hw).
    exists (String a m'), w. auto.
Qed.

Lemma all_chars_append p a b :
  all_chars p (a ++ b) = all_chars p a && all_chars p b.
Proof.
  induction a as [|c a IH]; simpl; [reflexivity|].
  now rewrite IH, andb_assoc.
Qed.

(** Skipping the characters of a match. *)
Lemma findall_bounded_skip m : forall prev w rest,
  findall_bounded prev (String.length (m ++ String w "")) (m ++ String w rest)
  = findall_bounded (is_word w) 0 rest.
Proof.
  induction m as [|c m IH]; intros prev w rest; simpl.
  - reflexivity.
  - apply IH.
Qed.

(** After the last word character of a run nothing but empty matches
    are found up to the end of the run. *)
Lemma findall_bounded_junk x : forall prev rest,
  all_chars (fun c => negb (is_word c)) x = true ->
  all_chars not_space x = true ->
  run_end rest ->
  filter nonempty (findall_bounded prev 0 (x ++ rest))
  = filter nonempty (findall_bounded prev 0 rest).
Proof.
  induction x as [|c x IH]; intros prev rest Hw Hs Hrest; [reflexivity|].
  simpl in Hw, Hs.
  apply andb_prop in Hw as [Hc Hw]. apply andb_prop in Hs as [Hcs Hs].
  apply negb_true_iff in Hc.
  assert (Hlb : last_boundary prev (String c x ++ rest)
                = if prev then Some 0 else None).
  { rewrite (last_boundary_run (String c x) prev rest); auto.
    - destruct (drop_nonword_end_prefix (String c x)) as (y & Hy & _).
      destruct (drop_nonword_end (String c x)) as [|c' m] eqn:E; [reflexivity|].
      exfalso.
      destruct (drop_nonword_end_last _ _ _ E) as (m' & w & Em & Hw').
      assert (Hall : all_chars (fun c => negb (is_word c)) (String c x) = true)
        by (simpl; now rewrite Hc, Hw).
      rewrite Hy, Em in Hall. rewrite !all_chars_append in Hall. simpl in Hall.
      rewrite Hw' in Hall. simpl in Hall.
      rewrite andb_false_r in Hall. discriminate.
    - simpl. now rewrite Hcs, Hs. }
  change (String c x ++ rest)%string with (String c (x ++ rest)) in *.
  cbn [findall_bounded]. rewrite Hlb. cbn [boundary]. rewrite Hc, xorb_false_r.
  destruct prev; cbn [take Nat.sub filter nonempty String.eqb negb].
  - rewrite (IH false rest Hw Hs Hrest).
    destruct Hrest as [->|(c0 & rest' & -> & Hc0)].
    + reflexivity.
    + cbn [findall_bounded boundary last_boundary]. rewrite Hc0.
      rewrite (space_not_word c0 Hc0).
      cbn [xorb take Nat.sub filter nonempty String.eqb negb].
      reflexivity.
  - apply (IH false rest Hw Hs Hrest).
Qed.

Lemma findall_bounded_run_end prev rest :
  run_end rest ->
  filter nonempty (findall_bounded prev 0 rest)
  = filter nonempty (findall_bounded false 0 rest).
Proof.
  intros [->|(c & rest' & -> & Hc)]; destruct prev; try reflexivity.
  cbn [findall_bounded boundary last_boundary]. rewrite Hc.
  rewrite (space_not_word c Hc).
  cbn [xorb take Nat.sub filter nonempty String.eqb negb]. reflexivity.
Qed.

Lemma drop_nonword_end_head c r :
  is_word c = true ->
  exists m0, drop_nonword_end (String c r) = String c m0.
Proof.
  intros Hc. simpl. destruct (drop_nonword_end r); rewrite ?Hc; eauto.
Qed.

(** One run of the remainder yields one keyword: the run cut back to
    its first and last word character, if it has any. *)
Lemma findall_bounded_run r : forall rest,
  all_chars not_space r = true -> run_end rest ->
  filter nonempty (findall_bounded false 0 (r ++ rest))
  = filter nonempty [trim_word r]
    ++ filter nonempty (findall_bounded false 0 rest).
Proof.
  induction r as [|c r IH]; intros rest Hr Hrest; [reflexivity|].
  pose proof Hr as Hr0.
  simpl in Hr. apply andb_prop in Hr as [Hc Hr].
  destruct (is_word c) eqn:Ew.
  - destruct (drop_nonword_end_head c r Ew) as (m0 & Em).
    destruct (drop_nonword_end_prefix (String c r)) as (x & Ex & Hx).
    rewrite Em in Ex.
    assert (Hxs : all_chars not_space x = true).
    { rewrite Ex in Hr0. rewrite all_chars_append in Hr0.
      now apply andb_prop in Hr0 as [_ H]. }
    assert (Htrim : trim_word (String c r) = String c m0).
    { unfold trim_word. cbn [drop_nonword]. now rewrite Ew. }
    rewrite Htrim. cbn [filter nonempty String.eqb negb app].
    pose proof (last_boundary_run (String c r) false rest Hr0 Hrest) as Hlb.
    rewrite Em in Hlb.
    change (String c r ++ rest)%string with (String c (r ++ rest)) in *.
    cbn [findall_bounded]. rewrite Hlb. cbn [boundary]. rewrite Ew.
    cbn [xorb String.length Nat.sub].
    assert (Hr' : (r ++ rest)%string = (m0 ++ x ++ rest)%string).
    { injection Ex as Ex. rewrite Ex. apply append_assoc. }
    assert (Htake : take (S (String.length m0)) (String c (r ++ rest))
                    = String c m0).
    { cbn [take]. rewrite Hr'. now rewrite take_append. }
    rewrite Htake. cbn [filter nonempty String.eqb negb].
    f_equal. rewrite Nat.sub_0_r, Hr'.
    destruct (drop_nonword_end_last _ _ _ Em) as (m' & w & Elast & Hw).
    destruct m' as [|c' m'].
    + simpl in Elast. injection Elast as _ Hm0. subst m0. simpl.
      rewrite (findall_bounded_junk x true rest Hx Hxs Hrest).
      now apply findall_bounded_run_end.
    + simpl in Elast. injection Elast as _ Hm0. subst m0.
      rewrite append_assoc. simpl append.
      rewrite findall_bounded_skip. rewrite Hw.
      rewrite (findall_bounded_junk x true rest Hx Hxs Hrest).
      now apply findall_bounded_run_end.
  - change (String c r ++ rest)%string with (String c (r ++ rest)).
    cbn [findall_bounded boundary]. rewrite Ew. cbn [xorb].
    rewrite (IH rest Hr Hrest).
    unfold trim_word. cbn [drop_nonword]. now rewrite Ew.
Qed.

Lemma runs_of_app keep r : forall cur rest,
  all_chars keep r = true ->
  runs_of keep cur (r ++ rest) = runs_of keep (cur ++ r) rest.
Proof.
  induction r as [|c r IH]; intros cur rest Hr; simpl.
  - now rewrite append_nil_r.
  - simpl in Hr. apply andb_prop in Hr as [Hc Hr]. rewrite Hc.
    rewrite IH by exact Hr. now rewrite append_assoc.
Qed.

(** Every string is a run followed by the end or by whitespace. *)
Lemma first_run s :
  exists r rest, s = (r ++ rest)%string /\ all_chars not_space r = true /\
                 (rest = "" \/
                  exists c rest', rest = String c rest' /\ is_space c = true /\
                                  String.length rest' < String.length s).
Proof.
  induction s as [|c s (r & rest & -> & Hr & Hrest)].
  - exists "", "". auto.
  - destruct (is_space c) eqn:Ec.
    + exists "", (String c (r ++ rest)). split; [reflexivity|].
      split; [reflexivity|]. right. exists c, (r ++ rest)%string. simpl. auto.
    + exists (String c r), rest. split; [reflexivity|].
      split; [simpl; unfold not_space at 1; now rewrite Ec|].
      destruct Hrest as [->|(c0 & rest' & -> & Hc0 & Hlen)]; [now left|].
      right. exists c0, rest'. repeat split; auto. simpl.
      rewrite length_append in *. simpl in *. lia.
Qed.

(** The keywords are the runs between whitespace, each cut back to its
    first and last word character, without the empty ones. *)
Lemma findall_bounded_runs s :
  filter nonempty (findall_bounded false 0 s)
  = filter nonempty (map trim_word (space_runs s)).
Proof.
  remember (String.length s) as n eqn:Hn.
  revert s Hn. induction n as [n IH] using lt_wf_ind. intros s Hn.
  destruct (first_run s) as (r & rest & -> & Hr & Hrest).
  unfold space_runs.
  rewrite (runs_of_app not_space r "" rest Hr). simpl append.
  destruct Hrest as [->|(c & rest' & -> & Hc & Hlen)].
  - rewrite (findall_bounded_run r "" Hr (or_introl eq_refl)).
    simpl. now rewrite app_nil_r.
  - rewrite (findall_bounded_run r (String c rest') Hr).
    2:{ right. eauto. }
    cbn [runs_of]. unfold not_space at 1. rewrite Hc. cbn [negb map].
    cbn [findall_bounded boundary]. rewrite (space_not_word c Hc).
    cbn [xorb].
    rewrite (IH (String.length rest')); [|lia|reflexivity].
    unfold space_runs.
    cbn [filter]. destruct (nonempty (trim_word r)); reflexivity.
Qed.

Lemma findall_quoted_skip p : forall rest,
  findall_quoted (String.length p) (p ++ rest) = findall_quoted 0 rest.
Proof.
  induction p as [|c p IH]; intros rest; simpl.
  - now destruct rest.
  - apply IH.
Qed.

Lemma index_of_append c p rest :
  all_chars (fun a => negb (Ascii.eqb a c)) p = true ->
  index_of c (p ++ String c rest) = Some (String.length p).
Proof.
  induction p as [|a p IH]; simpl; intros Hp.
  - now rewrite Ascii.eqb_refl.
  - apply andb_prop in Hp as [Ha Hp]. apply negb_true_iff in Ha.
    rewrite Ha. now rewrite IH.
Qed.

Lemma remove_char_none c p :
  all_chars (fun a => negb (Ascii.eqb a c)) p = true -> remove_char c p = p.
Proof.
  induction p as [|a p IH]; simpl; intros Hp; [reflexivity|].
  apply andb_prop in Hp as [Ha Hp]. apply negb_true_iff in Ha.
  rewrite Ha. now rewrite IH.
Qed.

Lemma remove_char_append c a b :
  remove_char c (a ++ b) = (remove_char c a ++ remove_char c b)%string.
Proof.
  induction a as [|x a IH]; simpl; [reflexivity|].
  destruct (Ascii.eqb x c); simpl; now rewrite IH.
Qed.

Lemma quoted_append p post :
  (quoted p ++ post)%string = String dquote (p ++ String dquote post).
Proof. unfold quoted. simpl. now rewrite append_assoc. Qed.

Lemma findall_quoted_at_quote p post :
  all_chars not_dquote p = true ->
  findall_quoted 0 (String dquote (p ++ String dquote post))
  = quoted p :: findall_quoted 0 post.
Proof.
  intros Hp. cbn [findall_quoted].
  change (is_dquote dquote) with true. cbv iota.
  rewrite (index_of_append dquote p post Hp).
  assert (E : (p ++ String dquote post)%string
              = ((p ++ String dquote "") ++ post)%string)
    by (now rewrite append_assoc).
  assert (L : S (String.length p) = String.length (p ++ String dquote ""))
    by (rewrite length_append; simpl; lia).
  rewrite L, E, take_append, findall_quoted_skip. reflexivity.
Qed.

(** A quoted substring is found as a phrase, and the scan goes on
    behind its closing quote. *)
Lemma phrases_of_quoted pre p post :
  all_chars not_dquote pre = true ->
  all_chars not_dquote p = true ->
  phrases_of (pre ++ quoted p ++ post) = p :: phrases_of post.
Proof.
  intros Hpre Hp. unfold phrases_of. rewrite quoted_append.
  induction pre as [|c pre IH].
  - cbn [append]. rewrite (findall_quoted_at_quote p post Hp).
    cbn [map]. f_equal. unfold quoted.
    change (String dquote (p ++ String dquote ""))
      with (String dquote "" ++ p ++ String dquote "")%string.
    rewrite !remove_char_append.
    rewrite (remove_char_none dquote p Hp).
    change (remove_char dquote (String dquote "")) with "".
    cbn [append]. apply append_nil_r.
  - simpl in Hpre. apply andb_prop in Hpre as [Hc Hpre].
    unfold not_dquote in Hc. apply negb_true_iff in Hc.
    cbn [append findall_quoted]. rewrite Hc. now apply IH.
Qed.

Lemma findall_quoted_none s :
  all_chars not_dquote s = true -> findall_quoted 0 s = [].
Proof.
  induction s as [|c s IH]; simpl; intros Hs; [reflexivity|].
  apply andb_prop in Hs as [Hc Hs].
  unfold not_dquote in Hc. apply negb_true_iff in Hc. rewrite Hc. auto.
Qed.

Lemma space_not_dquote c : is_space c = true -> not_dquote c = true.
Proof.
  intros Hc. unfold not_dquote, is_dquote.
  destruct (Ascii.eqb c dquote) eqn:E; [|reflexivity].
  apply Ascii.eqb_eq in E. subst c. discriminate.
Qed.

Lemma all_chars_impl (p q : ascii -> bool) s :
  (forall c, p c = true -> q c = true) ->
  all_chars p s = true -> all_chars q s = true.
Proof.
  intros H. induction s as [|c s IH]; simpl; [reflexivity|].
  intros Hs. apply andb_prop in Hs as [Hc Hs]. now rewrite (H c Hc), IH.
Qed.

Lemma space_runs_blank s :
  all_chars is_space s = true ->
  filter nonempty (map trim_word (space_runs s)) = [].
Proof.
  unfold space_runs. induction s as [|c s IH]; simpl; intros Hs.
  - reflexivity.
  - apply andb_prop in Hs as [Hc Hs]. unfold not_space. rewrite Hc. simpl.
    now apply IH.
Qed.

(** A query of whitespace only is no filter. *)
Lemma normalize_blank q :
  all_chars is_space q = true -> normalize_fts_query q = None.
Proof.
  intros Hq. unfold normalize_fts_query, phrases_of, keywords_of.
  rewrite (findall_quoted_none q)
    by (eapply all_chars_impl; [apply space_not_dquote|exact Hq]).
  simpl. rewrite findall_bounded_runs, (space_runs_blank q Hq). reflexivity.
Qed.

Lemma remove_all_from_keeps (f : ascii -> bool) p : forall s skip,
  all_chars f s = true -> all_chars f (remove_all_from p skip s) = true.
Proof.
  induction s as [|c s IH]; intros skip; simpl; [reflexivity|].
  intros H. apply andb_prop in H as [Hc Hs].
  destruct skip as [|k]; [|now apply IH].
  destruct (starts_with p (String c s)); [now apply IH|].
  simpl. rewrite Hc. now apply IH.
Qed.

Lemma str_remove_keeps (f : ascii -> bool) p s :
  all_chars f s = true -> all_chars f (str_remove p s) = true.
Proof.
  unfold str_remove. destruct p; [auto|]. apply remove_all_from_keeps.
Qed.

(** Deleting the phrases from a query brings no character in. *)
Lemma remainder_ascii q : forall phrases,
  is_ascii q = true ->
  is_ascii (fold_left (fun q p => str_remove p q) phrases q) = true.
Proof.
  intros phrases. revert q.
  induction phrases as [|p phrases IH]; intros q Hq; simpl; [exact Hq|].
  apply IH. now apply str_remove_keeps.
Qed.

(** C9 (amended).  Each double-quoted substring, without its quotes, is
    a phrase.  The text of every phrase is deleted from the query, and
    what is left is cut at whitespace only: every run between
    whitespace, cut back to its first and last word character and with
    double quotes, apostrophes and commas deleted, is a keyword, and a
    run without word character gives none.  Phrases, then keywords, are
    joined into one disjunction of quoted terms; when that comes out
    empty, as for a query of whitespace only, the result is no filter.
    Keywords are stated for text of characters below 128, whose classes
    (word character, whitespace) are the ones modelled. *)
Theorem normalize_fts_query_shape :
  (forall pre p post,
      all_chars not_dquote pre = true ->
      all_chars not_dquote p = true ->
      phrases_of (pre ++ quoted p ++ post) = p :: phrases_of post) /\
  (forall s, all_chars not_dquote s = true -> phrases_of s = []) /\
  (forall s,
      is_ascii s = true ->
      keywords_of s
      = map clean_keyword (filter nonempty (map trim_word (space_runs s)))) /\
  (forall q,
      is_ascii q = true ->
      let phrases := phrases_of q in
      let remainder := fold_left (fun q p => str_remove p q) phrases q in
      is_ascii remainder = true /\
      normalize_fts_query q
      = match join OR_SEP (phrases ++ keywords_of remainder) with
        | EmptyString => None
        | terms => Some (quoted terms)
        end) /\
  (forall q, all_chars is_space q = true -> normalize_fts_query q = None).
Proof.
  split; [exact phrases_of_quoted|].
  split.
  { intros s Hs. unfold phrases_of. now rewrite findall_quoted_none. }
  split.
  { intros s _. unfold keywords_of. now rewrite findall_bounded_runs. }
  split; [|exact normalize_blank].
  intros q Hq phrases remainder.
  split; [now apply remainder_ascii|].
  unfold normalize_fts_query.
  fold phrases. fold remainder.
  destruct (join OR_SEP (phrases ++ keywords_of remainder)); reflexivity.
Qed.

(** A phrase between two words, the keywords of a line of text, and a
    query of three blanks. *)
Lemma normalize_fts_query_shape_witness :
  phrases_of ("find " ++ quoted "bar baz" ++ " qux")
  = "bar baz" :: phrases_of " qux" /\
  phrases_of "find qux" = [] /\
  keywords_of "(ssh)  it's 10.0.0.5, --"
  = map clean_keyword
        (filter nonempty (map trim_word ["(ssh)"; "it's"; "10.0.0.5,"; "--"])) /\
  normalize_fts_query ("find " ++ quoted "bar baz" ++ " qux")
  = Some (quoted ("bar baz" ++ OR_SEP ++ "find" ++ OR_SEP ++ "qux")) /\
  normalize_fts_query "   " = None.
Proof.
  destruct normalize_fts_query_shape
    as (Hphrase & Hnone & Hkeys & Hjoin & Hblank).
  split; [|split; [|split; [|split]]].
  - apply (Hphrase "find " "bar baz" " qux"); reflexivity.
  - apply (Hnone "find qux"). reflexivity.
  - apply (Hkeys "(ssh)  it's 10.0.0.5, --"). reflexivity.
  - destruct (Hjoin ("find " ++ quoted "bar baz" ++ " qux")%string) as [_ H];
      [reflexivity|].
    rewrite H. vm_compute. reflexivity.
  - apply (Hblank "   "). reflexivity.
Defined.

(** C9, as stated, fails: punctuation does not separate keywords.  A
    comma inside a run is deleted and joins its neighbours, a dot stays
    inside the keyword. *)
Lemma normalize_punctuation_counterexample :
  normalize_as_specified "foo,bar"
  = Some (quoted "foo" ++ " OR " ++ quoted "bar")%string /\
  normalize_fts_query "foo,bar" = Some (quoted "foobar") /\
  normalize_as_specified "10.0.0.5 ssh"
  = Some (quoted "10" ++ " OR " ++ quoted "0" ++ " OR " ++ quoted "0"
          ++ " OR " ++ quoted "5" ++ " OR " ++ quoted "ssh")%string /\
  normalize_fts_query "10.0.0.5 ssh"
  = Some (quoted "10.0.0.5" ++ " OR " ++ quoted "ssh")%string.
Proof.
  repeat split; vm_compute; reflexivity.
Qed.

(** * Further properties of the code *)

(** ** Splitting and joining *)

Lemma split_on_cons c s : exists x l, split_on c s = x :: l.
Proof.
  destruct s as [|a s]; simpl; [eauto|].
  destruct (Ascii.eqb a c); [eauto|].
  destruct (split_on c s); eauto.
Qed.

Lemma split_on_app c a b :
  split_on c (a ++ String c b) = split_on c a ++ split_on c b.
Proof.
  induction a as [|x a IH]; simpl.
  - now rewrite Ascii.eqb_refl.
  - destruct (Ascii.eqb x c); [now rewrite IH|].
    rewrite IH. destruct (split_on_cons c a) as (h & l & ->). reflexivity.
Qed.

Lemma split_on_free c s : free_of c s = true -> split_on c s = [s].
Proof.
  induction s as [|x s IH]; simpl; [reflexivity|].
  intros H. apply andb_prop in H as [Hx Hs].
  apply negb_true_iff in Hx. rewrite Hx, (IH Hs). reflexivity.
Qed.

Lemma join_split c s : join (String c "") (split_on c s) = s.
Proof.
  induction s as [|x s IH]; simpl; [reflexivity|].
  destruct (Ascii.eqb x c) eqn:E.
  - apply Ascii.eqb_eq in E. subst x.
    destruct (split_on_cons c s) as (h & l & Hs). rewrite Hs in *.
    simpl. simpl in IH. now rewrite IH.
  - destruct (split_on_cons c s) as (h & l & Hs). rewrite Hs in *.
    destruct l as [|y l]; simpl in *; now rewrite IH.
Qed.

Lemma join_removelast sep l x :
  exists rest, join sep (l ++ [x]) = (join sep (removelast (l ++ [x])) ++ rest)%string.
Proof.
  rewrite removelast_last.
  induction l as [|y l IH]; simpl.
  - now exists x.
  - destruct IH as (rest & IH).
    destruct l as [|z l].
    + simpl in *. exists (sep ++ x)%string. reflexivity.
    + change (join sep ((z :: l) ++ [x])) with (join sep (z :: l ++ [x])) in IH.
      simpl in IH |- *.
      destruct (l ++ [x]) eqn:E; [destruct l; discriminate|].
      rewrite IH. exists rest.
      destruct l as [|w l]; simpl; now rewrite ?append_assoc.
Qed.

Lemma nonempty_snoc {A} (l : list A) :
  l <> [] -> exists l' x, l = l' ++ [x].
Proof.
  intros H. destruct (exists_last H) as (l' & x & ->). eauto.
Qed.

(** What is left of a string after its last piece is cut off heads the
    string. *)
Lemma join_removelast_split c s :
  exists rest,
    s = (join (String c "") (removelast (split_on c s)) ++ rest)%string.
Proof.
  destruct (split_on_cons c s) as (h & l & Hs).
  destruct (@nonempty_snoc _ (split_on c s)) as (l' & x & E).
  { rewrite Hs. discriminate. }
  destruct (join_removelast (String c "") l' x) as (rest & Hj).
  exists rest. rewrite E, <- Hj, <- E. symmetry. apply join_split.
Qed.

Lemma free_of_append c a b :
  free_of c (a ++ b) = free_of c a && free_of c b.
Proof. apply all_chars_append. Qed.

Lemma last_app_cons {A} (l : list A) x l' d :
  last (l ++ x :: l') d = last (x :: l') d.
Proof.
  induction l as [|y l IH]; [reflexivity|].
  simpl app. rewrite <- IH. simpl. destruct (l ++ x :: l') eqn:E; [|reflexivity].
  destruct l; discriminate.
Qed.

(** ** File names *)

Lemma basename_join d x : basename (d ++ "/" ++ x) = basename x.
Proof.
  unfold basename. simpl append. rewrite split_on_app.
  destruct (split_on_cons "/"%char x) as (h & l & ->).
  apply last_app_cons.
Qed.

Lemma basename_free x : free_of "/"%char x = true -> basename x = x.
Proof. intros H. unfold basename. now rewrite split_on_free. Qed.

Lemma free_of_last c l :
  Forall (fun x => free_of c x = true) l -> free_of c (last l "") = true.
Proof.
  induction 1 as [|x l Hx Hl IH]; [reflexivity|].
  destruct l; [exact Hx|exact IH].
Qed.

Lemma split_on_pieces_free c s :
  Forall (fun x => free_of c x = true) (split_on c s).
Proof.
  induction s as [|x s IH]; simpl.
  - repeat constructor.
  - destruct (Ascii.eqb x c) eqn:E.
    + constructor; [reflexivity|exact IH].
    + destruct (split_on_cons c s) as (h & l & Hs). rewrite Hs in *.
      inversion IH; subst. constructor; [|assumption].
      unfold free_of in *. simpl. now rewrite E.
Qed.

Lemma basename_no_slash path : free_of "/"%char (basename path) = true.
Proof. apply free_of_last, split_on_pieces_free. Qed.

Lemma splitext_root_prefix name :
  exists rest, name = (splitext_root name ++ rest)%string.
Proof.
  unfold splitext_root.
  destruct (join_removelast_split "."%char name) as (rest & Hr).
  assert (Hself : exists rest, name = (name ++ rest)%string).
  { exists "". now rewrite append_nil_r. }
  destruct (split_on "."%char name) as [|p [|q l]] eqn:E; try exact Hself.
  destruct (all_dots _); [exact Hself|]. eauto.
Qed.

Lemma free_of_prefix c a b : free_of c (a ++ b) = true -> free_of c a = true.
Proof. rewrite free_of_append. intros H. now apply andb_prop in H. Qed.

Lemma strip_filename_no_slash filename :
  free_of "/"%char (Helpers.strip_filename filename) = true.
Proof.
  unfold Helpers.strip_filename.
  destruct (splitext_root_prefix (basename filename)) as (rest & Hr).
  apply free_of_prefix with (b := rest). rewrite <- Hr.
  apply basename_no_slash.
Qed.

Lemma all_dots_free_of s :
  s <> "" -> free_of "."%char s = true -> all_dots s = false.
Proof.
  destruct s as [|c s]; [congruence|]. intros _ H. simpl in *.
  apply andb_prop in H as [H _]. apply negb_true_iff in H. now rewrite H.
Qed.

Lemma all_dots_append a b : all_dots (a ++ b) = all_dots a && all_dots b.
Proof.
  induction a as [|c a IH]; simpl; [reflexivity|].
  now rewrite IH, andb_assoc.
Qed.

(** The extension is what follows the last dot, when something other
    than dots comes before it. *)
Lemma splitext_root_ext root ext :
  free_of "."%char ext = true -> all_dots root = false ->
  splitext_root (root ++ "." ++ ext) = root.
Proof.
  intros He Hr. unfold splitext_root. simpl append.
  rewrite split_on_app, (split_on_free _ _ He).
  destruct (split_on_cons "."%char root) as (h & l & Hs).
  rewrite removelast_last.
  change "." with (String "."%char "") at 1 3.
  rewrite join_split, Hr.
  rewrite Hs. destruct l; reflexivity.
Qed.

Lemma splitext_root_free name :
  free_of "."%char name = true -> splitext_root name = name.
Proof.
  intros H. unfold splitext_root. now rewrite (split_on_free _ _ H).
Qed.

(** ** [Helpers.remove_duplicates] *)

Lemma add_key_In acc k x : In x (add_key acc k) <-> In x acc \/ x = k.
Proof.
  unfold add_key. destruct (mem k acc) eqn:E.
  - apply mem_In in E. split; [tauto|]. intros [H| ->]; assumption.
  - rewrite in_app_iff. simpl. intuition (subst; auto).
Qed.

Lemma mem_false k l : mem k l = false <-> ~ In k l.
Proof.
  rewrite <- mem_In. destruct (mem k l); split; congruence.
Qed.

Lemma add_key_NoDup acc k : NoDup acc -> NoDup (add_key acc k).
Proof.
  intros H. unfold add_key. destruct (mem k acc) eqn:E; [assumption|].
  apply mem_false in E.
  apply NoDup_app; [assumption|repeat constructor; simpl; tauto|].
  intros x Hx [<-|[]]. contradiction.
Qed.

Lemma fold_add_key_In l : forall acc x,
  In x (fold_left add_key l acc) <-> In x acc \/ In x l.
Proof.
  induction l as [|k l IH]; intros acc x; simpl; [tauto|].
  rewrite IH, add_key_In. intuition.
Qed.

Lemma fold_add_key_NoDup l : forall acc,
  NoDup acc -> NoDup (fold_left add_key l acc).
Proof.
  induction l as [|k l IH]; intros acc H; simpl; [assumption|].
  apply IH, add_key_NoDup, H.
Qed.

Lemma mem_app k a b : mem k (a ++ b) = mem k a || mem k b.
Proof. unfold mem. apply existsb_app. Qed.

Lemma filter_twice {A} (f g : A -> bool) (l : list A) :
  filter f (filter g l) = filter (fun x => f x && g x) l.
Proof.
  induction l as [|x l IH]; simpl; [reflexivity|].
  destruct (g x); simpl; rewrite ?andb_false_r, ?andb_true_r;
    [destruct (f x)|]; now rewrite IH.
Qed.

Lemma fold_add_key_filter n : forall l acc,
  List.length l <= n ->
  fold_left add_key l acc
  = acc ++ remove_duplicates (filter (fun y => negb (mem y acc)) l).
Proof.
  induction n as [|n IH]; intros l acc Hn.
  - destruct l; [|simpl in Hn; lia]. simpl. now rewrite app_nil_r.
  - destruct l as [|y l]; [simpl; now rewrite app_nil_r|].
    simpl in Hn. simpl fold_left. simpl filter. unfold add_key at 2.
    destruct (mem y acc) eqn:E; simpl negb; cbv iota.
    + apply IH. lia.
    + rewrite IH by lia.
      unfold remove_duplicates at 2. simpl fold_left.
      change (add_key [] y) with [y].
      rewrite (IH (filter _ l) [y]).
      2:{ etransitivity; [apply filter_length_le|lia]. }
      rewrite <- app_assoc. f_equal. f_equal. f_equal.
      rewrite filter_twice. apply filter_ext.
      intros a. rewrite mem_app, negb_orb. apply andb_comm.
Qed.

Lemma fold_add_key_fresh l : forall acc,
  NoDup (acc ++ l) -> fold_left add_key l acc = acc ++ l.
Proof.
  induction l as [|k l IH]; intros acc H; simpl; [now rewrite app_nil_r|].
  assert (Hk : mem k acc = false).
  { apply mem_false. intros Hin. apply NoDup_remove_2 in H.
    apply H. apply in_or_app. now left. }
  unfold add_key. rewrite Hk.
  change (k :: l) with ([k] ++ l). rewrite app_assoc.
  apply IH. now rewrite <- app_assoc.
Qed.

Lemma remove_duplicates_NoDup l : NoDup (remove_duplicates l).
Proof. apply fold_add_key_NoDup. constructor. Qed.

Lemma remove_duplicates_In l x : In x (remove_duplicates l) <-> In x l.
Proof. unfold remove_duplicates. rewrite fold_add_key_In. simpl. tauto. Qed.

(** X1.  [remove_duplicates] keeps exactly the values of the list, each
    once, and each at the place of its first occurrence: the head stays
    the head and is struck from the rest.  A list without duplicates is
    returned as it is, so removing duplicates twice is removing them
    once. *)
Theorem remove_duplicates_first_occurrences :
  forall l : list string,
    NoDup (remove_duplicates l) /\
    (forall x, In x (remove_duplicates l) <-> In x l) /\
    (forall x l',
        remove_duplicates (x :: l')
        = x :: remove_duplicates (filter (fun y => negb (String.eqb y x)) l')) /\
    (NoDup l -> remove_duplicates l = l) /\
    remove_duplicates (remove_duplicates l) = remove_duplicates l.
Proof.
  intros l.
  pose proof (remove_duplicates_NoDup l) as Hnd.
  assert (Hfix : forall m, NoDup m -> remove_duplicates m = m).
  { intros m Hm. unfold remove_duplicates.
    now rewrite fold_add_key_fresh by exact Hm. }
  split; [exact Hnd|].
  split.
  { intros x. apply remove_duplicates_In. }
  split.
  { intros x l'. unfold remove_duplicates at 1. simpl fold_left.
    change (add_key [] x) with [x].
    rewrite (fold_add_key_filter (List.length l') l' [x]) by lia.
    simpl app. f_equal. f_equal. apply filter_ext.
    intros a. unfold mem. simpl. now rewrite orb_false_r. }
  split; [apply Hfix|]. now apply Hfix.
Qed.

Lemma remove_duplicates_first_occurrences_witness :
  remove_duplicates ["sample"; "port_scan"] = ["sample"; "port_scan"] /\
  remove_duplicates ["sample"; "port_scan"; "sample"] = ["sample"; "port_scan"].
Proof.
  split; [|reflexivity].
  apply (proj1 (proj2 (proj2 (proj2 (remove_duplicates_first_occurrences
                                       ["sample"; "port_scan"]))))).
  repeat constructor; simpl; intuition discriminate.
Defined.

(** ** Cache file names *)

Lemma underscore_not_dots a b : all_dots (a ++ "_" ++ b) = false.
Proof.
  rewrite all_dots_append. simpl. apply andb_false_r.
Qed.

(** X2.  The name [generate_timestamp_filename] builds gives back its
    parts: for a module name and a time text without path separator, a
    time text without underscore and an extension without dot or path
    separator, [get_module_name_from_file] returns the module name
    (underscores and all) and [get_timestamp_from_file] the time text
    (with its decimal point), whatever the directory. *)
Theorem timestamp_filename_round_trip :
  forall now directory name ext : string,
    free_of "/"%char name = true ->
    free_of "/"%char now = true ->
    free_of "_"%char now = true ->
    free_of "/"%char ext = true ->
    free_of "."%char ext = true ->
    let file := generate_timestamp_filename now directory name ext in
    Helpers.get_module_name_from_file file = name /\
    get_timestamp_from_file file = now /\
    Helpers.strip_filename file = (name ++ "_" ++ now)%string.
Proof.
  intros now directory name ext Hn Ht Hu He Hd file.
  assert (Hs : Helpers.strip_filename file = (name ++ "_" ++ now)%string).
  { unfold Helpers.strip_filename, file, generate_timestamp_filename.
    rewrite basename_join, basename_free.
    2:{ rewrite !free_of_append, Hn, Ht, He. reflexivity. }
    replace (name ++ "_" ++ now ++ "." ++ ext)%string
      with ((name ++ "_" ++ now) ++ "." ++ ext)%string
      by (now rewrite !append_assoc).
    apply splitext_root_ext; [exact Hd|apply underscore_not_dots]. }
  assert (Hp : split_on "_"%char (name ++ "_" ++ now)
               = split_on "_"%char name ++ [now]).
  { simpl append. now rewrite split_on_app, (split_on_free _ _ Hu). }
  split; [|split; [|exact Hs]].
  - unfold Helpers.get_module_name_from_file. rewrite Hs, Hp, removelast_last.
    apply join_split.
  - unfold get_timestamp_from_file. rewrite Hs, Hp. apply last_last.
Qed.

Lemma timestamp_filename_round_trip_witness :
  Helpers.get_module_name_from_file
    (generate_timestamp_filename "1590173358.8195605" "/opt/watchtower/cache"
                                 "port_scan" "json") = "port_scan" /\
  get_timestamp_from_file
    (generate_timestamp_filename "1590173358.8195605" "/opt/watchtower/cache"
                                 "port_scan" "json") = "1590173358.8195605".
Proof.
  destruct (timestamp_filename_round_trip
              "1590173358.8195605" "/opt/watchtower/cache" "port_scan" "json"
              eq_refl eq_refl eq_refl eq_refl eq_refl) as (H1 & H2 & _).
  split; [exact H1|exact H2].
Defined.

Lemma starts_with_append a b : starts_with a (a ++ b) = true.
Proof.
  induction a as [|c a IH]; simpl; [reflexivity|].
  now rewrite Ascii.eqb_refl.
Qed.

(** The module name read off a file name heads the base name of the
    file. *)
Lemma module_name_heads_basename path :
  starts_with (Helpers.get_module_name_from_file path) (basename path) = true.
Proof.
  unfold Helpers.get_module_name_from_file, Helpers.strip_filename.
  destruct (splitext_root_prefix (basename path)) as (r1 & H1).
  destruct (join_removelast_split "_"%char (splitext_root (basename path)))
    as (r2 & H2).
  change "_" with (String "_"%char "").
  rewrite H1 at 2. rewrite H2 at 2. rewrite append_assoc.
  apply starts_with_append.
Qed.

(** X3.  Asking for the cache files of a module finds every visible
    file of the cache directory whose name gives that module; what it
    returns are visible files of the cache directory whose base name
    begins with the module name, and with the empty name every visible
    file is returned. *)
Theorem module_cache_files_are_found :
  forall (listdir : string -> list string) (config : Config),
    (forall module file,
        In file (list_visible_files (listdir (cache_dir config))) ->
        Helpers.get_module_name_from_file (cache_dir config ++ "/" ++ file)
        = module ->
        In (cache_dir config ++ "/" ++ file)%string
           (get_all_cache_files listdir config module)) /\
    (forall module path,
        In path (get_all_cache_files listdir config module) ->
        exists file,
          path = (cache_dir config ++ "/" ++ file)%string /\
          In file (listdir (cache_dir config)) /\
          starts_with "." file = false /\
          starts_with module (basename path) = true) /\
    get_all_cache_files listdir config ""
    = map (fun f => (cache_dir config ++ "/" ++ f)%string)
          (list_visible_files (listdir (cache_dir config))).
Proof.
  intros listdir config. split; [|split].
  - intros module file Hin Hm. unfold get_all_cache_files.
    apply in_map_iff. exists file. split; [reflexivity|].
    apply filter_In. split; [exact Hin|].
    rewrite <- Hm, <- (basename_join (cache_dir config) file).
    apply module_name_heads_basename.
  - intros module path Hin. unfold get_all_cache_files in Hin.
    apply in_map_iff in Hin as (file & <- & Hin).
    apply filter_In in Hin as (Hin & Hs).
    unfold list_visible_files in Hin. apply filter_In in Hin as (Hin & Hv).
    exists file. rewrite basename_join.
    repeat split; auto. now apply negb_true_iff in Hv.
  - unfold get_all_cache_files. f_equal.
    apply forallb_filter_id. apply forallb_forall. reflexivity.
Qed.

Lemma module_cache_files_are_found_witness :
  In "/opt/watchtower/cache/port_scan_1590173360.02.json"
     (get_all_cache_files example_listdir example_config "port_scan").
Proof.
  apply (proj1 (module_cache_files_are_found example_listdir example_config)
               "port_scan" "port_scan_1590173360.02.json").
  - vm_compute. auto.
  - vm_compute. reflexivity.
Defined.

(** ** Database paths *)

Lemma nonempty_append_cons a c b : nonempty (a ++ String c b) = true.
Proof. destruct a; reflexivity. Qed.

Lemma strip_filename_plain name :
  free_of "/"%char name = true -> free_of "."%char name = true ->
  Helpers.strip_filename name = name.
Proof.
  intros Hs Hd. unfold Helpers.strip_filename.
  now rewrite basename_free, splitext_root_free.
Qed.

Lemma strip_filename_path directory name ext :
  name <> "" ->
  free_of "/"%char name = true -> free_of "."%char name = true ->
  free_of "/"%char ext = true -> free_of "."%char ext = true ->
  Helpers.strip_filename (directory ++ "/" ++ name ++ "." ++ ext) = name.
Proof.
  intros Hne Hs Hd Hes Hed. unfold Helpers.strip_filename.
  rewrite basename_join, basename_free.
  2:{ rewrite !free_of_append, Hs, Hes. reflexivity. }
  apply splitext_root_ext; [exact Hed|now apply all_dots_free_of].
Qed.

(** X4.  A database is found by its bare name, by its file name and by
    any path to a file of that name alike: [get_database_filepath]
    drops the directory and the extension it is given and puts the
    database directory and the configured extension in their place.
    Stripping the path it returns gives the bare name back, which is how
    the web pages name a database. *)
Theorem database_path_from_any_form :
  forall (config : Config) (directory name ext : string),
    name <> "" ->
    free_of "/"%char name = true -> free_of "."%char name = true ->
    free_of "/"%char ext = true -> free_of "."%char ext = true ->
    let path := (database_dir config ++ "/" ++ name ++ "."
                              ++ database_ext config)%string in
    get_database_filepath config name = path /\
    get_database_filepath config (name ++ "." ++ ext) = path /\
    get_database_filepath config (directory ++ "/" ++ name ++ "." ++ ext) = path /\
    (free_of "/"%char (database_ext config) = true ->
     free_of "."%char (database_ext config) = true ->
     Helpers.strip_filename path = name /\
     get_database_filepath config path = path).
Proof.
  intros config directory name ext Hne Hs Hd Hes Hed path.
  assert (H1 : Helpers.strip_filename name = name)
    by now apply strip_filename_plain.
  assert (H2 : Helpers.strip_filename (name ++ "." ++ ext) = name).
  { unfold Helpers.strip_filename. rewrite basename_free.
    2:{ rewrite !free_of_append, Hs, Hes. reflexivity. }
    apply splitext_root_ext; [exact Hed|now apply all_dots_free_of]. }
  assert (H3 : Helpers.strip_filename (directory ++ "/" ++ name ++ "." ++ ext)
               = name) by now apply strip_filename_path.
  unfold get_database_filepath. rewrite H1, H2, H3.
  repeat split; try reflexivity.
  - now apply strip_filename_path.
  - fold path. unfold path at 1.
    rewrite (strip_filename_path (database_dir config) name
               (database_ext config)); auto.
Qed.

Lemma database_path_from_any_form_witness :
  get_database_filepath example_config "lab"
  = "/opt/watchtower/databases/lab.db" /\
  get_database_filepath example_config "/tmp/copies/lab.sqlite3"
  = "/opt/watchtower/databases/lab.db" /\
  Helpers.strip_filename "/opt/watchtower/databases/lab.db" = "lab".
Proof.
  assert (Hne : "lab" <> "") by discriminate.
  destruct (database_path_from_any_form example_config "/tmp/copies" "lab"
              "sqlite3" Hne eq_refl eq_refl eq_refl eq_refl)
    as (H1 & _ & H3 & H4).
  destruct (H4 eq_refl eq_refl) as (H5 & _).
  split; [exact H1|]. split; [exact H3|exact H5].
Defined.

(** X5.  [database_download] never answers that the database was not
    found: the path it tests is never empty, so every request that
    names a database is passed on to [send_from_directory], with the
    database directory and a file name that is the stripped parameter
    with the configured extension, which holds no path separator. *)
Theorem database_download_never_not_found :
  forall (config : Config) (req : Web.Request),
    (forall p, WebPages.database_download config req
               <> WebPages.Json (WebPages.DatabaseNotFound p)) /\
    (given (Web.values_get req "database") = None ->
     WebPages.database_download config req
     = WebPages.Json WebPages.NoDatabaseSpecified) /\
    (forall db_param,
        given (Web.values_get req "database") = Some db_param ->
        free_of "/"%char (database_ext config) = true ->
        let filename := (Helpers.strip_filename db_param ++ "."
                           ++ database_ext config)%string in
        WebPages.database_download config req
        = WebPages.SendFromDirectory (get_database_directory config) filename /\
        free_of "/"%char filename = true).
Proof.
  intros config req.
  assert (Hne : forall p, nonempty (get_database_filepath config p) = true).
  { intros p. unfold get_database_filepath. simpl append.
    apply nonempty_append_cons. }
  split; [|split].
  - intros p. unfold WebPages.database_download.
    destruct (given _); [|discriminate]. now rewrite Hne.
  - unfold WebPages.database_download. now intros ->.
  - intros db_param Hg Hext filename.
    unfold WebPages.database_download. rewrite Hg, Hne.
    assert (Hf : free_of "/"%char filename = true).
    { unfold filename. rewrite !free_of_append, strip_filename_no_slash, Hext.
      reflexivity. }
    split; [|exact Hf].
    f_equal. unfold get_database_filepath. fold filename.
    now rewrite basename_join, basename_free.
Qed.

Lemma database_download_never_not_found_witness :
  WebPages.database_download example_config [("database", "../../etc/passwd")]
  = WebPages.SendFromDirectory "/opt/watchtower/databases/" "passwd.db".
Proof.
  apply (proj2 (proj2 (database_download_never_not_found
                         example_config [("database", "../../etc/passwd")]))
               "../../etc/passwd" eq_refl eq_refl).
Defined.

(** ** The database modified last *)

Lemma Sorted_last_max {A} (R : A -> A -> Prop) (d : A) (l : list A) :
  (forall a, R a a) ->
  (forall a b c, R a b -> R b c -> R a c) ->
  Sorted R l -> forall x, In x l -> R x (last l d).
Proof.
  intros Hrefl Htrans Hs.
  assert (Hss : StronglySorted R l).
  { apply Sorted_StronglySorted; [|exact Hs]. exact Htrans. }
  clear Hs. induction Hss as [|a l Hss IH Hall]; intros x; [intros []|].
  intros [<-|Hin].
  - destruct l as [|b l]; [apply Hrefl|].
    change (last (a :: b :: l) d) with (last (b :: l) d).
    rewrite Forall_forall in Hall. apply Hall.
    destruct (@exists_last _ (b :: l)) as (l' & y & E); [discriminate|].
    rewrite E, last_last. apply in_or_app. right. now left.
  - destruct l as [|b l]; [destruct Hin|].
    change (last (a :: b :: l) d) with (last (b :: l) d). now apply IH.
Qed.

Lemma last_In {A} (l : list A) d : l <> [] -> In (last l d) l.
Proof.
  intros H. destruct (exists_last H) as (l' & y & ->).
  rewrite last_last. apply in_or_app. right. now left.
Qed.

Lemma sort_files_by_ostime_spec getmtime files :
  Permutation files (sort_files_by_ostime getmtime files) /\
  Sorted (fun a b => (getmtime a <=? getmtime b)%Z = true)
         (sort_files_by_ostime getmtime files).
Proof.
  assert (Htot : forall a b : string,
             (getmtime a <=? getmtime b)%Z = true \/
             (getmtime b <=? getmtime a)%Z = true).
  { intros a b. rewrite !Z.leb_le. lia. }
  unfold sort_files_by_ostime. destruct files as [|f files].
  - split; constructor.
  - split; [apply sort_by_perm|now apply sort_by_sorted].
Qed.

Lemma last_item_spec getmtime files :
  match last_item (sort_files_by_ostime getmtime files) with
  | None => files = []
  | Some f =>
      In f files /\ forall g, In g files -> (getmtime g <= getmtime f)%Z
  end.
Proof.
  destruct (sort_files_by_ostime_spec getmtime files) as (Hp & Hs).
  unfold last_item.
  destruct (sort_files_by_ostime getmtime files) as [|x l] eqn:E.
  - now apply Permutation_sym, Permutation_nil in Hp.
  - split.
    + eapply Permutation_in; [apply Permutation_sym, Hp|].
      apply last_In. discriminate.
    + intros g Hg. apply Z.leb_le.
      apply (Sorted_last_max
               (fun a b => (getmtime a <=? getmtime b)%Z = true) "" (x :: l)).
      * intros a. apply Z.leb_refl.
      * intros a b c. rewrite !Z.leb_le. lia.
      * exact Hs.
      * eapply Permutation_in; [exact Hp|exact Hg].
Qed.

(** X6.  [get_most_recent_database] returns a visible file of the
    database directory that no other such file was modified after; it
    has a result exactly when the directory holds a visible file, and
    fails with [IndexError] (the [None] here) when it holds none. *)
Theorem most_recent_database_is_newest :
  forall (listdir : string -> list string) (getmtime : string -> Z)
         (config : Config),
    let all_dbs := get_all_database_files listdir config in
    (all_dbs = [] <-> get_most_recent_database listdir getmtime config = None) /\
    (forall f,
        get_most_recent_database listdir getmtime config = Some f ->
        In f all_dbs /\
        (forall g, In g all_dbs -> (getmtime g <= getmtime f)%Z) /\
        exists d, f = (database_dir config ++ "/" ++ d)%string /\
                  In d (listdir (database_dir config)) /\
                  starts_with "." d = false).
Proof.
  intros listdir getmtime config all_dbs.
  unfold get_most_recent_database. fold all_dbs.
  pose proof (last_item_spec getmtime all_dbs) as H.
  destruct (last_item (sort_files_by_ostime getmtime all_dbs)) as [f|].
  - destruct H as (Hin & Hmax). split.
    + split; [|discriminate]. intros E. rewrite E in Hin. destruct Hin.
    + intros f' [= <-]. repeat split; auto.
      unfold all_dbs, get_all_database_files in Hin.
      apply in_map_iff in Hin as (d & <- & Hd).
      unfold list_visible_files in Hd. apply filter_In in Hd as (Hd & Hv).
      exists d. repeat split; auto. now apply negb_true_iff in Hv.
  - split; [tauto|discriminate].
Qed.

Lemma most_recent_database_is_newest_witness :
  get_most_recent_database example_listdir example_getmtime example_config
  = Some "/opt/watchtower/databases/watchtower.db" /\
  (example_getmtime "/opt/watchtower/databases/lab.db"
   <= example_getmtime "/opt/watchtower/databases/watchtower.db")%Z.
Proof.
  split; [reflexivity|].
  apply (proj2 (most_recent_database_is_newest
                  example_listdir example_getmtime example_config)
               "/opt/watchtower/databases/watchtower.db" eq_refl).
  vm_compute. auto.
Defined.

(** ** The list of databases of a page *)

Lemma remove_first_perm x l :
  In x l -> Permutation (x :: WebPages.remove_first x l) l.
Proof.
  induction l as [|y l IH]; [intros []|]. simpl.
  destruct (String.eqb y x) eqn:E.
  - apply String.eqb_eq in E. subst y. intros _. apply Permutation_refl.
  - intros [->|Hin]; [rewrite String.eqb_refl in E; discriminate|].
    eapply perm_trans; [apply perm_swap|]. constructor. now apply IH.
Qed.

(** X7.  When [render_custom_template] renders, the [databases] it
    hands to the template are the stripped names of the visible files
    of the database directory, each as often as it is there, with the
    database the page works on in front; that database is a file of the
    directory, and with no [database] parameter it is one that no other
    was modified after.  The [index] lookup never fails: the call
    renders or aborts. *)
Theorem rendered_databases_start_with_the_chosen_one :
  forall (listdir : string -> list string) (getmtime : string -> Z)
         (config : Config) (req : Web.Request),
    let all_dbs := get_all_database_files listdir config in
    WebPages.render_custom_template listdir getmtime config req
    <> WebPages.RaisedValueError /\
    (forall databases,
        WebPages.render_custom_template listdir getmtime config req
        = WebPages.RenderTemplate databases ->
        exists db_filepath,
          WebPages.chosen_database listdir getmtime config req = Some db_filepath /\
          In db_filepath all_dbs /\
          hd_error databases = Some (Helpers.strip_filename db_filepath) /\
          Permutation databases (map Helpers.strip_filename all_dbs) /\
          (Web.empty_to_none (Web.values_get req "database") = None ->
           forall g, In g all_dbs -> (getmtime g <= getmtime db_filepath)%Z)).
Proof.
  intros listdir getmtime config req all_dbs.
  unfold WebPages.render_custom_template. fold all_dbs.
  destruct (WebPages.chosen_database listdir getmtime config req)
    as [db_filepath|] eqn:Ec.
  2:{ split; [destruct (Web.empty_to_none _); discriminate|].
      intros databases. destruct (Web.empty_to_none _); discriminate. }
  destruct (negb (nonempty db_filepath) || negb (mem db_filepath all_dbs)) eqn:Eb.
  { split; [destruct (Web.empty_to_none _); discriminate|].
    intros databases. destruct (Web.empty_to_none _); discriminate. }
  apply orb_false_elim in Eb as (_ & Hm).
  apply negb_false_iff, mem_In in Hm.
  assert (Hin : In (Helpers.strip_filename db_filepath)
                   (map Helpers.strip_filename all_dbs)) by now apply in_map.
  rewrite (proj2 (mem_In _ _) Hin).
  split; [discriminate|].
  intros databases [= <-]. exists db_filepath.
  split; [reflexivity|]. split; [exact Hm|]. split; [reflexivity|].
  split; [now apply remove_first_perm|].
  intros Hnone g Hg. unfold WebPages.chosen_database in Ec.
  rewrite Hnone in Ec. fold all_dbs in Ec.
  pose proof (last_item_spec getmtime all_dbs) as Hl.
  destruct all_dbs as [|a l] eqn:Ea; [discriminate|].
  rewrite Ec in Hl. now apply Hl.
Qed.

Lemma rendered_databases_start_with_the_chosen_one_witness :
  WebPages.render_custom_template example_listdir example_getmtime
                                  example_config [("database", "lab")]
  = WebPages.RenderTemplate ["lab"; "watchtower"] /\
  Permutation ["lab"; "watchtower"]
    (map Helpers.strip_filename
         (get_all_database_files example_listdir example_config)).
Proof.
  split; [reflexivity|].
  destruct (proj2 (rendered_databases_start_with_the_chosen_one
                     example_listdir example_getmtime example_config
                     [("database", "lab")])
                  ["lab"; "watchtower"] eq_refl)
    as (f & _ & _ & _ & Hp & _).
  exact Hp.
Defined.

(** ** Command-line arguments *)

Lemma check_modules_ok config modules :
  check_modules config modules = Continue tt ->
  forall m, In m modules -> In m (sections config).
Proof.
  induction modules as [|a l IH]; simpl; [intros _ m []|].
  destruct (mem a (get_all_modules config)) eqn:E; [|discriminate].
  intros H m [<-|Hm]; [now apply mem_In|now apply IH].
Qed.

Lemma normalize_files_ok path_exists config files : forall l,
  normalize_files path_exists config files = Continue l ->
  l = map (fun f => (cache_dir config ++ "/" ++ basename f)%string) files /\
  forall p, In p l -> path_exists p = true.
Proof.
  induction files as [|f files IH]; simpl; intros l.
  - intros [= <-]. split; [reflexivity|intros p []].
  - destruct (path_exists _) eqn:E; [|discriminate].
    destruct (normalize_files path_exists config files) as [l'|why];
      [|discriminate].
    simpl. intros [= <-]. destruct (IH l' eq_refl) as (-> & Hall).
    split; [reflexivity|]. intros p [<-|Hp]; [exact E|now apply Hall].
Qed.

Ltac stage H E :=
  match type of H with
  | cli_bind ?m _ = _ =>
      destruct m eqn:E; [|discriminate H]; cbn [cli_bind] in H
  end.

(** X8.  When [_validate_and_normalize_args] lets a command go ahead:
    the name and the force flag are as given, and a name that is given
    matches the name pattern; a database that is given has become its
    path in the database directory, and that path exists; the modules
    that are given have become the same modules without duplicates, all
    of them sections of the configuration; the files that are given
    have become existing paths in the cache directory, one for every
    base name among them, without duplicates. *)
Theorem normalized_arguments :
  forall (path_exists : string -> bool) (config : Config)
         (args args' : Namespace),
    validate_and_normalize_args path_exists config args = Continue args' ->
    ns_name args' = ns_name args /\
    ns_force args' = ns_force args /\
    (forall name, given (ns_name args) = Some name ->
                  match_ARG_NAME name = true) /\
    match given (ns_database args) with
    | Some database =>
        ns_database args' = Some (get_database_filepath config database) /\
        path_exists (get_database_filepath config database) = true
    | None => ns_database args' = ns_database args
    end /\
    match given_list (ns_modules args) with
    | Some modules =>
        exists modules',
          ns_modules args' = Some modules' /\ NoDup modules' /\
          (forall m, In m modules' <-> In m modules) /\
          (forall m, In m modules' -> In m (sections config))
    | None => ns_modules args' = ns_modules args
    end /\
    match given_list (ns_files args) with
    | Some files =>
        exists files',
          ns_files args' = Some files' /\ NoDup files' /\
          (forall p, In p files' <->
                     exists f, In f files /\
                               p = (cache_dir config ++ "/" ++ basename f)%string) /\
          (forall p, In p files' -> path_exists p = true)
    | None => ns_files args' = ns_files args
    end.
Proof.
  intros path_exists config args args' H.
  unfold validate_and_normalize_args in H.
  stage H E1. stage H E2. stage H E3. stage H E4.
  injection H as <-. cbn [ns_name ns_force ns_database ns_modules ns_files].
  split; [reflexivity|]. split; [reflexivity|].
  split.
  { intros name Hn. rewrite Hn in E1.
    destruct (match_ARG_NAME name); [reflexivity|discriminate]. }
  split.
  { destruct (given (ns_database args)) as [database|].
    - destruct (path_exists _) eqn:Ep; [|discriminate].
      injection E2 as <-. auto.
    - now injection E2 as <-. }
  split.
  { destruct (given_list (ns_modules args)) as [modules|].
    - destruct (check_modules config modules) as [[]|] eqn:Ec; [|discriminate].
      cbn [cli_bind] in E3. injection E3 as <-.
      exists (remove_duplicates modules).
      split; [reflexivity|]. split; [apply remove_duplicates_NoDup|].
      split; [intros m; apply remove_duplicates_In|].
      intros m Hm. apply (check_modules_ok config modules Ec).
      now apply remove_duplicates_In.
    - now injection E3 as <-. }
  destruct (given_list (ns_files args)) as [files|].
  - destruct (normalize_files path_exists config files) as [l|] eqn:Enf;
      [|discriminate].
    cbn [cli_bind] in E4. injection E4 as <-.
    destruct (normalize_files_ok path_exists config files l Enf) as (Hl & Hex).
    exists (remove_duplicates l).
    split; [reflexivity|]. split; [apply remove_duplicates_NoDup|].
    split.
    + intros p. rewrite remove_duplicates_In, Hl, in_map_iff.
      split; intros (f & H1 & H2); exists f; auto.
    + intros p Hp. apply Hex. now apply remove_duplicates_In.
  - now injection E4 as <-.
Qed.

Lemma normalized_arguments_witness :
  validate_and_normalize_args example_exists example_config example_args
  = Continue example_args_normalized /\
  ns_force example_args_normalized = ns_force example_args.
Proof.
  split; [reflexivity|].
  apply (normalized_arguments example_exists example_config example_args
                              example_args_normalized eq_refl).
Defined.

(** ** Creating a database *)

Lemma assoc_app_r {V} (d d' : list (string * V)) k :
  assoc k d = None -> assoc k (d ++ d') = assoc k d'.
Proof.
  induction d as [|[k' v'] d IH]; simpl; [reflexivity|].
  destruct (String.eqb k k'); [discriminate|exact IH].
Qed.

Lemma assoc_remove_file_same path (disk : Disk) :
  assoc path (remove_file path disk) = None.
Proof.
  induction disk as [|[p s] disk IH]; simpl; [reflexivity|].
  destruct (String.eqb p path) eqn:E; simpl; [exact IH|].
  rewrite String.eqb_sym, E. exact IH.
Qed.

Lemma assoc_remove_file_other path p (disk : Disk) :
  p <> path -> assoc p (remove_file path disk) = assoc p disk.
Proof.
  intros Hne. induction disk as [|[q s] disk IH]; simpl; [reflexivity|].
  destruct (String.eqb q path) eqn:E; simpl.
  - apply String.eqb_eq in E. subst q.
    apply String.eqb_neq in Hne. now rewrite Hne.
  - now rewrite IH.
Qed.

Lemma assoc_snoc_other {V} (d : list (string * V)) k k' v :
  k' <> k -> assoc k' (d ++ [(k, v)]) = assoc k' d.
Proof.
  intros Hne. induction d as [|[q s] d IH]; simpl.
  - apply String.eqb_neq in Hne. now rewrite Hne.
  - destruct (String.eqb k' q); [reflexivity|exact IH].
Qed.

Lemma arg_chars_plain name :
  all_chars is_arg_char name = true ->
  free_of "/"%char name = true /\ free_of "."%char name = true.
Proof.
  intros H. split; revert H; apply all_chars_impl; intros c Hc;
    apply negb_true_iff; apply Ascii.eqb_neq; intros ->; discriminate.
Qed.

(** X9.  [db create] never overwrites a database unless forced: when
    the file is there and [--force] is not given, it exits and the files
    are as they were.  Otherwise the file holds an empty database
    afterwards.  In both cases every other database file is as it was.
    For a name of lowercase letters, digits and underscores, the file
    created is the one that [-d] with that name resolves to. *)
Theorem db_create_spares_databases :
  forall (config : Config) (disk : Disk) (args : Namespace),
    let db_name := match given (ns_name args) with
                   | Some name => name
                   | None => "watchtower"
                   end in
    let db := (database_dir config ++ "/" ++ db_name ++ "."
                            ++ database_ext config)%string in
    let out := db_create config disk args in
    (assoc db disk <> None -> ns_force args = false ->
     out = (disk, [], Some (DatabaseAlreadyExists db))) /\
    (assoc db disk = None \/ ns_force args = true ->
     out = (fst (fst out), [DatabaseCreated (basename db)], None) /\
     assoc db (fst (fst out)) = Some []) /\
    (forall p, p <> db -> assoc p (fst (fst out)) = assoc p disk) /\
    (all_chars is_arg_char db_name = true ->
     get_database_filepath config db_name = db).
Proof.
  intros config disk args db_name db out.
  assert (Hout : out = match assoc db disk with
                       | Some _ =>
                           if ns_force args
                           then (remove_file db disk ++ [(db, [])],
                                 [DatabaseCreated (basename db)], None)
                           else (disk, [], Some (DatabaseAlreadyExists db))
                       | None => (disk ++ [(db, [])],
                                  [DatabaseCreated (basename db)], None)
                       end) by reflexivity.
  clearbody out. subst out.
  split; [|split; [|split]].
  - intros He Hf. destruct (assoc db disk); [|congruence]. now rewrite Hf.
  - intros H. destruct (assoc db disk) as [s|] eqn:E.
    + destruct H as [H|H]; [discriminate|]. rewrite H. simpl.
      split; [reflexivity|].
      rewrite assoc_app_r by apply assoc_remove_file_same.
      simpl. now rewrite String.eqb_refl.
    + simpl. split; [reflexivity|].
      rewrite assoc_app_r by exact E. simpl. now rewrite String.eqb_refl.
  - intros p Hp. destruct (assoc db disk) as [s|] eqn:E.
    + destruct (ns_force args); simpl; [|reflexivity].
      rewrite assoc_snoc_other by exact Hp.
      now apply assoc_remove_file_other.
    + simpl. now apply assoc_snoc_other.
  - intros Hn. apply arg_chars_plain in Hn as (Hs & Hd).
    unfold get_database_filepath. now rewrite strip_filename_plain.
Qed.

Lemma db_create_spares_databases_witness :
  db_create example_config example_disk
            (mkNamespace (Some "lab") None None None false)
  = (example_disk, [],
     Some (DatabaseAlreadyExists "/opt/watchtower/databases/lab.db")) /\
  get_database_filepath example_config "lab"
  = "/opt/watchtower/databases/lab.db".
Proof.
  pose proof (db_create_spares_databases example_config example_disk
                (mkNamespace (Some "lab") None None None false))
    as (H1 & _ & _ & H4).
  split.
  - apply H1; [discriminate|reflexivity].
  - apply H4. reflexivity.
Defined.

(** ** The validator, again *)

Lemma validate_rows_iff table l :
  validate_rows table l = Ok tt <-> forallb is_dict l = true.
Proof.
  induction l as [|r l IH]; simpl; [tauto|].
  destruct (is_dict r); simpl; [exact IH|]. split; discriminate.
Qed.

Lemma validate_rows_part_iff name (rows : PyVal) :
  (if negb (truthy rows) then Raise (AssertionError (RowsMissing name))
   else match rows with
        | PList l => validate_rows name l
        | _ => Raise (AssertionError (RowsNotList name))
        end) = Ok tt <->
  match rows with
  | PList (row :: rows) => forallb is_dict (row :: rows)
  | _ => false
  end = true.
Proof.
  destruct rows as [|b|z|s|i|i|l|dd]; simpl; try (split; discriminate);
    try (match goal with
         | |- context [if ?c then _ else _] => destruct c
         end; split; discriminate).
  destruct l as [|r l]; [simpl; split; discriminate|].
  apply validate_rows_iff.
Qed.

Lemma validate_table_iff tables name :
  validate_table tables name = Ok tt <-> acceptable_table tables name = true.
Proof.
  unfold acceptable_table.
  destruct (dict_get tables name) as [| | | | | | |sp] eqn:E.
  8:{ rewrite (validate_table_unfold tables name sp E).
      destruct (String.eqb name "imports"); simpl; [split; discriminate|].
      destruct (Regex.match_FTS_TABLE name); simpl; [split; discriminate|].
      destruct (truthy (dict_get sp "pk")); simpl.
      - destruct (is_str (dict_get sp "pk")); simpl; [|split; discriminate].
        apply validate_rows_part_iff.
      - apply validate_rows_part_iff. }
  all: unfold validate_table; rewrite E;
    destruct (String.eqb name "imports"); simpl; [split; discriminate|];
    destruct (Regex.match_FTS_TABLE name); simpl; split; discriminate.
Qed.

(** X10.  The validator lets a response pass exactly when it is a dict
    whose [tables] is a non-empty dict in which every table entry is
    acceptable: not named [imports] or like a full-text table, a dict
    itself, with a [pk] that is falsy or a string and with [rows] a
    non-empty list of dicts. *)
Theorem validator_accepts_exactly_well_formed_responses :
  forall d : PyVal,
    validate_module_response d = Ok tt <->
    exists dd t,
      d = PDict dd /\ dict_get dd "tables" = PDict t /\ t <> [] /\
      forall name, In name (map fst t) -> acceptable_table t name = true.
Proof.
  intros d. rewrite validate_module_response_unfold. split.
  - destruct (truthy d) eqn:Ed; simpl; [|discriminate].
    destruct d as [| | | | | | |dd]; try discriminate.
    destruct (truthy (dict_get dd "tables")) eqn:Et; simpl; [|discriminate].
    destruct (dict_get dd "tables") as [| | | | | | |t] eqn:E; try discriminate.
    intros H. exists dd, t. split; [reflexivity|]. split; [exact E|].
    split; [destruct t; [discriminate Et|discriminate]|].
    intros name Hn. apply validate_table_iff.
    now apply (proj1 (validate_tables_ok t (map fst t)) H).
  - intros (dd & t & -> & Ht & Hne & Hall).
    assert (Hdd : truthy (PDict dd) = true).
    { destruct dd; [discriminate Ht|reflexivity]. }
    rewrite Hdd, Ht. simpl.
    destruct t as [|e t]; [congruence|]. simpl negb. cbv iota.
    apply validate_tables_ok. intros name Hn.
    apply validate_table_iff. now apply Hall.
Qed.

Lemma validator_accepts_exactly_well_formed_responses_witness :
  validate_module_response devices_v1 = Ok tt /\
  exists dd t,
    devices_v1 = PDict dd /\ dict_get dd "tables" = PDict t /\ t <> [] /\
    forall name, In name (map fst t) -> acceptable_table t name = true.
Proof.
  split; [reflexivity|].
  apply (proj1 (validator_accepts_exactly_well_formed_responses devices_v1)).
  reflexivity.
Defined.

Lemma validate_table_never_not_dict tables name t :
  validate_table tables name <> Raise (AssertionError (TableNotDict t)).
Proof.
  destruct (dict_get tables name) as [| | | | | | |sp] eqn:E.
  8:{ rewrite (validate_table_unfold tables name sp E).
      destruct (String.eqb name "imports"); [discriminate|].
      destruct (Regex.match_FTS_TABLE name); [discriminate|].
      destruct (_ && _); [discriminate|].
      destruct (negb _); [discriminate|].
      destruct (dict_get sp "rows") as [| | | | | |l|]; try discriminate.
      induction l as [|r l IH]; simpl; [discriminate|].
      destruct (is_dict r); simpl; [exact IH|discriminate]. }
  all: unfold validate_table; rewrite E;
    destruct (String.eqb name "imports"); simpl; [discriminate|];
    destruct (Regex.match_FTS_TABLE name); simpl; discriminate.
Qed.

(** X11.  The validator never reports that a table entry is not a
    dict: [pk] is asked of the entry before its type is checked, so an
    entry that is no dict (a list, a string, [None]) under a name that
    is not reserved ends the validation with [AttributeError].
    [import_file] does not catch that: it writes no message and changes
    nothing, and the exception leaves it. *)
Theorem table_that_is_no_dict_raises_attribute_error :
  (forall d t,
      validate_module_response d <> Raise (AssertionError (TableNotDict t))) /\
  (forall tables name,
      name <> "imports" -> Regex.match_FTS_TABLE name = false ->
      is_dict (dict_get tables name) = false ->
      validate_table tables name = Raise AttributeError) /\
  (forall json_dumps db now f force d,
      data f = Some d ->
      validate_module_response d = Raise AttributeError ->
      import_file json_dumps db now f force = (db, [], Raise AttributeError)).
Proof.
  split; [|split].
  - intros d t. rewrite validate_module_response_unfold.
    destruct (negb (truthy d)); [discriminate|].
    destruct d as [| | | | | | |dd]; try discriminate.
    destruct (negb _); [discriminate|].
    destruct (dict_get dd "tables") as [| | | | | | |tb]; try discriminate.
    generalize (map fst tb) as l.
    induction l as [|n l IH]; simpl; [discriminate|].
    pose proof (validate_table_never_not_dict tb n t) as Hn.
    destruct (validate_table tb n) as [[]|e]; simpl; [exact IH|congruence].
  - intros tables name Hi Hf Hd. unfold validate_table.
    apply String.eqb_neq in Hi. rewrite Hi, Hf. simpl.
    destruct (dict_get tables name); try reflexivity. discriminate.
  - intros jd db now f force d Hd Hv. unfold import_file.
    now rewrite Hd, Hv.
Qed.

Lemma table_that_is_no_dict_raises_attribute_error_witness :
  validate_table [("devices", PList [good_row])] "devices" = Raise AttributeError /\
  import_file no_json store_a "2020-05-22 18:49:18"
              (mkCacheFile "/cache/devices_1590173362.10.json" "c3ab8ff1"
                           (Some table_as_list)) false
  = (store_a, [], Raise AttributeError).
Proof.
  destruct table_that_is_no_dict_raises_attribute_error as (_ & H2 & H3).
  split.
  - apply H2; [discriminate|reflexivity|reflexivity].
  - apply H3 with (d := table_as_list); reflexivity.
Defined.

(** ** The tables of a store *)

Lemma table_exists_dict_set (db : Store) n t k :
  table_exists (dict_set db n t) k = table_exists db k || String.eqb k n.
Proof.
  unfold table_exists. destruct (String.eqb k n) eqn:E.
  - apply String.eqb_eq in E. subst k. rewrite assoc_dict_set_same.
    now rewrite orb_true_r.
  - apply String.eqb_neq in E. rewrite assoc_dict_set_other by congruence.
    now rewrite orb_false_r.
Qed.

Lemma table_exists_In (db : Store) k :
  table_exists db k = true <-> In k (map fst db).
Proof.
  unfold table_exists. induction db as [|[n t] db IH]; simpl.
  - split; [discriminate|tauto].
  - destruct (String.eqb k n) eqn:E.
    + apply String.eqb_eq in E. subst. split; auto.
    + rewrite IH. apply String.eqb_neq in E. split; [auto|].
      intros [H|H]; [congruence|exact H].
Qed.

Lemma validated_names d k :
  validate_module_response d = Ok tt ->
  In k (keys (get d "tables")) ->
  k <> "imports" /\ Regex.match_FTS_TABLE k = false.
Proof.
  rewrite validate_module_response_unfold.
  destruct (negb (truthy d)); [discriminate|].
  destruct d as [| | | | | | |dd]; try discriminate.
  destruct (negb _); [discriminate|]. simpl get.
  destruct (dict_get dd "tables") as [| | | | | | |t]; try discriminate.
  intros Hv Hk. simpl in Hk.
  apply (proj1 (validate_tables_ok t (map fst t)) Hv) in Hk.
  apply validate_table_iff in Hk. unfold acceptable_table in Hk.
  apply andb_prop in Hk as (Hk & _). apply andb_prop in Hk as (H1 & H2).
  apply negb_true_iff in H1, H2. split; [|exact H2].
  now apply String.eqb_neq.
Qed.

Section Tables.

Variable json_dumps : PyVal -> string.

Lemma import_tables_tables tables import_id names : forall db k,
  let db' := fst (fst (import_tables json_dumps db import_id tables names)) in
  (table_exists db k = true -> table_exists db' k = true) /\
  (table_exists db' k = true -> table_exists db k = true \/ In k names).
Proof.
  induction names as [|n names IH]; intros db k; simpl; [tauto|].
  destruct (import_table_spec json_dumps db import_id tables n)
    as (t & log & r & E & _). rewrite E.
  pose proof (table_exists_dict_set db n t k) as Hs.
  destruct r as [[]|e]; simpl.
  - specialize (IH (dict_set db n t) k).
    destruct (import_tables json_dumps (dict_set db n t) import_id tables names)
      as [[db2 log2] r2]. simpl in *.
    destruct IH as (IH1 & IH2). rewrite Hs in IH1, IH2. split.
    + intros H. apply IH1. now rewrite H.
    + intros H. destruct (IH2 H) as [H'|H']; [|auto].
      apply orb_prop in H' as [H'|H']; [auto|].
      apply String.eqb_eq in H'. auto.
  - rewrite Hs. split; [intros ->; reflexivity|].
    intros H. apply orb_prop in H as [H|H]; [auto|].
    apply String.eqb_eq in H. auto.
Qed.

Lemma ensure_imports_table_tables db row k :
  table_exists (fst (ensure_imports_table db row)) k
  = table_exists db k || String.eqb k imports_table_name.
Proof.
  unfold ensure_imports_table.
  destruct (assoc imports_table_name db) as [t|] eqn:E; simpl.
  - destruct (String.eqb k imports_table_name) eqn:Ek;
      [|now rewrite orb_false_r].
    apply String.eqb_eq in Ek. subst k. unfold table_exists. now rewrite E.
  - apply table_exists_dict_set.
Qed.

Lemma insert_import_row_tables db row k :
  table_exists (fst (insert_import_row json_dumps db row)) k
  = table_exists db k.
Proof.
  unfold insert_import_row.
  destruct (assoc imports_table_name db) as [t|] eqn:E; simpl; [|reflexivity].
  rewrite table_exists_dict_set.
  destruct (String.eqb k imports_table_name) eqn:Ek;
    [|now rewrite orb_false_r].
  apply String.eqb_eq in Ek. subst k. unfold table_exists. now rewrite E.
Qed.

(** The tables after an import: those before it, the reserved table,
    and tables of a response that passed the validator. *)
Lemma import_file_tables db now f force k :
  let db' := fst (fst (import_file json_dumps db now f force)) in
  (table_exists db k = true -> table_exists db' k = true) /\
  (table_exists db' k = true ->
   table_exists db k = true \/ k = imports_table_name \/
   exists d, data f = Some d /\ validate_module_response d = Ok tt /\
             In k (keys (get d "tables"))).
Proof.
  unfold import_file.
  destruct (data f) as [d|]; [|simpl; tauto].
  destruct (validate_module_response d) as [[]|e] eqn:Hv.
  2:{ destruct e; simpl; tauto. }
  pose proof (ensure_imports_table_tables db (import_row now f) k) as H1.
  destruct (ensure_imports_table db (import_row now f)) as [db1 log1].
  simpl in H1.
  assert (Hdb1 : (table_exists db k = true -> table_exists db1 k = true) /\
                 (table_exists db1 k = true ->
                  table_exists db k = true \/ k = imports_table_name)).
  { rewrite H1. split; [intros ->; reflexivity|].
    intros H. apply orb_prop in H as [H|H]; [auto|].
    apply String.eqb_eq in H. auto. }
  destruct (_ && _); [simpl; tauto|].
  pose proof (insert_import_row_tables db1 (import_row now f) k) as H2.
  destruct (insert_import_row json_dumps db1 (import_row now f)) as [db2 id].
  simpl in H2.
  pose proof (import_tables_tables (get d "tables") id
                (keys (get d "tables")) db2 k) as H3.
  destruct (import_tables json_dumps db2 id (get d "tables")
                          (keys (get d "tables"))) as [[db3 log3] r].
  simpl in H3. rewrite H2 in H3.
  assert (Hgoal : (table_exists db k = true -> table_exists db3 k = true) /\
                  (table_exists db3 k = true ->
                   table_exists db k = true \/ k = imports_table_name \/
                   exists d0, Some d = Some d0 /\
                              validate_module_response d0 = Ok tt /\
                              In k (keys (get d0 "tables")))).
  { split; [tauto|]. intros H. destruct (proj2 H3 H) as [H'|H'].
    - destruct (proj2 Hdb1 H'); auto.
    - right. right. exists d. auto. }
  destruct r as [[tn []]|]; exact Hgoal.
Qed.

End Tables.

(** X12.  Of the tables that are entries of the store (the tables of
    the full-text indexes go with the table they index): an import
    never takes a table away, and leaves as it was every table that the
    file does not name, the reserved table apart; a file that cannot be
    read leaves the whole store alone.  The tables it adds are the
    reserved table and tables of a response that passed the validator,
    whose names are not of the full-text pattern, so that such names
    stay with the tables of the full-text indexes. *)
Theorem import_keeps_the_other_tables :
  forall json_dumps (db : Store) (now : string) (f : CacheFile) (force : bool),
    let db' := fst (fst (import_file json_dumps db now f force)) in
    (forall k t, assoc k db = Some t -> exists t', assoc k db' = Some t') /\
    (forall k t d,
        data f = Some d ->
        assoc k db = Some t ->
        k <> imports_table_name -> ~ In k (keys (get d "tables")) ->
        assoc k db' = Some t) /\
    (data f = None -> db' = db) /\
    (forall k,
        In k (map fst db') ->
        In k (map fst db) \/ k = imports_table_name \/
        exists d, data f = Some d /\ validate_module_response d = Ok tt /\
                  In k (keys (get d "tables")) /\
                  Regex.match_FTS_TABLE k = false) /\
    (plain_names db -> plain_names db').
Proof.
  intros jd db now f force db'.
  assert (Hadded : forall k,
             In k (map fst db') ->
             In k (map fst db) \/ k = imports_table_name \/
             exists d, data f = Some d /\ validate_module_response d = Ok tt /\
                       In k (keys (get d "tables")) /\
                       Regex.match_FTS_TABLE k = false).
  { intros k Hk. apply table_exists_In in Hk.
    destruct (proj2 (import_file_tables jd db now f force k) Hk)
      as [H|[->|(d & Hd & Hv & Hin)]].
    - left. now apply table_exists_In.
    - right. now left.
    - right. right. exists d.
      destruct (validated_names d k Hv Hin) as [_ Hfts]. auto. }
  split; [|split; [|split; [|split]]].
  - intros k t Hk.
    assert (He : table_exists db' k = true).
    { apply (import_file_tables jd db now f force k).
      unfold table_exists. now rewrite Hk. }
    unfold table_exists in He.
    destruct (assoc k db') as [t'|]; [eauto|discriminate].
  - intros k t d Hd Ht Hk Hn. rewrite <- Ht.
    unfold db', import_file. rewrite Hd.
    destruct (validate_module_response d) as [[]|e] eqn:Hv.
    2:{ destruct e; reflexivity. }
    assert (H1 : assoc k (fst (ensure_imports_table db (import_row now f)))
                 = assoc k db).
    { unfold ensure_imports_table.
      destruct (assoc imports_table_name db); [reflexivity|].
      simpl. apply assoc_dict_set_other. congruence. }
    destruct (ensure_imports_table db (import_row now f)) as [db1 log1].
    simpl in H1.
    destruct (_ && _); [exact H1|].
    assert (H2 : assoc k (fst (insert_import_row jd db1 (import_row now f)))
                 = assoc k db1).
    { unfold insert_import_row.
      destruct (assoc imports_table_name db1); [|reflexivity].
      simpl. apply assoc_dict_set_other. congruence. }
    destruct (insert_import_row jd db1 (import_row now f)) as [db2 id].
    simpl in H2.
    pose proof (import_tables_spec jd (get d "tables") id
                  (keys (get d "tables")) db2) as (_ & _ & H3).
    specialize (H3 k Hn).
    destruct (import_tables jd db2 id (get d "tables") (keys (get d "tables")))
      as [[db3 log3] r]. simpl in H3.
    destruct r as [[tn []]|]; simpl; congruence.
  - intros Hd. unfold db', import_file. now rewrite Hd.
  - exact Hadded.
  - intros Hp k Hk.
    destruct (Hadded k Hk) as [H|[->|(d & _ & _ & _ & H)]];
      [now apply Hp|reflexivity|exact H].
Qed.

(** The services of [file_c] go into the store that holds device 1:
    the devices stay as they are, and the new table has a plain name. *)
Lemma import_keeps_the_other_tables_witness :
  let db' := fst (fst (import_file no_json store_a (clock0 1) file_c false)) in
  assoc "devices" db' = Some devices_table_a /\
  plain_names db'.
Proof.
  intros db'.
  destruct (import_keeps_the_other_tables no_json store_a (clock0 1) file_c false)
    as (_ & H2 & _ & _ & H5).
  split.
  - apply (H2 "devices" devices_table_a services_v1);
      [reflexivity|reflexivity|discriminate|].
    vm_compute. intros [H|[]]. discriminate.
  - apply H5. intros n Hn.
    vm_compute in Hn. destruct Hn as [<-|[<-|[]]]; reflexivity.
Defined.

(** ** Table names *)

Lemma ends_with_append suffix s : ends_with suffix (s ++ suffix) = true.
Proof.
  induction s as [|c s IH]; simpl.
  - destruct suffix; simpl; [reflexivity|].
    now rewrite Ascii.eqb_refl, String.eqb_refl.
  - rewrite IH. apply orb_true_r.
Qed.

Lemma no_newline_append a b :
  no_newline (a ++ b) = no_newline a && no_newline b.
Proof.
  induction a as [|c a IH]; simpl; [reflexivity|].
  now rewrite IH, andb_assoc.
Qed.

Lemma shadow_tables_match table n :
  no_newline table = true -> In n (shadow_tables table) ->
  Regex.match_FTS_TABLE n = true.
Proof.
  intros Hn Hin. unfold Regex.match_FTS_TABLE.
  apply orb_true_intro. left.
  unfold shadow_tables in Hin. simpl in Hin.
  destruct Hin as [<-|[<-|[<-|[<-|[<-|[]]]]]];
    rewrite no_newline_append, Hn; simpl;
    rewrite ?ends_with_append, ?orb_true_r; reflexivity.
Qed.

Lemma assoc_In {V} (d : list (string * V)) k v :
  assoc k d = Some v -> In (k, v) d.
Proof.
  induction d as [|[k' v'] d IH]; simpl; [discriminate|].
  destruct (String.eqb k k') eqn:E.
  - apply String.eqb_eq in E. subst k'. intros [= ->]. now left.
  - intros H. right. auto.
Qed.

(** Every entry of the store is among its table names. *)
Lemma table_names_entries (db : Store) n :
  In n (map fst db) -> In n (table_names db).
Proof.
  intros Hn. unfold table_names. rewrite in_flat_map.
  apply in_map_iff in Hn as (e & <- & He).
  exists e. split; [exact He|now left].
Qed.

(** X13.  On a store whose tables carry names without newline that are
    not of the full-text pattern, [get_tables] with the filter lists
    exactly the tables that are entries of the store: none is hidden,
    and no table of a full-text index is shown.  Without the filter it
    lists those tables as well, and with them the tables of every
    full-text index, which the filter hides. *)
Theorem get_tables_lists_the_stored_tables :
  forall db : Store,
    (forall n, In n (map fst db) -> no_newline n = true) ->
    plain_names db ->
    (forall n, In n (get_tables db true) <-> In n (map fst db)) /\
    (forall n, In n (map fst db) -> In n (get_tables db false)) /\
    (forall table t n,
        assoc table db = Some t -> fts t <> None ->
        In n (shadow_tables table) ->
        In n (get_tables db false) /\ ~ In n (get_tables db true)).
Proof.
  intros db Hnl Hplain.
  assert (Hfiltered : forall n, In n (get_tables db true) <-> In n (map fst db)).
  { intros n. unfold get_tables, table_names.
    rewrite filter_In, in_flat_map. split.
    - intros ((e & He & Hn) & Hf).
      assert (Hex : In (fst e) (map fst db)) by now apply in_map.
      destruct Hn as [<-|Hn]; [exact Hex|].
      destruct (fts (snd e)); [|destruct Hn].
      unfold not_fts_table in Hf.
      rewrite (shadow_tables_match (fst e) n (Hnl _ Hex) Hn) in Hf.
      discriminate.
    - intros Hn. split.
      + apply in_map_iff in Hn as (e & <- & He).
        exists e. split; [exact He|now left].
      + unfold not_fts_table. now rewrite (Hplain n Hn). }
  split; [exact Hfiltered|].
  split.
  - intros n Hn. unfold get_tables. now apply table_names_entries.
  - intros table t n Ht Hfts Hn.
    assert (Hin : In table (map fst db)).
    { apply assoc_In in Ht. now apply (in_map fst) in Ht. }
    split.
    + unfold get_tables, table_names. rewrite in_flat_map.
      exists (table, t). split; [now apply assoc_In|].
      right. simpl. destruct (fts t); [exact Hn|congruence].
    + intros Hshown. apply Hfiltered in Hshown.
      pose proof (shadow_tables_match table n (Hnl _ Hin) Hn) as Hm.
      rewrite (Hplain n Hshown) in Hm. discriminate.
Qed.

Lemma get_tables_lists_the_stored_tables_witness :
  (In "devices" (get_tables store_a true) <-> In "devices" (map fst store_a)) /\
  In "devices_fts" (get_tables store_a false) /\
  ~ In "devices_fts" (get_tables store_a true).
Proof.
  destruct (get_tables_lists_the_stored_tables store_a) as (H1 & _ & H3).
  - intros n Hn. vm_compute in Hn.
    destruct Hn as [<-|[<-|[]]]; reflexivity.
  - intros n Hn. vm_compute in Hn.
    destruct Hn as [<-|[<-|[]]]; reflexivity.
  - split; [apply H1|].
    apply (H3 "devices" devices_table_a "devices_fts").
    + reflexivity.
    + discriminate.
    + now left.
Defined.

(** ** Columns, indexes and the full-text index of an imported table *)














(** ** Import Records *)

Section Records.

Variable json_dumps : PyVal -> string.

Lemma insert_import_row_record db now f t :
  assoc imports_table_name db = Some t ->
  pk t = Some "id" ->
  assoc "id" (columns t) = Some INTEGER ->
  assoc "sha1" (columns t) = Some TEXT ->
  exists t' record,
    insert_import_row json_dumps db (import_row now f)
    = (dict_set db imports_table_name t', next_rowid "id" (rows t)) /\
    rows t' = rows t ++ [record] /\
    row_get record "sha1" = VText (sha1 f) /\
    row_get record "id" = VInt (next_rowid "id" (rows t)) /\
    pk t' = Some "id" /\
    assoc "id" (columns t') = Some INTEGER /\
    assoc "sha1" (columns t') = Some TEXT.
Proof.
  intros Ht Hpk Hid Hsha.
  unfold insert_import_row. rewrite Ht.
  unfold insert_all.
  set (t1 := add_missing_columns t [import_row now f]).
  assert (Hid1 : assoc "id" (columns t1) = Some INTEGER)
    by (apply assoc_app_l; exact Hid).
  assert (Hsha1 : assoc "sha1" (columns t1) = Some TEXT)
    by (apply assoc_app_l; exact Hsha).
  simpl map. simpl insert_rows. unfold insert_or_replace.
  replace (pk t1) with (Some "id") by (symmetry; exact Hpk).
  rewrite Hid1.
  rewrite (row_get_to_row json_dumps t1 _ "id" INTEGER Hid1).
  simpl.
  eexists _, _. split; [reflexivity|]. simpl.
  split; [reflexivity|].
  split.
  { unfold row_get. rewrite assoc_dict_set_other by discriminate.
    fold (row_get (to_row json_dumps t1 (import_row now f)) "sha1").
    rewrite (row_get_to_row json_dumps t1 _ "sha1" TEXT Hsha1). reflexivity. }
  split; [apply row_get_dict_set|]. auto.
Qed.

Lemma ensure_imports_table_records db now f :
  imports_ok db ->
  let db1 := fst (ensure_imports_table db (import_row now f)) in
  exists t,
    assoc imports_table_name db1 = Some t /\
    pk t = Some "id" /\
    assoc "id" (columns t) = Some INTEGER /\
    assoc "sha1" (columns t) = Some TEXT /\
    rows t = import_records db.
Proof.
  unfold imports_ok, ensure_imports_table, import_records.
  destruct (assoc imports_table_name db) as [t|] eqn:E; simpl.
  - intros (H1 & H2 & H3). exists t. rewrite E. repeat split; auto.
  - intros _. eexists. rewrite assoc_dict_set_same.
    split; [reflexivity|]. repeat split.
Qed.

End Records.

(** X16.  An import that is not skipped (the content hash is not on
    record, or [force] is given) of a file that validates adds exactly
    one Import Record, after the ones that were there: it carries the
    hash of the file and an id above every id on record.  So a forced
    import of a file imported before leaves one more record of its hash
    than there was. *)
Theorem import_adds_one_record :
  forall json_dumps (db : Store) (now : string) (f : CacheFile) (force : bool)
         (d : PyVal),
    data f = Some d ->
    validate_module_response d = Ok tt ->
    imports_ok db ->
    force = true \/ rows_where_sha1 db (sha1 f) = [] ->
    let db' := fst (fst (import_file json_dumps db now f force)) in
    exists record id,
      import_records db' = import_records db ++ [record] /\
      row_get record "sha1" = VText (sha1 f) /\
      row_get record "id" = VInt id /\
      (forall old z, In old (import_records db) ->
                     row_get old "id" = VInt z -> (z < id)%Z) /\
      List.length (rows_where_sha1 db' (sha1 f))
      = S (List.length (rows_where_sha1 db (sha1 f))) /\
      imports_ok db'.
Proof.
  intros jd db now f force d Hd Hv Hok Hgo db'.
  pose proof (ensure_imports_table_records db now f Hok)
    as (t & Ht & Hpk & Hid & Hsha & Hrows).
  unfold db', import_file. rewrite Hd, Hv.
  destruct (ensure_imports_table db (import_row now f)) as [db1 log1].
  simpl in Ht.
  assert (Hsame : rows_where_sha1 db1 (sha1 f) = rows_where_sha1 db (sha1 f)).
  { unfold rows_where_sha1. rewrite Ht, Hrows. unfold import_records.
    now destruct (assoc imports_table_name db). }
  assert (Hcond : negb (Nat.eqb (List.length (rows_where_sha1 db1 (sha1 f))) 0)
                  && negb force = false).
  { destruct Hgo as [->|Hn]; [apply andb_false_r|].
    now rewrite Hsame, Hn. }
  rewrite Hcond.
  destruct (insert_import_row_record jd db1 now f t Ht Hpk Hid Hsha)
    as (t' & record & -> & Hrows' & Hrec & Hrid & Hpk' & Hid' & Hsha').
  pose proof (import_tables_spec jd (get d "tables")
                (next_rowid "id" (rows t)) (keys (get d "tables"))
                (dict_set db1 imports_table_name t')) as (_ & _ & Hkeep).
  specialize (Hkeep imports_table_name (validated_keys d Hv)).
  rewrite assoc_dict_set_same in Hkeep.
  assert (Hgoal : forall db3,
             assoc imports_table_name db3 = Some t' ->
             exists record id,
               import_records db3 = import_records db ++ [record] /\
               row_get record "sha1" = VText (sha1 f) /\
               row_get record "id" = VInt id /\
               (forall old z, In old (import_records db) ->
                              row_get old "id" = VInt z -> (z < id)%Z) /\
               List.length (rows_where_sha1 db3 (sha1 f))
               = S (List.length (rows_where_sha1 db (sha1 f))) /\
               imports_ok db3).
  { intros db3 H3. exists record, (next_rowid "id" (rows t)).
    unfold import_records at 1. rewrite H3, Hrows', Hrows.
    split; [reflexivity|]. split; [exact Hrec|]. split; [now rewrite <- Hrows|].
    split.
    { intros old z Hold Hz. rewrite <- Hrows in *.
      now apply next_rowid_above with (r := old). }
    split.
    { rewrite <- Hsame. unfold rows_where_sha1. rewrite H3, Ht, Hrows', Hrows.
      rewrite filter_app, length_app. simpl.
      unfold sha1_eqb at 2. rewrite Hrec. simpl. rewrite String.eqb_refl.
      simpl. lia. }
    unfold imports_ok. rewrite H3. auto. }
  destruct (import_tables jd _ _ _ _) as [[db3 log3] [[tn e]|]];
    simpl in Hkeep.
  - destruct e; simpl; now apply Hgoal.
  - simpl. now apply Hgoal.
Qed.

Lemma import_adds_one_record_witness :
  List.length
    (rows_where_sha1
       (fst (fst (import_file no_json store_a (clock0 1) file_a true)))
       (sha1 file_a))
  = S (List.length (rows_where_sha1 store_a (sha1 file_a))).
Proof.
  assert (Hok : imports_ok store_a) by (vm_compute; auto).
  destruct (import_adds_one_record no_json store_a (clock0 1) file_a true
              devices_v1 eq_refl eq_refl Hok (or_introl eq_refl))
    as (record & id & _ & _ & _ & _ & H & _).
  exact H.
Defined.

(** ** Where a stored row comes from *)










Section Provenance.

Variable json_dumps : PyVal -> string.



End Provenance.



(** ** The search engine, again *)

Lemma bind_ok {A B} (m : res A) (k : A -> res B) b :
  bind m k = Ok b -> exists a, m = Ok a /\ k a = Ok b.
Proof. destruct m as [a|e]; simpl; [eauto|discriminate]. Qed.

Lemma assert_columns_all db table cols :
  forallb (column_exists db table) cols = true ->
  assert_columns db table cols = Ok tt.
Proof.
  induction cols as [|c cols IH]; simpl; [reflexivity|].
  intros H. apply andb_prop in H as [-> H]. simpl. auto.
Qed.

Lemma assert_columns_first_missing db table before column after :
  (forall b, In b before -> column_exists db table b = true) ->
  column_exists db table column = false ->
  assert_columns db table (before ++ column :: after)
  = Raise (AssertionError (ColumnNotFound column)).
Proof.
  intros Hb Hc. induction before as [|b before IH]; simpl.
  - now rewrite Hc.
  - rewrite (Hb b (or_introl eq_refl)). simpl. apply IH.
    intros b' Hb'. apply Hb. now right.
Qed.

Lemma table_columns_exist db table :
  forallb (column_exists db table) (get_table_columns db table) = true.
Proof.
  unfold get_table_columns, column_exists.
  destruct (assoc table db) as [t|]; [|reflexivity].
  apply forallb_forall. intros c Hc. now apply mem_In.
Qed.

(** X18.  A search that names no columns ([None] or an empty list) is
    the search over all the columns of the table, named one by one; this
    holds for every argument, the ones the search fails on included. *)
Theorem search_without_columns_is_search_over_all :
  forall (fts_match : string -> Table -> string -> option (Row -> bool))
         (db : Store) (table : string) (query : option string) (order : Z)
         (direction : PyVal) (limit offset : Z),
    search_table fts_match db table None query order direction limit offset
    = search_table fts_match db table (Some (get_table_columns db table))
                   query order direction limit offset /\
    search_table fts_match db table (Some []) query order direction limit offset
    = search_table fts_match db table None query order direction limit offset.
Proof.
  intros fts db table query order direction limit offset.
  split; [|reflexivity].
  unfold search_table.
  destruct (table_exists db table); [|reflexivity]. cbn [assert bind].
  destruct (get_table_columns db table) as [|c cs] eqn:E; [reflexivity|].
  rewrite <- E, (assert_columns_all db table _ (table_columns_exist db table)).
  reflexivity.
Qed.

(** A name that is none of the table names of a store is no entry of
    it. *)
Lemma not_a_table_name (db : Store) table :
  mem table (table_names db) = false -> table_exists db table = false.
Proof.
  intros Hm. destruct (table_exists db table) eqn:E; [|reflexivity].
  apply table_exists_In, table_names_entries, mem_In in E. congruence.
Qed.

(** X19.  [search_table] fails in this order, whatever the other
    arguments are: on a name that is none of the table names of the
    store (those of the full-text indexes included), with the assertion
    that names the table; then, for a table that is an entry of the
    store, on the first requested column that the table lacks, with the
    assertion that names the column; then, with table and columns in
    place, on a direction that is no string, with [AttributeError]. *)
Theorem search_fails_on_table_then_column_then_direction :
  forall (fts_match : string -> Table -> string -> option (Row -> bool))
         (db : Store) (table : string) (query : option string) (order : Z)
         (direction : PyVal) (limit offset : Z),
    (forall columns,
        mem table (table_names db) = false ->
        search_table fts_match db table columns query order direction
                     limit offset
        = Raise (AssertionError (TableNotFound table))) /\
    (forall before column after,
        table_exists db table = true ->
        (forall b, In b before -> column_exists db table b = true) ->
        column_exists db table column = false ->
        search_table fts_match db table (Some (before ++ column :: after))
                     query order direction limit offset
        = Raise (AssertionError (ColumnNotFound column))) /\
    (forall columns,
        table_exists db table = true ->
        columns_exist db table columns = true ->
        is_str direction = false ->
        search_table fts_match db table columns query order direction
                     limit offset
        = Raise AttributeError).
Proof.
  intros fts db table query order direction limit offset.
  split; [|split].
  - intros columns He. unfold search_table.
    now rewrite (not_a_table_name db table He).
  - intros before column after He Hb Hc. unfold search_table. rewrite He.
    cbn [assert bind].
    pose proof (assert_columns_first_missing db table before column after
                  Hb Hc) as Hm.
    destruct (before ++ column :: after) as [|c cs] eqn:E;
      [destruct before; discriminate|].
    now rewrite Hm.
  - intros columns He Hc Hd. unfold search_table. rewrite He.
    cbn [assert bind].
    assert (Hcols : exists cols,
               match columns with
               | Some (c :: cs) =>
                   (assert_columns db table (c :: cs) ;;; Ok (c :: cs))%res
               | _ => Ok (get_table_columns db table)
               end = Ok cols).
    { destruct columns as [[|c cs]|]; eauto.
      simpl in Hc. rewrite (assert_columns_all db table (c :: cs) Hc).
      simpl. eauto. }
    destruct Hcols as (cols & ->). cbn [bind].
    destruct direction; try reflexivity. discriminate.
Qed.

Lemma search_fails_on_table_then_column_then_direction_witness :
  search_table example_fts sample_store "hosts" None None 1 (PStr "ASC") 10 0
  = Raise (AssertionError (TableNotFound "hosts")) /\
  search_table example_fts sample_store "devices" (Some ["mac"; "owner"; "ip"])
               None 1 (PStr "ASC") 10 0
  = Raise (AssertionError (ColumnNotFound "owner")) /\
  search_table example_fts sample_store "devices" (Some ["mac"])
               None 1 (PInt 1) 10 0
  = Raise AttributeError.
Proof.
  destruct (search_fails_on_table_then_column_then_direction
              example_fts sample_store "hosts" None 1 (PStr "ASC") 10 0)
    as (H1 & _ & _).
  destruct (search_fails_on_table_then_column_then_direction
              example_fts sample_store "devices" None 1 (PStr "ASC") 10 0)
    as (_ & H2 & _).
  destruct (search_fails_on_table_then_column_then_direction
              example_fts sample_store "devices" None 1 (PInt 1) 10 0)
    as (_ & _ & H3).
  split; [|split].
  - apply H1. reflexivity.
  - apply (H2 ["mac"] "owner" ["ip"]); [reflexivity| |reflexivity].
    intros b [<-|[]]. reflexivity.
  - apply H3; reflexivity.
Defined.

Lemma dict_set_keys {V} (d : list (string * V)) k v :
  map fst (dict_set d k v) = add_key (map fst d) k.
Proof.
  unfold add_key, mem. induction d as [|[k' v'] d IH]; simpl; [reflexivity|].
  destruct (String.eqb k k') eqn:E; simpl.
  - apply String.eqb_eq in E. now subst.
  - rewrite IH. destruct (existsb (String.eqb k) (map fst d)); reflexivity.
Qed.

Lemma project_keys cols r : map fst (project cols r) = remove_duplicates cols.
Proof.
  unfold project, remove_duplicates.
  change (@nil string) with (map fst (@nil (string * Value))).
  generalize (@nil (string * Value)) as d.
  induction cols as [|c cols IH]; intros d; simpl; [reflexivity|].
  now rewrite IH, dict_set_keys.
Qed.

Lemma page_length limit offset (rs : list Row) :
  List.length (page limit offset rs) <= List.length rs /\
  (forall n, limit = Some n -> (0 < n)%Z ->
             List.length (page limit offset rs) <= Z.to_nat n).
Proof.
  unfold page.
  set (rs' := match offset with
              | Some m => skipn (Z.to_nat m) rs
              | None => rs
              end).
  assert (H : List.length rs' <= List.length rs).
  { unfold rs'. destruct offset; [|lia]. rewrite length_skipn. lia. }
  destruct limit as [n|]; [|split; [exact H|discriminate]].
  destruct (n <? 0)%Z eqn:E.
  - split; [exact H|]. intros n' [= <-] Hn. apply Z.ltb_lt in E. lia.
  - rewrite length_firstn. split; [lia|]. intros n' [= <-] _. lia.
Qed.

(** X20.  Whatever a search returns: the total count is the row count
    of the table; the filtered count is not above it, and is it when
    there is no query; there are no more rows than the filtered count,
    and with a limit above 0 no more than the limit; and every row has
    as its keys the selected columns, each once, in the order in which
    they were first named.  This is stated for a table and columns
    whose names are plain identifiers, for a query of characters below
    128, and for a limit and an offset of 64 bits. *)
Theorem search_result_bounds :
  forall (fts_match : string -> Table -> string -> option (Row -> bool))
         (db : Store) (table : string) (columns : option (list string))
         (query : option string) (order : Z) (direction : PyVal)
         (limit offset : Z) (total_count filtered_count : nat)
         (returned : list Row),
    plain_identifier table = true ->
    forallb plain_identifier (selected_columns db table columns) = true ->
    (forall q, query = Some q -> is_ascii q = true) ->
    fits64 limit = true ->
    fits64 offset = true ->
    search_table fts_match db table columns query order direction limit offset
    = Ok (total_count, filtered_count, returned) ->
    total_count = get_table_count db table /\
    filtered_count <= total_count /\
    (effective_query query = None -> filtered_count = total_count) /\
    List.length returned <= filtered_count /\
    ((0 < limit)%Z -> List.length returned <= Z.to_nat limit) /\
    (forall r, In r returned ->
               map fst r = remove_duplicates (selected_columns db table columns)).
Proof.
  intros fts db table columns query order direction limit offset
         total filtered returned _ _ _ _ _ H.
  unfold search_table in H.
  apply bind_ok in H as ([] & Hex & H).
  assert (Ht : exists t, assoc table db = Some t).
  { unfold assert, table_exists in Hex.
    destruct (assoc table db) as [t|]; [eauto|discriminate]. }
  destruct Ht as (t & Ht).
  apply bind_ok in H as (cols & Hcols & H).
  assert (Hsel : cols = selected_columns db table columns).
  { unfold selected_columns. destruct columns as [[|c cs]|];
      try (now injection Hcols as <-).
    apply bind_ok in Hcols as ([] & _ & Hc). now injection Hc as <-. }
  apply bind_ok in H as (dir & _ & H).
  fold (effective_query query) in H.
  apply bind_ok in H as (fc & Hfc & H).
  apply bind_ok in H as (rs & Hrs & H).
  injection H as <- <- <-.
  unfold execute_select in Hrs.
  cbn [sel_limit sel_offset sel_from sel_match sel_columns sel_order
       sel_direction] in Hrs.
  assert (Hrs' : exists rs0,
             rows_matching fts db table
               (option_map (match_expression cols) (effective_query query))
             = Ok rs0 /\
             rs = map (project cols)
                      (page (clause limit) (clause offset)
                            (order_rows cols order dir rs0))).
  { destruct (clause limit), (clause offset); try discriminate;
      apply bind_ok in Hrs as (rs0 & Hm & Hrs); rewrite Ht in Hrs;
      destruct (negb (forallb _ _)); try discriminate;
      destruct (negb (in_range _ _)); try discriminate;
      injection Hrs as <-; eauto. }
  destruct Hrs' as (rs0 & Hm & ->).
  assert (Hcount : fc = List.length rs0 /\
                   List.length rs0 <= List.length (rows t) /\
                   (effective_query query = None -> rs0 = rows t)).
  { unfold rows_matching in Hm. rewrite Ht in Hm.
    destruct (effective_query query) as [nq|]; cbn [option_map] in *.
    - unfold execute_count, rows_matching in Hfc. rewrite Ht in Hfc.
      destruct (fts table t (match_expression cols nq)) as [p|];
        [|discriminate].
      injection Hm as <-. simpl in Hfc. injection Hfc as <-.
      split; [reflexivity|]. split; [apply filter_length_le|discriminate].
    - injection Hm as <-. injection Hfc as <-.
      unfold get_table_count. rewrite Ht. auto. }
  destruct Hcount as (-> & Hle & Hall).
  assert (Hord : List.length (order_rows cols order dir rs0) = List.length rs0).
  { unfold order_rows. apply sort_by_length. }
  destruct (page_length (clause limit) (clause offset)
                        (order_rows cols order dir rs0)) as (Hp1 & Hp2).
  unfold get_table_count. rewrite Ht.
  split; [reflexivity|]. split; [exact Hle|].
  split; [intros Hq; now rewrite (Hall Hq)|].
  rewrite length_map.
  split; [lia|]. split.
  - intros Hl. apply (Hp2 limit); [|exact Hl].
    unfold clause. destruct (Z.eqb_spec limit 0); [lia|reflexivity].
  - intros r Hr. apply in_map_iff in Hr as (r0 & <- & _).
    rewrite <- Hsel. apply project_keys.
Qed.

Lemma search_result_bounds_witness :
  search_table example_fts sample_store "devices" (Some ["ip"; "mac"; "ip"])
               (Some "10.0.0.5") 1 (PStr "desc") 3 0
  = Ok (50, 1, [[("ip", VText "10.0.0.5"); ("mac", VText "6F:30:7D:44:12:05")]]) /\
  50 = get_table_count sample_store "devices" /\
  map fst [("ip", VText "10.0.0.5"); ("mac", VText "6F:30:7D:44:12:05")]
  = remove_duplicates ["ip"; "mac"; "ip"].
Proof.
  assert (H : search_table example_fts sample_store "devices"
                (Some ["ip"; "mac"; "ip"]) (Some "10.0.0.5") 1 (PStr "desc") 3 0
              = Ok (50, 1, [[("ip", VText "10.0.0.5");
                             ("mac", VText "6F:30:7D:44:12:05")]]))
    by (vm_compute; reflexivity).
  destruct (search_result_bounds example_fts sample_store "devices"
              (Some ["ip"; "mac"; "ip"]) (Some "10.0.0.5") 1 (PStr "desc") 3 0
              50 1 [[("ip", VText "10.0.0.5");
                     ("mac", VText "6F:30:7D:44:12:05")]])
    as (H1 & _ & _ & _ & _ & H6).
  - vm_compute; reflexivity.
  - vm_compute; reflexivity.
  - intros q [= <-]. vm_compute; reflexivity.
  - vm_compute; reflexivity.
  - vm_compute; reflexivity.
  - exact H.
  - split; [exact H|]. split; [exact H1|].
    apply H6. now left.
Defined.

(** ** Query normalisation, again *)

Lemma remove_char_gone c s :
  all_chars (fun x => negb (Ascii.eqb x c)) (remove_char c s) = true.
Proof.
  induction s as [|x s IH]; simpl; [reflexivity|].
  destruct (Ascii.eqb x c) eqn:E; simpl; [exact IH|]. now rewrite E.
Qed.

Lemma remove_char_keeps p c s :
  all_chars p s = true -> all_chars p (remove_char c s) = true.
Proof.
  induction s as [|x s IH]; simpl; [reflexivity|].
  intros H. apply andb_prop in H as [Hx H].
  destruct (Ascii.eqb x c); simpl; [auto|]. now rewrite Hx, IH.
Qed.

Lemma clean_keyword_no_dquote k : all_chars not_dquote (clean_keyword k) = true.
Proof.
  unfold clean_keyword. do 5 apply remove_char_keeps. apply remove_char_gone.
Qed.

Lemma phrases_no_dquote q :
  Forall (fun t => all_chars not_dquote t = true) (phrases_of q).
Proof.
  unfold phrases_of. apply Forall_forall. intros t Ht.
  apply in_map_iff in Ht as (s & <- & _). apply remove_char_gone.
Qed.

Lemma keywords_no_dquote s :
  Forall (fun t => all_chars not_dquote t = true) (keywords_of s).
Proof.
  unfold keywords_of. apply Forall_forall. intros t Ht.
  apply in_map_iff in Ht as (k & <- & _). apply clean_keyword_no_dquote.
Qed.

(** X21.  What [normalize_fts_query] returns is a disjunction of quoted
    terms in which no term holds a double quote: every quote of the
    result is one the normalisation put there, around a term, so no
    input closes a term early. *)
Theorem normalized_terms_hold_no_quote :
  forall q out : string,
    normalize_fts_query q = Some out ->
    exists terms,
      terms <> [] /\
      out = quoted (join OR_SEP terms) /\
      Forall (fun t => all_chars not_dquote t = true) terms.
Proof.
  intros q out. unfold normalize_fts_query.
  set (remainder := fold_left (fun q p => str_remove p q) (phrases_of q) q).
  destruct (nonempty (join OR_SEP (phrases_of q ++ keywords_of remainder)))
    eqn:E; [|discriminate].
  intros [= <-]. exists (phrases_of q ++ keywords_of remainder).
  split; [|split; [reflexivity|]].
  - intros H. rewrite H in E. discriminate.
  - apply Forall_app. split; [apply phrases_no_dquote|apply keywords_no_dquote].
Qed.

Lemma normalized_terms_hold_no_quote_witness :
  exists terms,
    terms <> [] /\
    quoted "linux-server-1" = quoted (join OR_SEP terms) /\
    Forall (fun t => all_chars not_dquote t = true) terms.
Proof.
  apply (normalized_terms_hold_no_quote "linux-server-1'").
  vm_compute. reflexivity.
Defined.

Lemma remove_all_from_skip p a : forall rest,
  remove_all_from p (String.length a) (a ++ rest) = remove_all_from p 0 rest.
Proof.
  induction a as [|c a IH]; intros rest; simpl; [|apply IH].
  destruct rest; reflexivity.
Qed.

Lemma starts_with_dquote c p rest :
  not_dquote c = true ->
  starts_with (String c p) (String dquote rest) = false.
Proof.
  unfold not_dquote, is_dquote. intros H. apply negb_true_iff in H.
  simpl. now rewrite H.
Qed.

Lemma str_remove_quoted p :
  p <> "" -> all_chars not_dquote p = true ->
  str_remove p (quoted p) = String dquote (String dquote "").
Proof.
  destruct p as [|c p]; [congruence|]. intros _ H.
  simpl in H. apply andb_prop in H as [Hc _].
  unfold str_remove, quoted.
  cbn [remove_all_from]. rewrite (starts_with_dquote c p _ Hc).
  change (String c p ++ String dquote "")%string
    with (String c (p ++ String dquote "")).
  cbn [remove_all_from].
  change (String c (p ++ String dquote ""))
    with (String c p ++ String dquote "")%string.
  rewrite starts_with_append.
  replace (String.length (String c p) - 1) with (String.length p)
    by (simpl; lia).
  rewrite remove_all_from_skip.
  cbn [remove_all_from]. now rewrite (starts_with_dquote c p "" Hc).
Qed.

(** X22.  A query that is one quoted phrase comes back as it is: for a
    non-empty text without double quote, whatever else it holds (blanks,
    commas, apostrophes), the quoted text normalises to itself.  An
    empty pair of quotes normalises to no filter. *)
Theorem quoted_phrase_is_kept :
  (forall p : string,
      p <> "" -> all_chars not_dquote p = true ->
      normalize_fts_query (quoted p) = Some (quoted p)) /\
  normalize_fts_query (quoted "") = None.
Proof.
  split; [|reflexivity].
  intros p Hne Hp.
  assert (Hph : phrases_of (quoted p) = [p]).
  { pose proof (phrases_of_quoted "" p "" eq_refl Hp) as H.
    cbn [append] in H. rewrite append_nil_r in H. exact H. }
  unfold normalize_fts_query. rewrite Hph. cbn [fold_left].
  rewrite (str_remove_quoted p Hne Hp).
  change (keywords_of (String dquote (String dquote ""))) with (@nil string).
  cbn [app join].
  destruct p as [|c p]; [congruence|]. reflexivity.
Qed.

Lemma quoted_phrase_is_kept_witness :
  normalize_fts_query (quoted "O'Brien, linux server")
  = Some (quoted "O'Brien, linux server").
Proof.
  apply (proj1 quoted_phrase_is_kept); [discriminate|reflexivity].
Defined.

(** ** The search handler, again *)

Section Handler.

Variable fts_match : string -> Table -> string -> option (Row -> bool).

Lemma search_table_int_direction db table columns query order z limit offset :
  exists e,
    search_table fts_match db table columns query order (PInt z) limit offset
    = Raise e.
Proof.
  unfold search_table.
  destruct (table_exists db table); cbn [assert bind]; [|eauto].
  destruct columns as [[|c cs]|]; cbn [bind parse_direction]; eauto.
  destruct (assert_columns db table (c :: cs)) as [[]|e]; cbn [bind]; eauto.
Qed.

End Handler.

(** X23.  A search request that carries a [direction] parameter never
    gets data: the handler turns the parameter into an integer, which
    fails for a text such as [desc], and [search_table] then asks the
    integer for its lower case, which fails as well; the request ends in
    an exception or in a response that reports an error.  The direction
    of a search is only ever the one of [order[0][dir]]. *)
Theorem direction_parameter_never_gives_data :
  forall (fts_match : string -> Table -> string -> option (Row -> bool))
         (env : Web.Env) (req : Web.Request) (direction : string)
         (response : Web.Response),
    Web.empty_to_none (Web.values_get req "direction") = Some direction ->
    Web.global_search fts_match env req = Ok response ->
    Web.error response <> None /\ Web.data response = [].
Proof.
  intros fts env req direction response Hd.
  unfold Web.global_search.
  destruct (Web.new_DataTables req) as [dt|e]; cbn [bind]; [|discriminate].
  destruct (Web.empty_to_none (Web.values_get req "database")) as [db_param|].
  2:{ intros [= <-]. split; [discriminate|reflexivity]. }
  destruct (assoc _ (Web.all_dbs env)) as [db|].
  2:{ intros [= <-]. split; [discriminate|reflexivity]. }
  destruct (Web.empty_to_none (Web.values_get req "table")) as [table|].
  2:{ intros [= <-]. split; [discriminate|reflexivity]. }
  destruct (negb (table_exists db table)).
  { intros [= <-]. split; [discriminate|reflexivity]. }
  destruct (Web.get_table_config _ _ _ _) as [cs|e]; cbn [bind]; [|discriminate].
  destruct (Web.int_param req "order" _) as [order|e]; cbn [bind];
    [|discriminate].
  rewrite Hd.
  destruct (int_or_raise direction) as [z|e]; cbn [bind]; [|discriminate].
  destruct (Web.int_param req "length" _) as [limit|e]; cbn [bind];
    [|discriminate].
  destruct (Web.int_param req "start" _) as [offset|e]; cbn [bind];
    [|discriminate].
  destruct (search_table_int_direction fts db table
              (Some (split_on ","%char cs))
              (Web.empty_to_none (Web.values_get req "query"))
              order z limit offset) as (e & ->).
  intros [= <-]. split; [discriminate|reflexivity].
Qed.

Lemma direction_parameter_never_gives_data_witness :
  Web.global_search example_fts web_env direction_request
  = Ok (Web.mkResponse 1 0 0 [] (Some Web.FetchError)) /\
  Web.error (Web.mkResponse 1 0 0 [] (Some Web.FetchError)) <> None.
Proof.
  assert (H : Web.global_search example_fts web_env direction_request
              = Ok (Web.mkResponse 1 0 0 [] (Some Web.FetchError)))
    by (vm_compute; reflexivity).
  split; [exact H|].
  apply (direction_parameter_never_gives_data
           example_fts web_env direction_request "1" _ eq_refl H).
Defined.

Lemma fold_left_skip {A B} (f : A -> B -> A) (p : B -> bool) (l : list B) :
  forall a,
    (forall b, In b l -> p b = false) ->
    fold_left (fun a b => if p b then f a b else a) l a = a.
Proof.
  induction l as [|b l IH]; intros a H; simpl; [reflexivity|].
  rewrite (H b (or_introl eq_refl)). apply IH.
  intros b' Hb'. apply H. now right.
Qed.

(** X24.  When the configuration has a section for the database and
    that section does not list the table asked for, the handler does
    not answer: looking the table up in the configured columns raises
    [KeyError] before the [try] around the search, although database and
    table exist. *)
Theorem table_missing_from_configuration_raises :
  forall (fts_match : string -> Table -> string -> option (Row -> bool))
         (env : Web.Env) (req : Web.Request) (dt : Web.DataTables)
         (db_param : string) (db : Store) (table : string)
         (tableconfig : list (string * string)),
    Web.new_DataTables req = Ok dt ->
    Web.empty_to_none (Web.values_get req "database") = Some db_param ->
    assoc (Helpers.strip_filename db_param) (Web.all_dbs env) = Some db ->
    Web.empty_to_none (Web.values_get req "table") = Some table ->
    table_exists db table = true ->
    assoc (Helpers.strip_filename db_param) (Web.config env) = Some tableconfig ->
    ~ In table (map fst tableconfig) ->
    Web.global_search fts_match env req = Raise KeyError.
Proof.
  intros fts env req dt db_param db table tableconfig
         Hdt Hdb Hfile Htable Hex Hsec Hnot.
  unfold Web.global_search. rewrite Hdt. cbn [bind].
  rewrite Hdb, Hfile, Htable, Hex. cbn [negb].
  unfold Web.get_table_config. rewrite Hsec.
  rewrite (fold_left_skip
             (fun d kv => dict_set d (fst kv)
                            (Web.normalize_columnstring db (fst kv) (snd kv)))
             (fun kv => String.eqb (fst kv) table)).
  - reflexivity.
  - intros kv Hkv. apply String.eqb_neq. intros E. apply Hnot.
    rewrite <- E. now apply in_map.
Qed.

Lemma table_missing_from_configuration_raises_witness :
  Web.global_search example_fts web_env_devices_only services_request
  = Raise KeyError.
Proof.
  apply (table_missing_from_configuration_raises
           example_fts web_env_devices_only services_request
           (Web.mkDataTables 10 0 1 1 "ASC") "watchtower" sample_store
           "services" [("devices", " mac , ip ")]);
    try reflexivity.
  intros [H|[]]. discriminate.
Defined.

(** ** Configured columns *)







(** ** Running modules *)

Section RunFacts.

Variable dumps : PyVal -> option string.
Variable py_str : PyVal -> string.
Variable lock_of : string -> Lock.
Variable time : nat -> string.
Variable mkstemp : nat -> string.
Variable import_module : string -> Loaded.
Variable config : Config.

Lemma write_file_written files filepath data path text :
  assoc path (fst (write_file lock_of files filepath data)) = Some text ->
  assoc path files = Some text \/ (path = filepath /\ text = data).
Proof.
  unfold write_file. destruct (acquire _ _); simpl; [|auto].
  destruct (String.eqb_spec filepath path) as [->|Hne].
  - rewrite assoc_dict_set_same. intros [= <-]. auto.
  - rewrite assoc_dict_set_other by exact Hne. auto.
Qed.

Lemma not_saved_written st module class output path text :
  assoc path (written (fst (not_saved py_str lock_of mkstemp st module class
                                      output))) = Some text ->
  assoc path (written st) = Some text \/
  (truthy output = true /\ exists n, path = mkstemp n /\ text = py_str output).
Proof.
  unfold not_saved. destruct (truthy output); [|simpl; auto].
  pose proof (write_file_written (written st) (mkstemp (temp_names st))
                                 (py_str output) path text) as H.
  destruct (write_file lock_of (written st) _ _) as [files log].
  simpl in *. intros Hp. destruct (H Hp) as [H'|(-> & ->)]; eauto.
Qed.

Lemma run_class_written st module entry path text :
  assoc path (written (fst (fst (run_class dumps py_str lock_of time mkstemp
                                           config st module entry))))
  = Some text ->
  assoc path (written st) = Some text \/ saved_by_class dumps py_str time mkstemp config module entry path text.
Proof.
  unfold run_class, saved_by_class.
  destruct (snd entry) as [|output]; [simpl; auto|].
  destruct (validate_module_response output) as [[]|e] eqn:Hv.
  - destruct (dumps output) as [data|] eqn:Hd.
    + cbn [written].
      pose proof (write_file_written (written st)
                    (generate_timestamp_filename (time (time_reads st))
                       (cache_dir config) module (cache_ext config))
                    data path text) as H.
      destruct (write_file lock_of (written st) _ data) as [files log].
      simpl in *. intros Hp. destruct (H Hp) as [H'|(-> & ->)]; [auto|].
      right. exists output. split; [reflexivity|]. left. eauto.
    + pose proof (not_saved_written
                    (mkRunState (S (time_reads st)) (temp_names st) (written st))
                    module (fst entry) output path text) as H.
      destruct (not_saved py_str lock_of mkstemp _ module (fst entry) output)
        as [st2 log]. simpl in *.
      intros Hp. destruct (H Hp) as [H'|H']; [auto|].
      right. exists output. auto.
  - destruct e; try (simpl; now auto).
    pose proof (not_saved_written st module (fst entry) output path text) as H.
    destruct (not_saved py_str lock_of mkstemp st module (fst entry) output)
      as [st1 log]. simpl in *.
    intros Hp. destruct (H Hp) as [H'|H']; [auto|].
    right. exists output. auto.
Qed.

Lemma run_classes_written module classes : forall st path text,
  assoc path (written (fst (fst (run_classes dumps py_str lock_of time mkstemp
                                             config st module classes))))
  = Some text ->
  assoc path (written st) = Some text \/
  exists entry, In entry classes /\ saved_by_class dumps py_str time mkstemp config module entry path text.
Proof.
  induction classes as [|entry classes IH]; intros st path text; simpl;
    [auto|].
  pose proof (run_class_written st module entry path text) as H1.
  destruct (run_class dumps py_str lock_of time mkstemp config st module entry)
    as [[st1 log1] [[]|e]]; simpl in *.
  - specialize (IH st1 path text).
    destruct (run_classes dumps py_str lock_of time mkstemp config st1 module
                          classes) as [[st2 log2] r]. simpl in *.
    intros Hp. destruct (IH Hp) as [H|(entry' & Hin & Hs)].
    + destruct (H1 H); eauto.
    + eauto.
  - intros Hp. destruct (H1 Hp); eauto.
Qed.

Lemma run_module_written st module path text :
  assoc path (written (fst (fst (run_module dumps py_str lock_of time mkstemp
                                            import_module config st module))))
  = Some text ->
  assoc path (written st) = Some text \/
  saved_by_run dumps py_str time mkstemp import_module config [module]
               path text.
Proof.
  unfold run_module.
  destruct (match_ARG_NAME module) eqn:Em; [|simpl; auto]. cbn [negb].
  destruct (String.eqb_spec module "test") as [->|Hne]; [simpl; auto|].
  destruct (import_module module) as [b| |e|classes] eqn:Ei;
    try (simpl; now auto).
  pose proof (run_classes_written module classes st path text) as H.
  destruct (run_classes dumps py_str lock_of time mkstemp config st module
                        classes) as [[st1 log] r]. simpl in *.
  intros Hp. destruct (H Hp) as [H'|((class & outcome) & Hin & output & Ho & Hs)];
    [auto|].
  right. simpl in Ho. subst outcome. unfold saved_by_run.
  destruct Hs as [(Hv & Hd & n & ->)|(Ht & n & -> & ->)].
  - left. exists module, classes, class, output, n.
    repeat split; auto. now left.
  - right. eauto.
Qed.

Lemma saved_by_run_more modules modules' path text :
  (forall m, In m modules -> In m modules') ->
  saved_by_run dumps py_str time mkstemp import_module config modules
               path text ->
  saved_by_run dumps py_str time mkstemp import_module config modules'
               path text.
Proof.
  intros Hsub [(m & cl & c & o & n & Hin & H)|H]; [|now right].
  left. exists m, cl, c, o, n. split; [now apply Hsub|exact H].
Qed.

Lemma run_modules_written modules : forall st path text,
  assoc path (written (fst (fst (run_modules dumps py_str lock_of time mkstemp
                                             import_module config st modules))))
  = Some text ->
  assoc path (written st) = Some text \/
  saved_by_run dumps py_str time mkstemp import_module config modules
               path text.
Proof.
  induction modules as [|module modules IH]; intros st path text; simpl;
    [auto|].
  pose proof (run_module_written st module path text) as H1.
  assert (Hhead : saved_by_run dumps py_str time mkstemp import_module config
                               [module] path text ->
                  saved_by_run dumps py_str time mkstemp import_module config
                               (module :: modules) path text).
  { apply saved_by_run_more. intros m [<-|[]]. now left. }
  destruct (run_module dumps py_str lock_of time mkstemp import_module config
                       st module) as [[st1 log1] [[]|e]]; simpl in *.
  - specialize (IH st1 path text).
    destruct (run_modules dumps py_str lock_of time mkstemp import_module
                          config st1 modules) as [[st2 log2] r]. simpl in *.
    intros Hp. destruct (IH Hp) as [H|H].
    + destruct (H1 H); auto.
    + right. revert H. apply saved_by_run_more. intros m Hm. now right.
  - intros Hp. destruct (H1 Hp); auto.
Qed.

End RunFacts.

(** X26.  What [run] leaves in a file: a file holds, after a run, what
    it held before, or it is the cache file of a module of the run
    whose name passes the name pattern and is not [test], written with
    the serialised output of one of its classes, an output that passed
    the validator; or it is the temporary file that keeps an output that
    was not saved.  An output that is empty ([None], an empty dict)
    writes no file at all, and a module named [test] or with a name
    outside the pattern is not even loaded. *)
Theorem run_saves_only_validated_output :
  forall (dumps : PyVal -> option string) (py_str : PyVal -> string)
         (lock_of : string -> Lock) (time mkstemp : nat -> string)
         (import_module : string -> Loaded) (config : Config),
    (forall st args path text,
        let modules := match given_list (ns_modules args) with
                       | Some modules => modules
                       | None => get_all_modules config
                       end in
        assoc path (written (fst (fst (run dumps py_str lock_of time mkstemp
                                           import_module config st args))))
        = Some text ->
        assoc path (written st) = Some text \/
        saved_by_run dumps py_str time mkstemp import_module config modules
                     path text) /\
    (forall st module class output,
        truthy output = false ->
        run_class dumps py_str lock_of time mkstemp config st module
                  (class, RunReturned output)
        = (st, [NoDataReturned class module], Ok tt)) /\
    (forall st module,
        match_ARG_NAME module = false \/ module = "test" ->
        fst (run_module dumps py_str lock_of time mkstemp import_module config
                        st module)
        = (st, [if match_ARG_NAME module then ModuleNamedTest
                else InvalidModuleName module])).
Proof.
  intros dumps py_str lock_of time mkstemp import_module config.
  split; [|split].
  - intros st args path text modules. unfold run. fold modules.
    apply run_modules_written.
  - intros st module class output Ht. unfold run_class. cbn [fst snd].
    assert (Hv : validate_module_response output
                 = Raise (AssertionError ResponseEmpty)).
    { rewrite validate_module_response_unfold. now rewrite Ht. }
    rewrite Hv. unfold not_saved. now rewrite Ht.
  - intros st module H. unfold run_module.
    destruct (match_ARG_NAME module); cbn [negb]; [|reflexivity].
    destruct H as [H| ->]; [discriminate|]. reflexivity.
Qed.

Lemma run_saves_only_validated_output_witness :
  let st := fst (fst (run example_dumps example_str example_lock example_time
                          example_mkstemp example_import example_config
                          (mkRunState 0 0 [])
                          (mkNamespace None None (Some ["sample"; "test"])
                                       None false))) in
  assoc "/opt/watchtower/cache/sample_1590173358.81.json" (written st)
  = Some "{...}" /\
  saved_by_run example_dumps example_str example_time example_mkstemp
               example_import example_config ["sample"; "test"]
               "/opt/watchtower/cache/sample_1590173358.81.json" "{...}".
Proof.
  intros st.
  assert (H : assoc "/opt/watchtower/cache/sample_1590173358.81.json"
                    (written st) = Some "{...}") by (vm_compute; reflexivity).
  split; [exact H|].
  destruct (proj1 (run_saves_only_validated_output
                     example_dumps example_str example_lock example_time
                     example_mkstemp example_import example_config)
                  (mkRunState 0 0 [])
                  (mkNamespace None None (Some ["sample"; "test"]) None false)
                  "/opt/watchtower/cache/sample_1590173358.81.json" "{...}" H)
    as [H0|H1]; [discriminate H0|exact H1].
Defined.
